(** * FileUploader: the per-file state machine of src/FileUploader.js

    The component is event driven: every handler runs to its next [await]
    (or to its end) without interruption, and the host (browser, media
    decoders, XMLHttpRequest, the embedding application) decides which
    callback fires next.  The embedding below therefore is a state record
    for the component instance, one function per handler segment, and an
    [Event] type for what the host can make happen.

    - objects ([fileWithMeta]) live in a [heap] and are named by their
      allocation index; [_files] holds references, so that an entry that
      was spliced out of the list is still mutated by the callbacks that
      captured it;
    - calls of host functions (observers, [forceUpdate], object-URL calls,
      the transport) are appended to a [trace];
    - values produced by the host (the clock, decoded dimensions, the
      resolved upload parameters, the return value of [onUploadReady],
      [xhr.readyState]/[xhr.status], [e.loaded]/[e.total]) come with the
      event that delivers them.

    The handlers that read the entries without changing them
    ([handleSubmit], [componentWillUnmount], the drag handlers, the submit
    button of [render]) are functions of their own.  The callbacks of the
    embedding application (the observers, [onCancel], [onRemove]) are
    effects in the trace: a callback that calls back into the component
    while a handler runs is not modelled, and no theorem below is about
    such a host.  The counter [id] and the sizes are exact integers (the
    counter stays far below 2^53, where JavaScript numbers stop being
    exact); the progress quotient is rounded as the engine rounds it. *)

From Stdlib Require Import ZArith NArith Ascii String List Bool Lia Sorted.
From stdpp Require Import base list.
Import ListNotations.

Local Open Scope Z_scope.

(** ** JavaScript numbers, as far as the component computes with them

    The only arithmetic on non-integers is the progress quotient.  A number
    is an IEEE 754 binary64 value: a finite one is written as the fraction
    it denotes, in lowest terms, and the two non-finite results of a
    division of non-negative numbers are kept apart because [||] treats
    them differently. *)

Inductive number : Type :=
| Fin (num : Z) (den : positive)
| Infinity
| NaN.

Definition of_Z (z : Z) : number := Fin z 1.

Definition reduce (n : Z) (d : positive) : number :=
  let g := Z.gcd n (Zpos d) in Fin (n / g) (Z.to_pos (Zpos d / g)).

(** The integer nearest to [a / b], ties to the even one. *)
Definition round_half_even (a : Z) (b : positive) : Z :=
  let q := a / Zpos b in
  match (2 * (a mod Zpos b) ?= Zpos b) with
  | Lt => q
  | Gt => q + 1
  | Eq => if Z.even q then q else q + 1
  end.

(** The binary exponent [e] of [n / d] for [n > 0]:
    [2 ^ e <= n / d < 2 ^ (e + 1)]. *)
Definition ilog2 (n : Z) (d : positive) : Z :=
  let e0 := Z.log2 n - Z.log2 (Zpos d) in
  if (if 0 <=? e0 then Zpos d * 2 ^ e0 <=? n else Zpos d <=? n * 2 ^ (- e0))
  then e0 else e0 - 1.

(** The binary64 value nearest to [n / d] for [n >= 0]: 53 significant
    bits, ties to even, exponents below [-1022] share the spacing
    [2 ^ -1074], and what rounds to [2 ^ 1024] is [Infinity]. *)
Definition to_double (n : Z) (d : positive) : number :=
  if n <=? 0 then Fin 0 1
  else
    let k := Z.max (ilog2 n d) (-1022) - 52 in
    if 0 <=? k then
      let m := round_half_even n (Z.to_pos (Zpos d * 2 ^ k)) in
      if 2 ^ 1024 <=? m * 2 ^ k then Infinity else Fin (m * 2 ^ k) 1
    else reduce (round_half_even (n * 2 ^ (- k)) d) (Z.to_pos (2 ^ (- k))).

(** [a / b] for integers [a, b >= 0]: both operands are numbers before
    they are divided, and the quotient is rounded once more. *)
Definition js_div (a b : N) : number :=
  match to_double (Z.of_N a) 1, to_double (Z.of_N b) 1 with
  | Fin n dn, Fin m dm =>
      if m =? 0 then (if n =? 0 then NaN else Infinity)
      else to_double (n * Zpos dm) (dn * Z.to_pos m)
  | Fin _ _, Infinity => Fin 0 1
  | Infinity, Fin _ _ => Infinity
  | _, _ => NaN
  end.

Arguments js_div : simpl never.

(** ToBoolean on a number: [0] and [NaN] are falsy. *)
Definition truthy (x : number) : bool :=
  match x with
  | Fin n _ => negb (n =? 0)
  | Infinity => true
  | NaN => false
  end.

(** [x || y] *)
Definition js_or (x y : number) : number := if truthy x then x else y.

(** ** Data model *)

(** References are allocation indices. *)
Abbreviation ref := nat (only parsing).      (* a [fileWithMeta] object *)
Abbreviation xhrid := nat (only parsing).    (* an [XMLHttpRequest] object *)
Abbreviation url := nat (only parsing).      (* an object URL from [URL.createObjectURL] *)

Inductive Status : Type :=
| preparing
| error_file_size
| uploading
| error_upload_params
| aborted
| headers_received
| done
| error_upload.

Definition Status_eqb (a b : Status) : bool :=
  match a, b with
  | preparing, preparing | error_file_size, error_file_size
  | uploading, uploading | error_upload_params, error_upload_params
  | aborted, aborted | headers_received, headers_received
  | done, done | error_upload, error_upload => true
  | _, _ => false
  end.

(** The [File] handed over by the browser. *)
Record File : Type := mkFile {
  f_name : string;
  f_size : Z;
  f_type : string;
  f_lastModified : Z;
}.

(** [lastModified && new Date(lastModified).toISOString()]: the raw falsy
    number when there is no timestamp, the ISO string otherwise. *)
Inductive DateField : Type :=
| RawNumber (z : Z)
| IsoDate (ms : Z).

Record Meta : Type := mkMeta {
  m_name : string;
  m_size : Z;
  m_type : string;
  m_lastModifiedDate : DateField;
  m_uploadedDate : string;
  m_status : Status;
  m_percent : number;
  m_id : Z;
  m_previewUrl : option url;
  m_width : option number;
  m_height : option number;
  m_duration : option number;
  m_videoWidth : option number;
  m_videoHeight : option number;
}.

(** The [meta] object of the upload parameters: any subset of keys. *)
Record ExtraMeta : Type := mkExtra {
  x_name : option string;
  x_size : option Z;
  x_type : option string;
  x_lastModifiedDate : option DateField;
  x_uploadedDate : option string;
  x_status : option Status;
  x_percent : option number;
  x_id : option Z;
  x_previewUrl : option url;
  x_width : option number;
  x_height : option number;
  x_duration : option number;
  x_videoWidth : option number;
  x_videoHeight : option number;
}.

Definition no_extra : ExtraMeta :=
  mkExtra None None None None None None None None None None None None None None.

(** What [getUploadParams] resolves to; an absent key is [None]/[[]]. *)
Record Params : Type := mkParams {
  p_url : option string;
  p_method : option string;
  p_fields : list (string * string);
  p_headers : list (string * string);
  p_meta : option ExtraMeta;
}.

Inductive MediaKind : Type := Image | Audio | Video.

(** Where the [handleFile] call that created an entry currently is. *)
Inductive Activation : Type :=
| Returned
    (* [handleFile] has returned (line 120, line 144, or its end) *)
| AwaitingDecode (k : MediaKind) (objectUrl : url) (type : string)
    (* suspended inside [generatePreview] on the ready callback of [k] *)
| AwaitingPreview.
    (* [generatePreview] has finished; suspended at line 123 *)

Record Entry : Type := mkEntry {
  (* the JavaScript object *)
  e_file : File;
  e_meta : Meta;
  e_xhr : option xhrid;
  e_triggerUpload : bool;        (* the property [triggerUpload] is set *)
  (* the pending continuations that captured the object *)
  e_activation : Activation;
  e_triggered : option bool;     (* [let triggered], once line 125 has run *)
  e_awaiting_params : nat;       (* [uploadFile] calls suspended at line 197 *)
}.

Inductive Part : Type :=
| PString (s : string)
| PFile (f : File).

Inductive Effect : Type :=
| ChangeStatus (r : ref) (st : Status)     (* props.onChangeStatus(f, f.meta.status) *)
| ForceUpdate                              (* this.forceUpdate() *)
| OnCancel (r : ref)                       (* props.onCancel(f) *)
| OnRemove (r : ref)                       (* props.onRemove(f) *)
| OnUploadReady (r : ref)                  (* props.onUploadReady(f) *)
| GetUploadParams (r : ref)                (* props.getUploadParams(f) *)
| CreateObjectURL (r : ref) (u : url)      (* URL.createObjectURL(f.file) *)
| RevokeObjectURL (u : url)                (* URL.revokeObjectURL(u) *)
| XhrSend (x : xhrid) (r : ref) (method target : string)
          (headers : list (string * string)) (body : list (string * Part))
| XhrAbort (x : xhrid).                    (* xhr.abort() *)

Record Props : Type := mkProps {
  maxSizeBytes : Z;
  maxFiles : Z;
  allowedTypePrefixes : option (list string);
  previewTypes : list string;
  getUploadParams : bool;     (* the callbacks: configured or not *)
  onUploadReady : bool;
  onChangeStatus : bool;
  onCancel : bool;
  onRemove : bool;
}.

Record State : Type := mkState {
  next_id : Z;              (* the module variable [id] *)
  files : list ref;         (* this._files *)
  heap : list Entry;
  xhrs : list ref;          (* request object |-> the entry its listeners captured *)
  next_url : url;
  trace : list Effect;
}.

Definition init : State := mkState 0 [] [] [] 0%nat [].

(** ** Field updates *)

Definition meta_status (st : Status) (m : Meta) : Meta :=
  mkMeta (m_name m) (m_size m) (m_type m) (m_lastModifiedDate m) (m_uploadedDate m)
         st (m_percent m) (m_id m) (m_previewUrl m) (m_width m) (m_height m)
         (m_duration m) (m_videoWidth m) (m_videoHeight m).

Definition meta_percent (p : number) (m : Meta) : Meta :=
  mkMeta (m_name m) (m_size m) (m_type m) (m_lastModifiedDate m) (m_uploadedDate m)
         (m_status m) p (m_id m) (m_previewUrl m) (m_width m) (m_height m)
         (m_duration m) (m_videoWidth m) (m_videoHeight m).

Definition meta_previewUrl (u : url) (m : Meta) : Meta :=
  mkMeta (m_name m) (m_size m) (m_type m) (m_lastModifiedDate m) (m_uploadedDate m)
         (m_status m) (m_percent m) (m_id m) (Some u) (m_width m) (m_height m)
         (m_duration m) (m_videoWidth m) (m_videoHeight m).

Definition meta_image (w h : number) (m : Meta) : Meta :=
  mkMeta (m_name m) (m_size m) (m_type m) (m_lastModifiedDate m) (m_uploadedDate m)
         (m_status m) (m_percent m) (m_id m) (m_previewUrl m) (Some w) (Some h)
         (m_duration m) (m_videoWidth m) (m_videoHeight m).

Definition meta_audio (d : number) (m : Meta) : Meta :=
  mkMeta (m_name m) (m_size m) (m_type m) (m_lastModifiedDate m) (m_uploadedDate m)
         (m_status m) (m_percent m) (m_id m) (m_previewUrl m) (m_width m) (m_height m)
         (Some d) (m_videoWidth m) (m_videoHeight m).

Definition meta_video (d w h : number) (m : Meta) : Meta :=
  mkMeta (m_name m) (m_size m) (m_type m) (m_lastModifiedDate m) (m_uploadedDate m)
         (m_status m) (m_percent m) (m_id m) (m_previewUrl m) (m_width m) (m_height m)
         (Some d) (Some w) (Some h).

Definition over {A} (new : option A) (old : A) : A :=
  match new with Some a => a | None => old end.

Definition over_opt {A} (new old : option A) : option A :=
  match new with Some a => Some a | None => old end.

(** [{ ...meta, ...extraMeta }]: every key of [extraMeta] wins. *)
Definition merge_meta (x : ExtraMeta) (m : Meta) : Meta :=
  mkMeta (over (x_name x) (m_name m)) (over (x_size x) (m_size m))
         (over (x_type x) (m_type m))
         (over (x_lastModifiedDate x) (m_lastModifiedDate m))
         (over (x_uploadedDate x) (m_uploadedDate m))
         (over (x_status x) (m_status m)) (over (x_percent x) (m_percent m))
         (over (x_id x) (m_id m))
         (over_opt (x_previewUrl x) (m_previewUrl m))
         (over_opt (x_width x) (m_width m)) (over_opt (x_height x) (m_height m))
         (over_opt (x_duration x) (m_duration m))
         (over_opt (x_videoWidth x) (m_videoWidth m))
         (over_opt (x_videoHeight x) (m_videoHeight m)).

Definition entry_meta (f : Meta -> Meta) (e : Entry) : Entry :=
  mkEntry (e_file e) (f (e_meta e)) (e_xhr e) (e_triggerUpload e)
          (e_activation e) (e_triggered e) (e_awaiting_params e).

Definition entry_xhr (x : xhrid) (e : Entry) : Entry :=
  mkEntry (e_file e) (e_meta e) (Some x) (e_triggerUpload e)
          (e_activation e) (e_triggered e) (e_awaiting_params e).

Definition entry_triggerUpload (e : Entry) : Entry :=
  mkEntry (e_file e) (e_meta e) (e_xhr e) true
          (e_activation e) (e_triggered e) (e_awaiting_params e).

Definition entry_activation (a : Activation) (e : Entry) : Entry :=
  mkEntry (e_file e) (e_meta e) (e_xhr e) (e_triggerUpload e)
          a (e_triggered e) (e_awaiting_params e).

Definition entry_triggered (b : bool) (e : Entry) : Entry :=
  mkEntry (e_file e) (e_meta e) (e_xhr e) (e_triggerUpload e)
          (e_activation e) (Some b) (e_awaiting_params e).

Definition entry_awaiting (n : nat) (e : Entry) : Entry :=
  mkEntry (e_file e) (e_meta e) (e_xhr e) (e_triggerUpload e)
          (e_activation e) (e_triggered e) n.

(** Mutation of the object behind [r]. *)
Definition modify (r : ref) (f : Entry -> Entry) (s : State) : State :=
  mkState (next_id s) (files s) (alter f r (heap s)) (xhrs s) (next_url s) (trace s).

Definition emit (eff : Effect) (s : State) : State :=
  mkState (next_id s) (files s) (heap s) (xhrs s) (next_url s) (trace s ++ [eff]).

Definition set_status (r : ref) (st : Status) : State -> State :=
  modify r (entry_meta (meta_status st)).

Definition set_percent (r : ref) (p : number) : State -> State :=
  modify r (entry_meta (meta_percent p)).

Definition set_activation (r : ref) (a : Activation) : State -> State :=
  modify r (entry_activation a).

(** ** The handlers *)

Definition forceUpdate : State -> State := emit ForceUpdate.

(** Lines 87-90. *)
Definition handleChangeStatus (P : Props) (r : ref) (s : State) : State :=
  if onChangeStatus P then
    match heap s !! r with
    | Some fileWithMeta => emit (ChangeStatus r (m_status (e_meta fileWithMeta))) s
    | None => s
    end
  else s.

(** [type.startsWith(p)] *)
Fixpoint startsWith (type p : string) : bool :=
  match p with
  | EmptyString => true
  | String a p' =>
      match type with
      | EmptyString => false
      | String b type' => Ascii.eqb a b && startsWith type' p'
      end
  end.

(** [arr.includes(x)] on strings *)
Definition includes (arr : list string) (x : string) : bool :=
  existsb (String.eqb x) arr.

Definition kind_prefix (k : MediaKind) : string :=
  match k with Image => "image/" | Audio => "audio/" | Video => "video/" end.

Definition kind_name (k : MediaKind) : string :=
  match k with Image => "image" | Audio => "audio" | Video => "video" end.

(** The guarded blocks of [generatePreview] from the one for the first
    kind of [ks] on (lines 166-189), then lines 190 and 192.  A block
    whose guard holds suspends on the decoder's ready callback.  Nothing
    in the [try] body throws and the awaited promise has no reject path
    ([fileCallbackToPromise] wires [resolve] only), so control reaches the
    [revokeObjectURL] of line 190 and never the identical one of the
    [catch]. *)
Fixpoint preview_blocks (P : Props) (r : ref) (objectUrl : url) (type : string)
         (ks : list MediaKind) (s : State) : State :=
  match ks with
  | [] =>
      let s := emit (RevokeObjectURL objectUrl) s in
      let s := forceUpdate s in
      set_activation r AwaitingPreview s
  | k :: ks' =>
      if startsWith type (kind_prefix k) && includes (previewTypes P) (kind_name k) then
        let s := match k with
                 | Image => modify r (entry_meta (meta_previewUrl objectUrl)) s
                 | _ => s
                 end in
        set_activation r (AwaitingDecode k objectUrl type) s
      else preview_blocks P r objectUrl type ks' s
  end.

(** [URL.createObjectURL(file)]: a URL that was not handed out before. *)
Definition createObjectURL (r : ref) (s : State) : State :=
  mkState (next_id s) (files s) (heap s) (xhrs s) (S (next_url s))
          (trace s ++ [CreateObjectURL r (next_url s)]).

(** Lines 150-159 and on to the first suspension. *)
Definition generatePreview (P : Props) (r : ref) (s : State) : State :=
  match heap s !! r with
  | None => s
  | Some fileWithMeta =>
      let type := m_type (e_meta fileWithMeta) in
      let isImage := startsWith type "image/" in
      let isAudio := startsWith type "audio/" in
      let isVideo := startsWith type "video/" in
      if negb isImage && negb isAudio && negb isVideo then
        set_activation r AwaitingPreview s
      else
        let objectUrl := next_url s in
        let s := createObjectURL r s in
        preview_blocks P r objectUrl type [Image; Audio; Video] s
  end.

(** What a decoder exposes when its ready callback fires. *)
Record Decoded : Type := mkDecoded {
  d_width : number;
  d_height : number;
  d_duration : number;
  d_videoWidth : number;
  d_videoHeight : number;
}.

(** The rest of the block that was suspended (lines 171-172, 179, 186-188),
    then the blocks after it. *)
Definition generatePreview_resume (P : Props) (r : ref) (k : MediaKind)
           (objectUrl : url) (type : string) (d : Decoded) (s : State) : State :=
  match k with
  | Image =>
      let s := modify r (entry_meta (meta_image (d_width d) (d_height d))) s in
      preview_blocks P r objectUrl type [Audio; Video] s
  | Audio =>
      let s := modify r (entry_meta (meta_audio (d_duration d))) s in
      preview_blocks P r objectUrl type [Video] s
  | Video =>
      let s := modify r (entry_meta
                 (meta_video (d_duration d) (d_videoWidth d) (d_videoHeight d))) s in
      preview_blocks P r objectUrl type [] s
  end.

(** Line 197: the provider is called and [uploadFile] suspends. *)
Definition uploadFile (r : ref) (s : State) : State :=
  let s := emit (GetUploadParams r) s in
  modify r (fun e => entry_awaiting (S (e_awaiting_params e)) e) s.

(** The closure of lines 126-139. *)
Definition triggerUpload (P : Props) (r : ref) (s : State) : State :=
  match heap s !! r with
  | Some fileWithMeta =>
      match e_triggered fileWithMeta with
      | Some false =>
          let s := modify r (entry_triggered true) s in
          let s := if getUploadParams P
                   then set_status r uploading (uploadFile r s)
                   else set_status r done s in
          let s := handleChangeStatus P r s in
          forceUpdate s
      | _ => s
      end
  | None => s
  end.

(** What the host's [onUploadReady] does: it may call the exposed
    [triggerUpload] itself, and it returns [r]. *)
Record HookRun : Type := mkHookRun {
  hook_calls : nat;
  hook_result : option (option bool);    (* r, and r.delayUpload if r is an object *)
}.

(** [r && r.delayUpload === true] *)
Definition delayUpload (h : HookRun) : bool :=
  match hook_result h with
  | Some (Some true) => true
  | _ => false
  end.

(** Lines 125-147. *)
Definition handleFile_resume (P : Props) (r : ref) (h : HookRun) (s : State) : State :=
  let s := set_activation r Returned s in
  let s := modify r (entry_triggered false) s in
  if onUploadReady P then
    let s := modify r entry_triggerUpload s in
    let s := emit (OnUploadReady r) s in
    let s := Nat.iter (hook_calls h) (triggerUpload P r) s in
    if delayUpload h then s else triggerUpload P r s
  else triggerUpload P r s.

(** [new Date(t).toISOString()] returns a string for a time value within
    the range of ECMAScript dates, 8.64e15 ms either side of the epoch,
    and throws a RangeError for any other. *)
Definition date_in_range (t : Z) : bool := Z.abs t <=? 8640000000000000.

(** Lines 92-123.  The RangeError of line 106 ends the call before
    anything is written: the promise of [handleFile] is rejected, which
    [handleFiles] ignores, and the component is as it was. *)
Definition handleFile (P : Props) (file : File) (now : string) (s : State) : State :=
  if match allowedTypePrefixes P with
     | Some ps => negb (existsb (startsWith (f_type file)) ps)
     | None => false
     end
  then s
  else if Z.of_nat (length (files s)) >=? maxFiles P then s
  else if negb (date_in_range (f_lastModified file)) then s
  else
    let r := length (heap s) in
    let lastModifiedDate :=
      if f_lastModified file =? 0 then RawNumber 0 else IsoDate (f_lastModified file) in
    let fileWithMeta :=
      mkEntry file
        (mkMeta (f_name file) (f_size file) (f_type file) lastModifiedDate now
                preparing (of_Z 0) (next_id s) None None None None None None)
        None false Returned None 0 in
    let s := mkState (next_id s) (files s ++ [r]) (heap s ++ [fileWithMeta])
                     (xhrs s) (next_url s) (trace s) in
    let s := handleChangeStatus P r s in
    let s := forceUpdate s in
    let s := mkState (next_id s + 1) (files s) (heap s) (xhrs s) (next_url s) (trace s) in
    if f_size file >? maxSizeBytes P then
      let s := set_status r error_file_size s in
      let s := handleChangeStatus P r s in
      forceUpdate s
    else generatePreview P r s.

(** [new XMLHttpRequest()] with the two listeners of lines 217 and 222,
    which capture [fileWithMeta]. *)
Definition listen (r : ref) (s : State) : State :=
  mkState (next_id s) (files s) (heap s) (xhrs s ++ [r]) (next_url s) (trace s).

(** [!url]: absent or the empty string. *)
Definition no_url (p : option Params) : bool :=
  match p with
  | Some params =>
      match p_url params with
      | Some target => String.eqb target EmptyString
      | None => true
      end
  | None => true
  end.

(** Lines 198-246, once the provider's promise has resolved to [p]
    ([None]: a falsy value, read as [{}]). *)
Definition uploadFile_resume (P : Props) (r : ref) (p : option Params) (s : State) : State :=
  match p with
  | Some (mkParams (Some target) method fields headers extraMeta) =>
      if String.eqb target EmptyString then
        let s := set_status r error_upload_params s in
        let s := handleChangeStatus P r s in
        forceUpdate s
      else
        match heap s !! r with
        | None => s
        | Some fileWithMeta =>
            let xhr := length (xhrs s) in
            let s := modify r (entry_meta (merge_meta (over extraMeta no_extra))) s in
            let s := listen r s in
            let s := emit (XhrSend xhr r (over method "POST"%string) target
                             (("X-Requested-With", "XMLHttpRequest")%string :: headers)
                             (map (fun kv => (fst kv, PString (snd kv))) fields
                                ++ [("file"%string, PFile (e_file fileWithMeta))])) s in
            modify r (entry_xhr xhr) s
        end
  | _ =>
      let s := set_status r error_upload_params s in
      let s := handleChangeStatus P r s in
      forceUpdate s
  end.

(** The [progress] listener, lines 217-220. *)
Definition on_progress (xhr : xhrid) (loaded total : N) (s : State) : State :=
  match xhrs s !! xhr with
  | Some r =>
      let s := set_percent r (js_or (js_div (loaded * 100) total) (of_Z 100)) s in
      forceUpdate s
  | None => s
  end.

(** The [readystatechange] listener, lines 222-241. *)
Definition on_readystatechange (P : Props) (xhr : xhrid) (readyState status : Z)
           (s : State) : State :=
  match xhrs s !! xhr with
  | Some r =>
      if negb (readyState =? 2) && negb (readyState =? 4) then s
      else if status =? 0 then
        let s := set_status r aborted s in
        let s := handleChangeStatus P r s in
        forceUpdate s
      else if status <? 400 then
        let s := set_percent r (of_Z 100) s in
        let s := if readyState =? 2 then set_status r headers_received s else s in
        let s := if readyState =? 4 then set_status r done s else s in
        let s := handleChangeStatus P r s in
        forceUpdate s
      else
        let s := set_status r error_upload s in
        let s := handleChangeStatus P r s in
        forceUpdate s
  | None => s
  end.

(** [this._files.findIndex(f => f.meta.id === _id)]; [None] is [-1]. *)
Fixpoint findIndex (h : list Entry) (_id : Z) (l : list ref) : option nat :=
  match l with
  | [] => None
  | r :: l' =>
      if match h !! r with
         | Some f => m_id (e_meta f) =? _id
         | None => false
         end
      then Some 0%nat
      else S <$> findIndex h _id l'
  end.

(** Lines 65-71. *)
Definition handleCancel (P : Props) (_id : Z) (s : State) : State :=
  match findIndex (heap s) _id (files s) with
  | Some index =>
      match files s !! index with
      | Some r =>
          match heap s !! r with
          | Some fileWithMeta =>
              match e_xhr fileWithMeta with
              | Some xhr =>
                  let s := if onCancel P then emit (OnCancel r) s else s in
                  emit (XhrAbort xhr) s
              | None => s
              end
          | None => s
          end
      | None => s
      end
  | None => s
  end.

(** Lines 73-80. *)
Definition handleRemove (P : Props) (_id : Z) (s : State) : State :=
  match findIndex (heap s) _id (files s) with
  | Some index =>
      match files s !! index with
      | Some r =>
          let s := if onRemove P then emit (OnRemove r) s else s in
          let s := mkState (next_id s) (delete index (files s)) (heap s) (xhrs s)
                           (next_url s) (trace s) in
          forceUpdate s
      | None => s
      end
  | None => s
  end.

(** ** What the host can make happen *)

Inductive Event : Type :=
| EvHandleFile (file : File) (now : string)
    (* a file is dropped or picked; [now] is the clock reading *)
| EvDecodeReady (r : ref) (d : Decoded)
    (* [onload] / [onloadedmetadata] of the element decoding [r] *)
| EvDecodeError (r : ref)
    (* [onerror] of that element: the file cannot be decoded *)
| EvResume (r : ref) (h : HookRun)
    (* the promise of [generatePreview] is delivered to [handleFile] *)
| EvTrigger (r : ref)
    (* the host calls [fileWithMeta.triggerUpload()] *)
| EvParams (r : ref) (p : option Params)
    (* the promise of [getUploadParams] resolves *)
| EvProgress (xhr : xhrid) (loaded total : N)
| EvReadyState (xhr : xhrid) (readyState status : Z)
| EvCancel (_id : Z)
| EvRemove (_id : Z).

(** One event.  [None]: the event cannot happen in [s] (there is no such
    pending continuation, listener or exposed closure). *)
Definition step (P : Props) (s : State) (ev : Event) : option State :=
  match ev with
  | EvHandleFile file now => Some (handleFile P file now s)
  | EvDecodeReady r d =>
      match heap s !! r with
      | Some e =>
          match e_activation e with
          | AwaitingDecode k objectUrl type =>
              Some (generatePreview_resume P r k objectUrl type d s)
          | _ => None
          end
      | None => None
      end
  | EvDecodeError r =>
      (* [fileCallbackToPromise] sets the ready callback only: no code of
         the component runs, and the promise stays pending *)
      match heap s !! r with
      | Some e =>
          match e_activation e with
          | AwaitingDecode _ _ _ => Some s
          | _ => None
          end
      | None => None
      end
  | EvResume r h =>
      match heap s !! r with
      | Some e =>
          match e_activation e with
          | AwaitingPreview => Some (handleFile_resume P r h s)
          | _ => None
          end
      | None => None
      end
  | EvTrigger r =>
      match heap s !! r with
      | Some e => if e_triggerUpload e then Some (triggerUpload P r s) else None
      | None => None
      end
  | EvParams r p =>
      match heap s !! r with
      | Some e =>
          match e_awaiting_params e with
          | S n => Some (uploadFile_resume P r p (modify r (entry_awaiting n) s))
          | O => None
          end
      | None => None
      end
  | EvProgress xhr loaded total =>
      match xhrs s !! xhr with
      | Some _ => Some (on_progress xhr loaded total s)
      | None => None
      end
  | EvReadyState xhr readyState status =>
      match xhrs s !! xhr with
      | Some _ => Some (on_readystatechange P xhr readyState status s)
      | None => None
      end
  | EvCancel _id => Some (handleCancel P _id s)
  | EvRemove _id => Some (handleRemove P _id s)
  end.

Fixpoint run (P : Props) (s : State) (evs : list Event) : option State :=
  match evs with
  | [] => Some s
  | ev :: evs' =>
      match step P s ev with
      | Some s' => run P s' evs'
      | None => None
      end
  end.

Definition reachable (P : Props) (s : State) : Prop :=
  exists evs, run P init evs = Some s.

(** ** Vocabulary of the statements *)

(** The observer call of [handleChangeStatus], when one is configured. *)
Definition notify (P : Props) (r : ref) (st : Status) : list Effect :=
  if onChangeStatus P then [ChangeStatus r st] else [].

(** The entry holds a request. *)
Definition sent (e : Entry) : nat :=
  match e_xhr e with Some _ => 1 | None => 0 end.

(** A file passes both tests of lines 102-103. *)
Definition accepted (P : Props) (s : State) (file : File) : Prop :=
  match allowedTypePrefixes P with
  | Some ps => existsb (startsWith (f_type file)) ps = true
  | None => True
  end /\ Z.of_nat (length (files s)) < maxFiles P
  /\ date_in_range (f_lastModified file) = true.

(** The object literal of lines 107-110. *)
Definition fresh_entry (file : File) (now : string) (i : Z) : Entry :=
  mkEntry file
    (mkMeta (f_name file) (f_size file) (f_type file)
            (if f_lastModified file =? 0 then RawNumber 0
             else IsoDate (f_lastModified file)) now
            preparing (of_Z 0) i None None None None None None)
    None false Returned None 0.

(** The state at line 115. *)
Definition registered (P : Props) (s : State) (file : File) (now : string) : State :=
  mkState (next_id s + 1) (files s ++ [length (heap s)])
          (heap s ++ [fresh_entry file now (next_id s)])
          (xhrs s) (next_url s)
          (trace s ++ notify P (length (heap s)) preparing ++ [ForceUpdate]).

(** *** Effects, per entry *)

(** The entry an effect belongs to the pipeline of, if any. *)
Definition about (eff : Effect) : option ref :=
  match eff with
  | ChangeStatus r _ | OnUploadReady r | GetUploadParams r
  | CreateObjectURL r _ | XhrSend _ r _ _ _ _ => Some r
  | ForceUpdate | OnCancel _ | OnRemove _ | RevokeObjectURL _ | XhrAbort _ => None
  end.

(** [uploadFile] was called for [r]. *)
Definition is_start (r : ref) (eff : Effect) : bool :=
  match eff with GetUploadParams r' => Nat.eqb r' r | _ => false end.

(** A request was sent for [r]. *)
Definition is_send (r : ref) (eff : Effect) : bool :=
  match eff with XhrSend _ r' _ _ _ _ => Nat.eqb r' r | _ => false end.


Fixpoint count (p : Effect -> bool) (tr : list Effect) : nat :=
  match tr with
  | [] => 0
  | eff :: tr' => (if p eff then 1 else 0) + count p tr'
  end.

(** [uploadFile] was called from the closure of the entry. *)
Definition started (P : Props) (e : Entry) : nat :=
  if getUploadParams P then
    match e_triggered e with Some true => 1 | _ => 0 end
  else 0.

(** Nothing is pending for the entry and nothing can be started on it. *)
Definition quiet (e : Entry) : Prop :=
  e_activation e = Returned /\ e_triggered e = None /\ e_triggerUpload e = false /\
  e_awaiting_params e = 0%nat /\ e_xhr e = None.

(** The event does not bring an [id] key in its extra metadata. *)
Definition id_kept (ev : Event) : Prop :=
  match ev with
  | EvParams _ (Some p) =>
      match p_meta p with Some x => x_id x = None | None => True end
  | _ => True
  end.

(** *** The invariant of the states, and what one event and one run
    change

    For each entry: the closure exists only once [handleFile] is past its
    [await]; it is exposed only once it exists; [uploadFile] was called
    once if the closure has run with a provider and never otherwise; the
    requests sent and the calls still waiting for the provider do not
    exceed the calls made; the entry holds a handle exactly if a request
    was sent for it; and the listeners that captured the entry are those
    of its handle.  For the state: listeners and effects name existing
    entries, and [id] counts the entries created. *)

Record entry_ok (P : Props) (s : State) (r : ref) (e : Entry) : Prop := {
  ok_act : e_activation e <> Returned -> e_triggered e = None;
  ok_exposed : e_triggerUpload e = true -> e_triggered e <> None;
  ok_starts : count (is_start r) (trace s) = started P e;
  ok_sends : (count (is_send r) (trace s) + e_awaiting_params e <= started P e)%nat;
  ok_sent : count (is_send r) (trace s) = sent e;
  ok_listen : forall x, xhrs s !! x = Some r <-> e_xhr e = Some x;
}.

Record Inv (P : Props) (s : State) : Prop := {
  inv_entries : forall r e, heap s !! r = Some e -> entry_ok P s r e;
  inv_xhrs : forall x r, xhrs s !! x = Some r -> (r < length (heap s))%nat;
  inv_trace : forall eff r, In eff (trace s) -> about eff = Some r ->
                            (r < length (heap s))%nat;
  inv_id : next_id s = Z.of_nat (length (heap s));
}.

Record Trans (ev : Event) (s s' : State) : Prop := {
  tr_keep : forall r e, heap s !! r = Some e ->
      exists e', heap s' !! r = Some e' /\
        (e_triggered e = Some true -> e_triggered e' = Some true) /\
        (e_triggerUpload e = true -> e_triggerUpload e' = true) /\
        (forall x, e_xhr e = Some x -> e_xhr e' = Some x) /\
        (quiet e -> e' = e) /\
        (id_kept ev -> m_id (e_meta e') = m_id (e_meta e));
  tr_new : forall r e', heap s !! r = None -> heap s' !! r = Some e' ->
      r = length (heap s) /\ m_id (e_meta e') = next_id s;
  tr_len : (length (heap s) <= length (heap s') <= S (length (heap s)))%nat;
  tr_trace : exists new, trace s' = trace s ++ new /\
      forall eff r e, In eff new -> about eff = Some r -> heap s !! r = Some e ->
                      ~ quiet e;
}.

(** [s'] comes from [s] by operations on the entry [r] alone: it went from
    [e] to [e'], [l] lists the listeners registered and [new] the effects. *)
Record local (r : ref) (s s' : State) (e e' : Entry)
       (l : list ref) (new : list Effect) : Prop := {
  loc_old : heap s !! r = Some e;
  loc_new : heap s' !! r = Some e';
  loc_len : length (heap s') = length (heap s);
  loc_frame : forall r2, r2 <> r -> heap s' !! r2 = heap s !! r2;
  loc_id : next_id s' = next_id s;
  loc_xhrs : xhrs s' = xhrs s ++ l;
  loc_refs : Forall (eq r) l;
  loc_trace : trace s' = trace s ++ new;
  loc_about : Forall (fun eff => forall r2, about eff = Some r2 -> r2 = r) new;
}.

(** The control fields and the id are those of [e]. *)
Record same_ctl (e e' : Entry) : Prop := {
  sc_xhr : e_xhr e' = e_xhr e;
  sc_exposed : e_triggerUpload e' = e_triggerUpload e;
  sc_triggered : e_triggered e' = e_triggered e;
  sc_awaiting : e_awaiting_params e' = e_awaiting_params e;
  sc_id : m_id (e_meta e') = m_id (e_meta e);
}.

(** No call of the provider and no request among the effects. *)
Definition harmless (new : list Effect) : Prop :=
  Forall (fun eff => match eff with
                     | GetUploadParams _ | XhrSend _ _ _ _ _ _ => False
                     | _ => True
                     end) new.

(** What [triggerUpload] does to the entry, in a form that composes. *)
Record delta (P : Props) (r : ref) (e e' : Entry) (new : list Effect) : Prop := {
  d_xhr : e_xhr e' = e_xhr e;
  d_act : e_activation e' = e_activation e;
  d_exposed : e_triggerUpload e' = e_triggerUpload e;
  d_id : m_id (e_meta e') = m_id (e_meta e);
  d_mono : e_triggered e = Some true -> e_triggered e' = Some true;
  d_some : e_triggered e <> None -> e_triggered e' <> None;
  d_starts : started P e' = (started P e + count (is_start r) new)%nat;
  d_awaiting : e_awaiting_params e'
               = (e_awaiting_params e + count (is_start r) new)%nat;
  d_sends : count (is_send r) new = 0%nat;
}.

(** What a run keeps of the entries it started with. *)
Record Kept (s s' : State) : Prop := {
  k_entry : forall r e, heap s !! r = Some e ->
      exists e', heap s' !! r = Some e' /\
        (e_triggered e = Some true -> e_triggered e' = Some true) /\
        (e_triggerUpload e = true -> e_triggerUpload e' = true) /\
        (forall x, e_xhr e = Some x -> e_xhr e' = Some x) /\
        (quiet e -> e' = e);
  k_trace : exists new, trace s' = trace s ++ new /\
      forall eff r e, In eff new -> about eff = Some r -> heap s !! r = Some e ->
                      ~ quiet e;
}.

(** *** Two statements that do not hold

    The handle is on the entry only while the entry is [uploading]. *)
Definition handle_only_while_uploading (P : Props) : Prop :=
  forall s r e,
    reachable P s -> heap s !! r = Some e ->
    e_xhr e <> None -> m_status (e_meta e) = uploading.

(** At any time, two entries ever created have different [meta.id]. *)
Definition ids_distinct (P : Props) : Prop :=
  forall s r1 r2 e1 e2,
    reachable P s -> r1 <> r2 ->
    heap s !! r1 = Some e1 -> heap s !! r2 = Some e2 ->
    m_id (e_meta e1) <> m_id (e_meta e2).

(** *** Sample hosts, files and runs *)

Module Sample.

Definition props : Props :=
  {| maxSizeBytes := 1048576; maxFiles := 5; allowedTypePrefixes := None;
     previewTypes := ["image"; "audio"; "video"]%string;
     getUploadParams := true; onUploadReady := false;
     onChangeStatus := true; onCancel := true; onRemove := true |}.

(** The same host, with an [onUploadReady] hook. *)
Definition props_hook : Props :=
  {| maxSizeBytes := 1048576; maxFiles := 5; allowedTypePrefixes := None;
     previewTypes := ["image"; "audio"; "video"]%string;
     getUploadParams := true; onUploadReady := true;
     onChangeStatus := true; onCancel := true; onRemove := true |}.

(** A host that only takes images. *)
Definition props_images : Props :=
  {| maxSizeBytes := 1048576; maxFiles := 5;
     allowedTypePrefixes := Some ["image/"%string];
     previewTypes := ["image"; "audio"; "video"]%string;
     getUploadParams := true; onUploadReady := false;
     onChangeStatus := true; onCancel := true; onRemove := true |}.

Definition png : File :=
  {| f_name := "cat.png"; f_size := 10240; f_type := "image/png";
     f_lastModified := 1546300800000 |}.

Definition txt : File :=
  {| f_name := "notes.txt"; f_size := 120; f_type := "text/plain";
     f_lastModified := 0 |}.


(** An image whose time stamp is one millisecond beyond what a [Date]
    can hold. *)
Definition undated : File :=
  {| f_name := "late.png"; f_size := 10240; f_type := "image/png";
     f_lastModified := 8640000000000001 |}.

Definition loaded_image : Decoded :=
  {| d_width := of_Z 640; d_height := of_Z 480; d_duration := NaN;
     d_videoWidth := NaN; d_videoHeight := NaN |}.

Definition no_hook : HookRun := {| hook_calls := 0; hook_result := None |}.

Definition delaying_hook : HookRun :=
  {| hook_calls := 0; hook_result := Some (Some true) |}.

Definition to (target : string) (x : option ExtraMeta) : option Params :=
  Some {| p_url := Some target; p_method := None; p_fields := [];
          p_headers := []; p_meta := x |}.

Definition after (P : Props) (evs : list Event) : State :=
  match run P init evs with Some s => s | None => init end.

(** One image, dropped, decoded, its request sent. *)
Definition sent : list Event :=
  [EvHandleFile png "2019-01-01T00:00:00.000Z"; EvDecodeReady 0%nat loaded_image;
   EvResume 0%nat no_hook; EvParams 0%nat (to "https://x/up" None)].

(** The same, up to the call of the provider. *)
Definition asked : list Event :=
  [EvHandleFile png "2019-01-01T00:00:00.000Z"; EvDecodeReady 0%nat loaded_image;
   EvResume 0%nat no_hook].

(** The same under [props_hook], the hook asking for a delay. *)
Definition deferred : list Event :=
  [EvHandleFile png "2019-01-01T00:00:00.000Z"; EvDecodeReady 0%nat loaded_image;
   EvResume 0%nat delaying_hook].

Definition the_entry (s : State) (r : ref) : Entry :=
  match heap s !! r with
  | Some e => e
  | None => mkEntry txt (mkMeta EmptyString 0 EmptyString (RawNumber 0) EmptyString preparing NaN 0
                           None None None None None None) None false Returned None 0
  end.

End Sample.

Module Collision.

(** Two files are accepted; the provider answers for the second one with
    extra metadata that has an [id] key. *)
Definition extra : ExtraMeta :=
  mkExtra None None None None None None None (Some 0) None None None None None None.

Definition events : list Event :=
  [EvHandleFile Sample.txt "2019-01-01T00:00:00.000Z";
   EvHandleFile Sample.txt "2019-01-01T00:00:01.000Z";
   EvResume 1 Sample.no_hook;
   EvParams 1 (Sample.to "https://x/up" (Some extra))].

End Collision.

(** ** The rest of the component *)

(** Lines 83-85: [files.forEach(this.handleFile)].  Each call of
    [handleFile] runs to its first [await] before the next one starts;
    every file comes with the clock reading of its call. *)
Fixpoint handleFiles (P : Props) (dropped : list (File * string)) (s : State) : State :=
  match dropped with
  | [] => s
  | (file, now) :: rest => handleFiles P rest (handleFile P file now s)
  end.

(** The props read by [handleSubmit] and by the submit button. *)
Record SubmitProps : Type := mkSubmitProps {
  onSubmit : bool;
  submitAll : bool;
}.

(** [sts.includes(f.meta.status)] for the object behind [r]. *)
Definition status_in (s : State) (sts : list Status) (r : ref) : bool :=
  match heap s !! r with
  | Some f => existsb (Status_eqb (m_status (e_meta f))) sts
  | None => false
  end.

(** Lines 57-63: the list handed to [onSubmit], if there is an observer. *)
Definition handleSubmit (Q : SubmitProps) (s : State) : option (list ref) :=
  if negb (onSubmit Q) then None
  else if submitAll Q then Some (files s)
  else Some (List.filter (status_in s [done]) (files s)).

(** Lines 307-310 of [render]: its [disabled] attribute. *)
Definition submit_disabled (s : State) : bool :=
  existsb (status_in s [uploading; preparing]) (files s)
  || negb (existsb (status_in s [headers_received; done]) (files s)).

(** How a call ends that may raise. *)
Inductive Outcome : Type :=
| Completed (s : State)
| Threw (s : State).     (* TypeError, with the state reached before it *)

(** The loop of lines 22-24.  [file.xhr.abort()] on an entry without [xhr]
    raises a TypeError, which ends the loop. *)
Fixpoint unmount_loop (l : list ref) (s : State) : Outcome :=
  match l with
  | [] => Completed s
  | r :: l' =>
      match heap s !! r with
      | Some file =>
          if Status_eqb (m_status (e_meta file)) uploading then
            match e_xhr file with
            | Some xhr => unmount_loop l' (emit (XhrAbort xhr) s)
            | None => Threw s
            end
          else unmount_loop l' s
      | None => unmount_loop l' s
      end
  end.

(** Lines 21-25. *)
Definition componentWillUnmount (s : State) : Outcome := unmount_loop (files s) s.

(** *** The drop zone

    [this.state.active], the slot [this._timeoutId], and the timers of the
    browser that were set and have neither fired nor been cleared. *)
Record Drag : Type := mkDrag {
  active : bool;
  _timeoutId : option nat;
  timers : list nat;
  next_timer : nat;
}.

(** The constructor, lines 13-19. *)
Definition mounted : Drag := mkDrag false None [] 0.

(** [clearTimeout(id)]; clearing nothing or a timer that is gone is a no-op. *)
Definition clearTimeout (id : option nat) (pending : list nat) : list nat :=
  match id with
  | Some t => List.filter (fun t' => negb (Nat.eqb t' t)) pending
  | None => pending
  end.

(** Lines 33-38. *)
Definition handleDragOver (d : Drag) : Drag :=
  mkDrag true (_timeoutId d) (clearTimeout (_timeoutId d) (timers d)) (next_timer d).

(** Lines 40-46: a new timer, remembered in the one slot. *)
Definition handleDragLeave (d : Drag) : Drag :=
  mkDrag (active d) (Some (next_timer d)) (timers d ++ [next_timer d])
         (S (next_timer d)).

(** The callback of line 45, when timer [t] fires. *)
Definition timeout (t : nat) (d : Drag) : option Drag :=
  if existsb (Nat.eqb t) (timers d) then
    Some (mkDrag false (_timeoutId d)
                 (List.filter (fun t' => negb (Nat.eqb t' t)) (timers d))
                 (next_timer d))
  else None.

(** *** The handlers, seen from the object they address

    Each handler segment changes one object of the heap.  These are the
    changes, as functions on the object; the lemmas [heap_...] below relate
    them to the handlers. *)

Fixpoint preview_blocks_on (P : Props) (objectUrl : url) (type : string)
         (ks : list MediaKind) (e : Entry) : Entry :=
  match ks with
  | [] => entry_activation AwaitingPreview e
  | k :: ks' =>
      if startsWith type (kind_prefix k) && includes (previewTypes P) (kind_name k) then
        entry_activation (AwaitingDecode k objectUrl type)
          (match k with
           | Image => entry_meta (meta_previewUrl objectUrl) e
           | _ => e
           end)
      else preview_blocks_on P objectUrl type ks' e
  end.

(** The type is no media type: [generatePreview] returns at line 157. *)
Definition no_media (type : string) : bool :=
  negb (startsWith type "image/") && negb (startsWith type "audio/")
  && negb (startsWith type "video/").

Definition generatePreview_on (P : Props) (objectUrl : url) (e : Entry) : Entry :=
  if no_media (m_type (e_meta e)) then entry_activation AwaitingPreview e
  else preview_blocks_on P objectUrl (m_type (e_meta e)) [Image; Audio; Video] e.

Definition generatePreview_resume_on (P : Props) (k : MediaKind) (objectUrl : url)
           (type : string) (d : Decoded) (e : Entry) : Entry :=
  match k with
  | Image =>
      preview_blocks_on P objectUrl type [Audio; Video]
        (entry_meta (meta_image (d_width d) (d_height d)) e)
  | Audio =>
      preview_blocks_on P objectUrl type [Video]
        (entry_meta (meta_audio (d_duration d)) e)
  | Video =>
      preview_blocks_on P objectUrl type []
        (entry_meta (meta_video (d_duration d) (d_videoWidth d) (d_videoHeight d)) e)
  end.

Definition triggerUpload_on (P : Props) (e : Entry) : Entry :=
  match e_triggered e with
  | Some false =>
      if getUploadParams P then
        entry_meta (meta_status uploading)
          (entry_awaiting (S (e_awaiting_params e)) (entry_triggered true e))
      else entry_meta (meta_status done) (entry_triggered true e)
  | _ => e
  end.

Definition handleFile_resume_on (P : Props) (h : HookRun) (e : Entry) : Entry :=
  let e := entry_triggered false (entry_activation Returned e) in
  if onUploadReady P then
    let e := Nat.iter (hook_calls h) (triggerUpload_on P) (entry_triggerUpload e) in
    if delayUpload h then e else triggerUpload_on P e
  else triggerUpload_on P e.

Definition uploadFile_resume_on (p : option Params) (xhr : xhrid) (e : Entry) : Entry :=
  if no_url p then entry_meta (meta_status error_upload_params) e
  else
    entry_xhr xhr
      (entry_meta (merge_meta (over (match p with
                                     | Some params => p_meta params
                                     | None => None
                                     end) no_extra)) e).

Definition on_readystatechange_on (readyState status : Z) (e : Entry) : Entry :=
  if negb (readyState =? 2) && negb (readyState =? 4) then e
  else if status =? 0 then entry_meta (meta_status aborted) e
  else if status <? 400 then
    let e := entry_meta (meta_percent (of_Z 100)) e in
    let e := if readyState =? 2 then entry_meta (meta_status headers_received) e else e in
    if readyState =? 4 then entry_meta (meta_status done) e else e
  else entry_meta (meta_status error_upload) e.

(** The object an event addresses, and what the event does to it. *)
Definition addressed (s : State) (ev : Event) : option ref :=
  match ev with
  | EvHandleFile _ _ => Some (length (heap s))
  | EvDecodeReady r _ | EvDecodeError r | EvResume r _ | EvTrigger r | EvParams r _ =>
      Some r
  | EvProgress xhr _ _ | EvReadyState xhr _ _ => xhrs s !! xhr
  | EvCancel _ | EvRemove _ => None
  end.

Definition change (P : Props) (s : State) (ev : Event) (e : Entry) : Entry :=
  match ev with
  | EvHandleFile file _ =>
      if f_size file >? maxSizeBytes P then entry_meta (meta_status error_file_size) e
      else generatePreview_on P (next_url s) e
  | EvDecodeReady _ d =>
      match e_activation e with
      | AwaitingDecode k objectUrl type => generatePreview_resume_on P k objectUrl type d e
      | _ => e
      end
  | EvDecodeError _ => e
  | EvResume _ h => handleFile_resume_on P h e
  | EvTrigger _ => triggerUpload_on P e
  | EvParams _ p =>
      uploadFile_resume_on p (length (xhrs s))
        (entry_awaiting (pred (e_awaiting_params e)) e)
  | EvProgress _ loaded total =>
      entry_meta (meta_percent (js_or (js_div (loaded * 100) total) (of_Z 100))) e
  | EvReadyState _ readyState status => on_readystatechange_on readyState status e
  | EvCancel _ | EvRemove _ => e
  end.

(** The event does not bring a [status] key in its extra metadata. *)
Definition status_kept (ev : Event) : Prop :=
  match ev with
  | EvParams _ (Some p) =>
      match p_meta p with Some x => x_status x = None | None => True end
  | _ => True
  end.

(** The list, the counter and the listeners are those of [s]. *)
Definition same_parts (s s' : State) : Prop :=
  files s' = files s /\ next_id s' = next_id s /\ xhrs s' = xhrs s.

(** The test of line 102 passes. *)
Definition type_allowed (P : Props) (file : File) : bool :=
  match allowedTypePrefixes P with
  | Some ps => existsb (startsWith (f_type file)) ps
  | None => true
  end.

(** The file passes line 102, and line 106 does not throw for it. *)
Definition admissible (P : Props) (file : File) : bool :=
  type_allowed P file && date_in_range (f_lastModified file).



(** A drop, as the events it amounts to. *)
Definition drop_events (dropped : list (File * string)) : list Event :=
  map (fun fn => EvHandleFile (fst fn) (snd fn)) dropped.

(** *** Properties of objects *)

(** [e'] differs from [e] in the fields that preview generation writes at
    most: the continuation, [previewUrl], the dimensions, the duration. *)
Record preview_only (e e' : Entry) : Prop := {
  po_file : e_file e' = e_file e;
  po_xhr : e_xhr e' = e_xhr e;
  po_exposed : e_triggerUpload e' = e_triggerUpload e;
  po_triggered : e_triggered e' = e_triggered e;
  po_awaiting : e_awaiting_params e' = e_awaiting_params e;
  po_name : m_name (e_meta e') = m_name (e_meta e);
  po_size : m_size (e_meta e') = m_size (e_meta e);
  po_type : m_type (e_meta e') = m_type (e_meta e);
  po_status : m_status (e_meta e') = m_status (e_meta e);
  po_percent : m_percent (e_meta e') = m_percent (e_meta e);
  po_id : m_id (e_meta e') = m_id (e_meta e);
}.

(** The status did not go back to [preparing]. *)
Definition status_forward (e e' : Entry) : Prop :=
  m_status (e_meta e') = m_status (e_meta e) \/ m_status (e_meta e') <> preparing.

(** The status tells what is pending: while [handleFile] is suspended or
    the upload is deferred the entry is [preparing]; while [uploadFile]
    waits for the provider it is [uploading]. *)
Record disciplined (e : Entry) : Prop := {
  di_suspended : e_activation e <> Returned -> m_status (e_meta e) = preparing;
  di_deferred : e_triggered e = Some false -> m_status (e_meta e) = preparing;
  di_awaiting : e_awaiting_params e <> 0%nat -> m_status (e_meta e) = uploading;
}.

(** An entry of a component without upload-parameter provider. *)
Record untransported (e : Entry) : Prop := {
  ut_xhr : e_xhr e = None;
  ut_awaiting : e_awaiting_params e = 0%nat;
  ut_percent : m_percent (e_meta e) = of_Z 0;
  ut_status : m_status (e_meta e) = preparing \/ m_status (e_meta e) = error_file_size
              \/ m_status (e_meta e) = done;
}.

(** The closure has run, by the end of [handleFile]: there is no hook, or
    the hook did not ask for a delay, or it called the closure itself. *)
Definition started_at_resume (P : Props) (h : HookRun) : bool :=
  negb (onUploadReady P) || negb (delayUpload h) || (0 <? hook_calls h)%nat.

(** What the first call of the closure [triggerUpload] of [r] adds to the
    trace (lines 129-138). *)
Definition upload_start (P : Props) (r : ref) : list Effect :=
  (if getUploadParams P then [GetUploadParams r] else [])
  ++ notify P r (if getUploadParams P then uploading else done) ++ [ForceUpdate].

(** The same for a call in any state of the closure. *)
Definition upload_start_if (P : Props) (r : ref) (o : option Entry) : list Effect :=
  match o with
  | Some e => match e_triggered e with Some false => upload_start P r | _ => [] end
  | None => []
  end.

(** *** The effects of an event

    What each handler segment appends to the trace, as a function of the
    state it starts in; the lemma [step_trace] below relates it to [step]. *)

(** The blocks of [generatePreview] after the one for [k]. *)
Definition rest_kinds (k : MediaKind) : list MediaKind :=
  match k with Image => [Audio; Video] | Audio => [Video] | Video => [] end.

Fixpoint preview_blocks_effects (P : Props) (objectUrl : url) (type : string)
         (ks : list MediaKind) : list Effect :=
  match ks with
  | [] => [RevokeObjectURL objectUrl; ForceUpdate]
  | k :: ks' =>
      if startsWith type (kind_prefix k) && includes (previewTypes P) (kind_name k)
      then []
      else preview_blocks_effects P objectUrl type ks'
  end.

Definition generatePreview_effects (P : Props) (r : ref) (objectUrl : url)
           (type : string) : list Effect :=
  if no_media type then []
  else CreateObjectURL r objectUrl
       :: preview_blocks_effects P objectUrl type [Image; Audio; Video].

(** Both tests of lines 102-103 pass. *)
Definition accepts (P : Props) (s : State) (file : File) : bool :=
  admissible P file && (Z.of_nat (length (files s)) <? maxFiles P).

(** The request of lines 200-244 for the file of [e]. *)
Definition request (r : ref) (xhr : xhrid) (e : Entry) (p : Params) : list Effect :=
  match p_url p with
  | Some target =>
      [XhrSend xhr r (over (p_method p) "POST"%string) target
               (("X-Requested-With", "XMLHttpRequest")%string :: p_headers p)
               (map (fun kv => (fst kv, PString (snd kv))) (p_fields p)
                  ++ [("file"%string, PFile (e_file e))])]
  | None => []
  end.

Definition effects (P : Props) (s : State) (ev : Event) : list Effect :=
  match ev with
  | EvHandleFile file now =>
      let r := length (heap s) in
      if accepts P s file then
        notify P r preparing ++ [ForceUpdate]
        ++ (if f_size file >? maxSizeBytes P
            then notify P r error_file_size ++ [ForceUpdate]
            else generatePreview_effects P r (next_url s) (f_type file))
      else []
  | EvDecodeReady r _ =>
      match heap s !! r with
      | Some e =>
          match e_activation e with
          | AwaitingDecode k objectUrl type =>
              preview_blocks_effects P objectUrl type (rest_kinds k)
          | _ => []
          end
      | None => []
      end
  | EvDecodeError _ => []
  | EvResume r h =>
      (if onUploadReady P then [OnUploadReady r] else [])
      ++ (if started_at_resume P h then upload_start P r else [])
  | EvTrigger r => upload_start_if P r (heap s !! r)
  | EvParams r p =>
      if no_url p then notify P r error_upload_params ++ [ForceUpdate]
      else
        match p, heap s !! r with
        | Some params, Some e => request r (length (xhrs s)) e params
        | _, _ => []
        end
  | EvProgress _ _ _ => [ForceUpdate]
  | EvReadyState xhr readyState status =>
      if negb (readyState =? 2) && negb (readyState =? 4) then []
      else
        match xhrs s !! xhr with
        | Some r =>
            match heap s !! r with
            | Some e =>
                notify P r (m_status (e_meta (on_readystatechange_on readyState status e)))
            | None => []
            end ++ [ForceUpdate]
        | None => []
        end
  | EvCancel _id =>
      match findIndex (heap s) _id (files s) with
      | Some index =>
          match files s !! index with
          | Some r =>
              match heap s !! r with
              | Some e =>
                  match e_xhr e with
                  | Some xhr => (if onCancel P then [OnCancel r] else []) ++ [XhrAbort xhr]
                  | None => []
                  end
              | None => []
              end
          | None => []
          end
      | None => []
      end
  | EvRemove _id =>
      match findIndex (heap s) _id (files s) with
      | Some index =>
          match files s !! index with
          | Some r => (if onRemove P then [OnRemove r] else []) ++ [ForceUpdate]
          | None => []
          end
      | None => []
      end
  end.

(** An object URL is made for an accepted media file within the size
    limit, and for no other. *)
Definition makes_url (P : Props) (s : State) (ev : Event) : bool :=
  match ev with
  | EvHandleFile file _ =>
      accepts P s file && negb (f_size file >? maxSizeBytes P)
      && negb (no_media (f_type file))
  | _ => false
  end.

(** Object URLs in the trace. *)
Definition is_create (u : url) (eff : Effect) : bool :=
  match eff with CreateObjectURL _ u' => Nat.eqb u' u | _ => false end.

Definition is_revoke (u : url) (eff : Effect) : bool :=
  match eff with RevokeObjectURL u' => Nat.eqb u' u | _ => false end.

(** The status the observer was told last for [r]. *)
Fixpoint last_status (r : ref) (tr : list Effect) : option Status :=
  match tr with
  | [] => None
  | eff :: tr' =>
      match last_status r tr' with
      | Some st => Some st
      | None =>
          match eff with
          | ChangeStatus r' st => if Nat.eqb r' r then Some st else None
          | _ => None
          end
      end
  end.

(** The decoder of the entry is still working on the object URL [u]. *)
Definition holds (u : url) (e : Entry) : bool :=
  match e_activation e with
  | AwaitingDecode _ u' _ => Nat.eqb u' u
  | _ => false
  end.

(** The number of entries whose decoder is working on [u]. *)
Definition waiting (u : url) (h : list Entry) : nat :=
  length (List.filter (holds u) h).

(** An [uploading] entry has its request, or still waits for the provider. *)
Definition handle_or_waiting (e : Entry) : Prop :=
  m_status (e_meta e) = uploading ->
  e_xhr e <> None \/ e_awaiting_params e <> 0%nat.

(** The [abort] calls of [componentWillUnmount] over the entries [l], when
    every [uploading] one has a handle. *)
Definition aborts (h : list Entry) (l : list ref) : list Effect :=
  flat_map (fun r => match h !! r with
                     | Some file =>
                         if Status_eqb (m_status (e_meta file)) uploading then
                           match e_xhr file with
                           | Some xhr => [XhrAbort xhr]
                           | None => []
                           end
                         else []
                     | None => []
                     end) l.

(** The effect is no request. *)
Definition no_request (eff : Effect) : Prop :=
  match eff with XhrSend _ _ _ _ _ _ => False | _ => True end.

(** The request [XhrSend x r method target headers body] is the one that
    lines 198-245 make of the provider's answer [p], for the state [s]:
    it went to the URL of [p], which is not empty, with the method of [p]
    or POST; its headers are [X-Requested-With: XMLHttpRequest] and then
    those of [p]; its body has the fields of [p] and then the file of the
    entry; and its listeners and the [xhr] of the entry are the ones of
    this request. *)
Record request_ok (s : State) (x : xhrid) (r : ref) (method target : string)
       (headers : list (string * string)) (body : list (string * Part))
       (p : Params) : Prop := {
  rq_url : p_url p = Some target;
  rq_target : target <> EmptyString;
  rq_method : method = over (p_method p) "POST"%string;
  rq_headers : headers = ("X-Requested-With", "XMLHttpRequest")%string :: p_headers p;
  rq_listener : xhrs s !! x = Some r;
  rq_entry : exists e,
      heap s !! r = Some e /\ e_xhr e = Some x /\
      body = map (fun kv => (fst kv, PString (snd kv))) (p_fields p)
             ++ [("file"%string, PFile (e_file e))];
}.

(** More runs of the same hosts. *)
Module Session.

Definition stamp : string := "2019-01-01T00:00:00.000Z".

(** One image, uploaded to the end. *)
Definition finished : list Event := Sample.sent ++ [EvReadyState 0%nat 4 200].

(** Two files dropped, none decoded yet. *)
Definition two : list Event :=
  [EvHandleFile Sample.png stamp; EvHandleFile Sample.txt stamp].

(** A host without upload-parameter provider. *)
Definition props_plain : Props :=
  {| maxSizeBytes := 1048576; maxFiles := 5; allowedTypePrefixes := None;
     previewTypes := ["image"; "audio"; "video"]%string;
     getUploadParams := false; onUploadReady := false;
     onChangeStatus := true; onCancel := true; onRemove := true |}.

(** A host without cancel observer. *)
Definition props_bare : Props :=
  {| maxSizeBytes := 1048576; maxFiles := 5; allowedTypePrefixes := None;
     previewTypes := ["image"; "audio"; "video"]%string;
     getUploadParams := true; onUploadReady := false;
     onChangeStatus := true; onCancel := false; onRemove := true |}.

(** An image whose request is sent, and behind it a text file whose
    upload has started and waits for the provider. *)
Definition mixed : list Event :=
  Sample.sent ++ [EvHandleFile Sample.txt stamp; EvResume 1%nat Sample.no_hook].

(** A text file, taken to the end of [handleFile]. *)
Definition plain : list Event :=
  [EvHandleFile Sample.txt stamp; EvResume 0%nat Sample.no_hook].

(** A hook that asks for a delay and calls the closure twice itself. *)
Definition eager_hook : HookRun :=
  {| hook_calls := 2; hook_result := Some (Some true) |}.

Definition s_sent : State := Sample.after Sample.props Sample.sent.
Definition s_asked : State := Sample.after Sample.props Sample.asked.
Definition s_finished : State := Sample.after Sample.props finished.
Definition s_two : State := Sample.after Sample.props two.
Definition s_mixed : State := Sample.after Sample.props mixed.
Definition s_dropped : State :=
  Sample.after Sample.props [EvHandleFile Sample.png stamp].

(** A text file under [Sample.props_hook], before and after the hook. *)
Definition s_hooked : State :=
  Sample.after Sample.props_hook [EvHandleFile Sample.txt stamp].
Definition s_resumed : State :=
  Sample.after Sample.props_hook
    [EvHandleFile Sample.txt stamp; EvResume 0%nat eager_hook].

(** A video, dropped; what its decoder reads. *)
Definition clip : File :=
  {| f_name := "clip.mp4"; f_size := 524288; f_type := "video/mp4";
     f_lastModified := 1546300800000 |}.

Definition s_clip : State := Sample.after Sample.props [EvHandleFile clip stamp].

Definition loaded_clip : Decoded :=
  {| d_width := NaN; d_height := NaN; d_duration := of_Z 12;
     d_videoWidth := of_Z 1280; d_videoHeight := of_Z 720 |}.

(** Two [dragleave]s in a row, then a [dragover]. *)
Definition d_twice : Drag := handleDragOver (Nat.iter 2 handleDragLeave mounted).

End Session.

(** What the block of kind [k] writes into [meta] once its decoder is
    ready (lines 171-172, 179, 186-188). *)
Definition decoded_meta (k : MediaKind) (d : Decoded) : Meta -> Meta :=
  match k with
  | Image => meta_image (d_width d) (d_height d)
  | Audio => meta_audio (d_duration d)
  | Video => meta_video (d_duration d) (d_videoWidth d) (d_videoHeight d)
  end.

(** A decoder is only started by the block of the file's own kind, and
    no other block has written into [meta] before. *)
Record decoding_ok (P : Props) (e : Entry) (k : MediaKind) (u : url)
       (ty : string) : Prop := {
  dc_kind : startsWith ty (kind_prefix k) = true;
  dc_enabled : includes (previewTypes P) (kind_name k) = true;
  dc_previewUrl : m_previewUrl (e_meta e)
                  = match k with Image => Some u | _ => None end;
  dc_width : m_width (e_meta e) = None;
  dc_height : m_height (e_meta e) = None;
  dc_duration : m_duration (e_meta e) = None;
  dc_videoWidth : m_videoWidth (e_meta e) = None;
  dc_videoHeight : m_videoHeight (e_meta e) = None;
}.

(** The event is the provider's answer for [r], with a URL. *)
Definition answers (r : ref) (ev : Event) : bool :=
  match ev with
  | EvParams r' p => Nat.eqb r' r && negb (no_url p)
  | _ => false
  end.

(** ** Reading the state after the basic updates *)

Section Basics.

Context (P : Props).
Implicit Types (s : State) (r : ref) (e : Entry).

Lemma lookup_modify_eq r f s :
  heap (modify r f s) !! r = f <$> heap s !! r.
Proof. apply list_lookup_alter_eq. Qed.

Lemma lookup_modify_ne r r' f s :
  r <> r' -> heap (modify r f s) !! r' = heap s !! r'.
Proof. intros. now apply list_lookup_alter_ne. Qed.

Lemma lookup_modify r f s e :
  heap s !! r = Some e -> heap (modify r f s) !! r = Some (f e).
Proof. intros H. now rewrite lookup_modify_eq, H. Qed.

Lemma handleChangeStatus_trace r s e :
  heap s !! r = Some e ->
  handleChangeStatus P r s
  = mkState (next_id s) (files s) (heap s) (xhrs s) (next_url s)
            (trace s ++ notify P r (m_status (e_meta e))).
Proof.
  intros H. unfold handleChangeStatus, notify. rewrite H.
  destruct (onChangeStatus P); cbn.
  - reflexivity.
  - rewrite app_nil_r. now destruct s.
Qed.

(** "set the status, tell the observer, re-render": lines 117-119,
    201-203, 227-229 and 237-239. *)
Lemma status_notify_render r st s e :
  heap s !! r = Some e ->
  forceUpdate (handleChangeStatus P r (set_status r st s))
  = mkState (next_id s) (files s)
            (alter (entry_meta (meta_status st)) r (heap s)) (xhrs s) (next_url s)
            (trace s ++ notify P r st ++ [ForceUpdate]).
Proof.
  intros H.
  rewrite (handleChangeStatus_trace r _ (entry_meta (meta_status st) e)).
  - unfold forceUpdate, emit. cbn. now rewrite <- app_assoc.
  - now apply lookup_modify.
Qed.

Lemma findIndex_Some h _id l i :
  findIndex h _id l = Some i ->
  exists r e, l !! i = Some r /\ h !! r = Some e /\ m_id (e_meta e) = _id.
Proof.
  revert i. induction l as [|r l IH]; intros i; cbn; [discriminate|].
  destruct (h !! r) as [e|] eqn:Hr.
  - destruct (Z.eqb_spec (m_id (e_meta e)) _id) as [Heq|Hne].
    + intros [= <-]. exists r, e. auto.
    + destruct (findIndex h _id l) as [j|]; cbn; [|discriminate].
      intros [= <-]. apply (IH j). reflexivity.
  - destruct (findIndex h _id l) as [j|]; cbn; [|discriminate].
    intros [= <-]. apply (IH j). reflexivity.
Qed.

Lemma findIndex_None h _id l :
  (forall r e, In r l -> h !! r = Some e -> m_id (e_meta e) <> _id) ->
  findIndex h _id l = None.
Proof.
  intros H. destruct (findIndex h _id l) as [i|] eqn:Hi; [|reflexivity].
  destruct (findIndex_Some _ _ _ _ Hi) as (r & e & Hl & Hh & Hid).
  exfalso. apply (H r e); auto.
  apply list_elem_of_In. eapply list_elem_of_lookup_2. eassumption.
Qed.

End Basics.

(** ** Progress events (C1) *)

(** An integer is a number other than [0] once it is positive. *)
Lemma to_double_positive (n : Z) :
  0 < n -> truthy (to_double n 1) = true.
Proof.
  intros Hn. unfold to_double.
  destruct (Z.leb_spec n 0) as [H0|_]; [lia|].
  assert (Hlog : ilog2 n 1 = Z.log2 n).
  { unfold ilog2. change (Z.log2 1) with 0. rewrite Z.sub_0_r.
    pose proof (Z.log2_nonneg n) as Hnn.
    destruct (Z.leb_spec 0 (Z.log2 n)) as [_|H]; [|lia].
    pose proof (Z.log2_spec n Hn) as [Hlo _].
    destruct (Z.leb_spec (1 * 2 ^ Z.log2 n) n) as [_|H]; [reflexivity | lia]. }
  rewrite Hlog. pose proof (Z.log2_nonneg n) as Hnn.
  rewrite Z.max_l by lia.
  set (k := Z.log2 n - 52).
  destruct (Z.leb_spec 0 k) as [Hk|Hk].
  - cbv zeta.
    set (m := round_half_even n (Z.to_pos (1 * 2 ^ k))).
    destruct (2 ^ 1024 <=? m * 2 ^ k); [reflexivity|].
    cbn [truthy].
    assert (Hpow : 0 < 2 ^ k) by (apply Z.pow_pos_nonneg; lia).
    assert (Hm : 1 <= m).
    { unfold m, round_half_even. rewrite Z2Pos.id by lia. rewrite Z.mul_1_l.
      assert (Hq : 1 <= n / 2 ^ k).
      { apply Z.div_le_lower_bound; [lia|].
        pose proof (Z.log2_spec n Hn) as [Hlo _].
        assert (2 ^ k <= 2 ^ Z.log2 n) by (apply Z.pow_le_mono_r; lia). lia. }
      cbv zeta.
      destruct (2 * (n mod 2 ^ k) ?= 2 ^ k); [destruct (Z.even _)| |]; lia. }
    destruct (Z.eqb_spec (m * 2 ^ k) 0) as [H|_]; [nia | reflexivity].
  - assert (Hpow : 0 < 2 ^ (- k)) by (apply Z.pow_pos_nonneg; lia).
    assert (Hm : round_half_even (n * 2 ^ (- k)) 1 = n * 2 ^ (- k)).
    { unfold round_half_even. rewrite Z.div_1_r, Z.mod_1_r. reflexivity. }
    rewrite Hm. unfold reduce. cbv zeta. cbn [truthy].
    set (m := n * 2 ^ (- k)). set (D := Z.pos (Z.to_pos (2 ^ (- k)))).
    assert (Hmpos : 0 < m) by (unfold m; nia).
    destruct (Z.gcd_divide_l m D) as [c Hc].
    assert (Hg : 0 < Z.gcd m D).
    { pose proof (Z.gcd_nonneg m D).
      destruct (Z.eq_dec (Z.gcd m D) 0) as [E|]; [|lia].
      rewrite E in Hc. lia. }
    destruct (Z.eqb_spec (m / Z.gcd m D) 0) as [H|_]; [|reflexivity].
    rewrite Hc in H at 1. rewrite Z.div_mul in H by lia. subst c. lia.
Qed.

(** What the listener stores when nothing was loaded, and when the total
    is unknown. *)
Lemma progress_value_cases (loaded total : N) :
  (loaded = 0%N -> js_or (js_div (loaded * 100) total) (of_Z 100) = of_Z 100) /\
  (loaded <> 0%N -> total = 0%N ->
   js_or (js_div (loaded * 100) total) (of_Z 100) = Infinity).
Proof.
  split.
  - intros ->. unfold js_div. change (to_double (Z.of_N (0 * 100)) 1) with (Fin 0 1).
    destruct (to_double (Z.of_N total) 1) as [m dm| |]; try reflexivity.
    destruct (m =? 0); reflexivity.
  - intros Hl ->. unfold js_div. change (to_double (Z.of_N 0) 1) with (Fin 0 1).
    pose proof (to_double_positive (Z.of_N (loaded * 100)) ltac:(lia)) as Ht.
    destruct (to_double (Z.of_N (loaded * 100)) 1) as [n dn| |];
      try reflexivity; try discriminate.
    cbn [truthy] in Ht. change (0 =? 0) with true. cbv iota.
    destruct (n =? 0); [discriminate | reflexivity].
Qed.

(** A complete transfer stores [100]; a third of one stores the number
    nearest to [100 / 3]. *)
Example progress_complete :
  js_or (js_div (10240 * 100) 10240) (of_Z 100) = of_Z 100.
Proof. vm_compute. reflexivity. Qed.

Example progress_a_third :
  js_or (js_div (1 * 100) 3) (of_Z 100) = Fin 4691249611844267 140737488355328.
Proof. vm_compute. reflexivity. Qed.

(** C1.  A progress event with [loaded = 0] and a known, positive [total]
    stores [percent = 100]: the quotient is [0], which [||] replaces by the
    default just as it replaces [NaN]. *)
Theorem progress_zero_loaded_stores_100 (P : Props) (s : State) (xhr : xhrid)
        (r : ref) (e : Entry) (total : N) :
  xhrs s !! xhr = Some r ->
  heap s !! r = Some e ->
  (0 < total)%N ->
  exists s' e',
    step P s (EvProgress xhr 0 total) = Some s' /\
    heap s' !! r = Some e' /\
    m_percent (e_meta e') = of_Z 100 /\
    m_percent (e_meta e') <> of_Z 0.
Proof.
  intros Hx Hr Ht. cbn. rewrite Hx. unfold on_progress. rewrite Hx.
  eexists _, _. split; [reflexivity|]. split.
  - cbn. apply (lookup_modify _ _ s e). exact Hr.
  - cbn. rewrite (proj1 (progress_value_cases 0 total) eq_refl).
    split; [reflexivity | discriminate].
Qed.

Lemma progress_zero_loaded_stores_100_witness :
  exists s' e',
    step Sample.props (Sample.after Sample.props Sample.sent) (EvProgress 0 0 10240)
    = Some s' /\
    heap s' !! 0%nat = Some e' /\
    m_percent (e_meta e') = of_Z 100 /\
    m_percent (e_meta e') <> of_Z 0.
Proof.
  apply (progress_zero_loaded_stores_100 Sample.props
           (Sample.after Sample.props Sample.sent) 0%nat 0%nat
           (Sample.the_entry (Sample.after Sample.props Sample.sent) 0) 10240%N).
  - vm_compute. reflexivity.
  - vm_compute. reflexivity.
  - vm_compute. reflexivity.
Defined.

(** ** Transport lifecycle signals (C7) *)

(** C7.  For a request whose listeners captured entry [r], a
    [readystatechange] at [readyState] 2 (headers received) or 4 (complete)
    sets: [aborted] for status 0; [percent = 100] and [headers_received]
    resp. [done] for a status in [200, 400); [error_upload] for a status
    from 400 on.  In each case the observer (if any) is called with the new
    status and the component re-renders. *)
Theorem readystatechange_transitions (P : Props) (s : State) (xhr : xhrid)
        (r : ref) (e : Entry) (readyState status : Z) :
  xhrs s !! xhr = Some r ->
  heap s !! r = Some e ->
  readyState = 2 \/ readyState = 4 ->
  exists s' e',
    step P s (EvReadyState xhr readyState status) = Some s' /\
    heap s' !! r = Some e' /\
    trace s' = trace s ++ notify P r (m_status (e_meta e')) ++ [ForceUpdate] /\
    (status = 0 -> m_status (e_meta e') = aborted) /\
    (200 <= status < 400 ->
       m_percent (e_meta e') = of_Z 100 /\
       m_status (e_meta e')
       = if readyState =? 2 then headers_received else done) /\
    (400 <= status -> m_status (e_meta e') = error_upload).
Proof.
  intros Hx Hr Hrs. cbn [step]. rewrite Hx. unfold on_readystatechange. rewrite Hx.
  assert (Hguard : negb (readyState =? 2) && negb (readyState =? 4) = false)
    by (destruct Hrs; subst; reflexivity).
  rewrite Hguard.
  destruct (Z.eqb_spec status 0) as [H0|H0].
  - rewrite (status_notify_render P r aborted s e Hr).
    eexists _, _. split; [reflexivity|]. cbn [heap trace].
    rewrite list_lookup_alter_eq, Hr.
    split; [reflexivity|]. cbn.
    repeat split; intros; try lia; reflexivity.
  - destruct (Z.ltb_spec status 400) as [H4|H4].
    + set (s1 := set_percent r (of_Z 100) s).
      assert (Hr1 : heap s1 !! r = Some (entry_meta (meta_percent (of_Z 100)) e))
        by (apply lookup_modify; exact Hr).
      destruct Hrs as [-> | ->]; cbn [Z.eqb Pos.eqb].
      * rewrite (status_notify_render P r headers_received s1 _ Hr1).
        eexists _, _. split; [reflexivity|]. cbn [heap trace].
        rewrite list_lookup_alter_eq, Hr1.
        split; [reflexivity|]. cbn.
        repeat split; intros; try lia; reflexivity.
      * rewrite (status_notify_render P r done s1 _ Hr1).
        eexists _, _. split; [reflexivity|]. cbn [heap trace].
        rewrite list_lookup_alter_eq, Hr1.
        split; [reflexivity|]. cbn.
        repeat split; intros; try lia; reflexivity.
    + rewrite (status_notify_render P r error_upload s e Hr).
      eexists _, _. split; [reflexivity|]. cbn [heap trace].
      rewrite list_lookup_alter_eq, Hr.
      split; [reflexivity|]. cbn.
      repeat split; intros; try lia; reflexivity.
Qed.

Lemma readystatechange_transitions_witness :
  exists s' e',
    step Sample.props (Sample.after Sample.props Sample.sent) (EvReadyState 0 4 200)
    = Some s' /\
    heap s' !! 0%nat = Some e' /\
    trace s' = trace (Sample.after Sample.props Sample.sent)
                 ++ notify Sample.props 0%nat (m_status (e_meta e')) ++ [ForceUpdate] /\
    (200 = 0 -> m_status (e_meta e') = aborted) /\
    (200 <= 200 < 400 ->
       m_percent (e_meta e') = of_Z 100 /\
       m_status (e_meta e') = if 4 =? 2 then headers_received else done) /\
    (400 <= 200 -> m_status (e_meta e') = error_upload).
Proof.
  apply (readystatechange_transitions Sample.props
           (Sample.after Sample.props Sample.sent) 0%nat 0%nat
           (Sample.the_entry (Sample.after Sample.props Sample.sent) 0) 4 200).
  - vm_compute. reflexivity.
  - vm_compute. reflexivity.
  - right. reflexivity.
Defined.

(** ** Upload parameters without a destination (C6) *)

Lemma uploadFile_resume_no_url (P : Props) (r : ref) (p : option Params) (s : State) :
  no_url p = true ->
  uploadFile_resume P r p s
  = forceUpdate (handleChangeStatus P r (set_status r error_upload_params s)).
Proof.
  unfold no_url, uploadFile_resume. intros H.
  destruct p as [[[target|] method fields headers extraMeta]|]; cbn in *;
    try reflexivity.
  now rewrite H.
Qed.

(** C6.  When the promise of the provider resolves to a value without a
    destination URL (a falsy value, no [url] key, or an empty [url]), the
    suspended [uploadFile] sets [error_upload_params], calls the observer,
    re-renders, and creates no request: nothing else is appended to the
    trace, no listener is registered and the entry gets no handle. *)
Theorem uploadFile_without_url (P : Props) (s : State) (r : ref) (e : Entry)
        (n : nat) (p : option Params) :
  heap s !! r = Some e ->
  e_awaiting_params e = S n ->
  no_url p = true ->
  exists s' e',
    step P s (EvParams r p) = Some s' /\
    heap s' !! r = Some e' /\
    m_status (e_meta e') = error_upload_params /\
    trace s' = trace s ++ notify P r error_upload_params ++ [ForceUpdate] /\
    xhrs s' = xhrs s /\
    e_xhr e' = e_xhr e.
Proof.
  intros Hr Hn Hp. cbn. rewrite Hr, Hn.
  rewrite (uploadFile_resume_no_url P r p _ Hp).
  rewrite (status_notify_render P r error_upload_params _ (entry_awaiting n e))
    by (apply lookup_modify; exact Hr).
  eexists _, _. split; [reflexivity|]. cbn.
  split; [rewrite !list_lookup_alter_eq, Hr; reflexivity|]. cbn.
  repeat split; reflexivity.
Qed.

Lemma uploadFile_without_url_witness :
  exists s' e',
    step Sample.props (Sample.after Sample.props Sample.asked)
         (EvParams 0 (Some (mkParams None None [] [] None))) = Some s' /\
    heap s' !! 0%nat = Some e' /\
    m_status (e_meta e') = error_upload_params /\
    trace s' = trace (Sample.after Sample.props Sample.asked)
                 ++ notify Sample.props 0 error_upload_params ++ [ForceUpdate] /\
    xhrs s' = xhrs (Sample.after Sample.props Sample.asked) /\
    e_xhr e' = e_xhr (Sample.the_entry (Sample.after Sample.props Sample.asked) 0).
Proof.
  apply (uploadFile_without_url Sample.props
           (Sample.after Sample.props Sample.asked) 0
           (Sample.the_entry (Sample.after Sample.props Sample.asked) 0) 0
           (Some (mkParams None None [] [] None))).
  - vm_compute. reflexivity.
  - vm_compute. reflexivity.
  - vm_compute. reflexivity.
Defined.

(** ** Silent rejection at intake (C8) *)

(** C8.  A file whose type starts with none of the configured prefixes, or
    that arrives when [_files] already holds [maxFiles] entries or more,
    leaves the whole state as it was: no entry, no observer call, no
    re-render, and the counter [id] keeps its value. *)
Theorem handleFile_rejects_silently (P : Props) (s : State) (file : File) (now : string) :
  (exists ps, allowedTypePrefixes P = Some ps /\
              Forall (fun p => startsWith (f_type file) p = false) ps)
  \/ maxFiles P <= Z.of_nat (length (files s)) ->
  exists s',
    step P s (EvHandleFile file now) = Some s' /\
    files s' = files s /\ heap s' = heap s /\
    trace s' = trace s /\ next_id s' = next_id s /\ s' = s.
Proof.
  intros H. exists s. repeat split; try reflexivity.
  cbn. unfold handleFile. f_equal.
  destruct H as [(ps & -> & Hps) | Hmax].
  - assert (Hex : existsb (startsWith (f_type file)) ps = false).
    { induction Hps as [|p ps Hp _ IH]; cbn; [reflexivity|]. now rewrite Hp, IH. }
    now rewrite Hex.
  - destruct (match allowedTypePrefixes P with
              | Some ps => negb (existsb (startsWith (f_type file)) ps)
              | None => false
              end); [reflexivity|].
    destruct (Z.geb_spec (Z.of_nat (length (files s))) (maxFiles P)); [reflexivity|lia].
Qed.

Lemma handleFile_rejects_silently_witness :
  exists s',
    step Sample.props_images init (EvHandleFile Sample.txt "2019-01-01T00:00:00.000Z")
    = Some s' /\
    files s' = files init /\ heap s' = heap init /\
    trace s' = trace init /\ next_id s' = next_id init /\ s' = init.
Proof.
  apply (handleFile_rejects_silently Sample.props_images init Sample.txt).
  left. exists ["image/"%string]. split.
  - vm_compute. reflexivity.
  - constructor; [reflexivity | constructor].
Defined.

(** ** Cancel and remove that find nothing to do (C10) *)

(** [findIndex] returns the place of the first entry with the id. *)
Lemma findIndex_first (h : list Entry) (_id : Z) (l : list ref) (i : nat) r e :
  l !! i = Some r -> h !! r = Some e -> m_id (e_meta e) = _id ->
  (forall j r' e', (j < i)%nat -> l !! j = Some r' -> h !! r' = Some e' ->
                   m_id (e_meta e') <> _id) ->
  findIndex h _id l = Some i.
Proof.
  revert i. induction l as [|r0 l IH]; intros i Hl Hh Hid Hfirst; [discriminate|].
  destruct i as [|i]; cbn in *.
  - injection Hl as ->. rewrite Hh. now rewrite (proj2 (Z.eqb_eq _ _) Hid).
  - replace (match h !! r0 with
             | Some f => m_id (e_meta f) =? _id
             | None => false
             end) with false.
    + rewrite (IH i Hl Hh Hid); [reflexivity|].
      intros j r' e' Hj. apply (Hfirst (S j)). lia.
    + destruct (h !! r0) as [e0|] eqn:H0; [|reflexivity].
      symmetry. apply Z.eqb_neq. apply (Hfirst 0%nat r0 e0); auto. lia.
Qed.

(** C10.  If no entry of [_files] has the given id, [handleCancel] and
    [handleRemove] leave the state as it was (the list, the trace: no
    [onCancel], [onRemove], [abort] or re-render).  [handleCancel] also
    leaves it as it was when the first entry of the list with that id,
    which is the one it looks at, holds no [xhr] -- whatever the entries
    behind it with the same id hold. *)
Theorem cancel_remove_noop (P : Props) (s : State) (_id : Z) :
  ((forall r e, In r (files s) -> heap s !! r = Some e -> m_id (e_meta e) <> _id) ->
     step P s (EvCancel _id) = Some s /\ step P s (EvRemove _id) = Some s)
  /\
  (forall i r e,
     files s !! i = Some r -> heap s !! r = Some e -> m_id (e_meta e) = _id ->
     (forall j r' e', (j < i)%nat -> files s !! j = Some r' -> heap s !! r' = Some e' ->
                      m_id (e_meta e') <> _id) ->
     e_xhr e = None ->
     step P s (EvCancel _id) = Some s).
Proof.
  split.
  - intros H. cbn. unfold handleCancel, handleRemove.
    now rewrite (findIndex_None _ _ _ H).
  - intros i r e Hl Hh Hid Hfirst Hx. cbn. unfold handleCancel.
    rewrite (findIndex_first _ _ _ i r e Hl Hh Hid Hfirst), Hl, Hh, Hx.
    reflexivity.
Qed.

Lemma cancel_remove_noop_witness :
  (step Sample.props (Sample.after Sample.props Collision.events) (EvCancel 7)
   = Some (Sample.after Sample.props Collision.events) /\
   step Sample.props (Sample.after Sample.props Collision.events) (EvRemove 7)
   = Some (Sample.after Sample.props Collision.events)) /\
  step Sample.props (Sample.after Sample.props Collision.events) (EvCancel 0)
  = Some (Sample.after Sample.props Collision.events).
Proof.
  destruct (cancel_remove_noop Sample.props
              (Sample.after Sample.props Collision.events) 7) as [Hnone _].
  destruct (cancel_remove_noop Sample.props
              (Sample.after Sample.props Collision.events) 0) as [_ Hbare].
  split.
  - apply Hnone. intros r e [<-|[<-|[]]] He; vm_compute in He; injection He as <-;
      discriminate.
  - apply (Hbare 0%nat 0%nat
             (Sample.the_entry (Sample.after Sample.props Collision.events) 0)).
    + vm_compute. reflexivity.
    + vm_compute. reflexivity.
    + vm_compute. reflexivity.
    + intros j r' e' Hj. lia.
    + vm_compute. reflexivity.
Defined.

(** In that state the second entry of the list has the id 0 too, and holds
    a request. *)
Example second_entry_with_the_id :
  m_id (e_meta (Sample.the_entry (Sample.after Sample.props Collision.events) 1)) = 0 /\
  e_xhr (Sample.the_entry (Sample.after Sample.props Collision.events) 1) = Some 0%nat.
Proof. vm_compute. split; reflexivity. Qed.

(** ** Preview generation (C2) *)

Lemma startsWith_image_not_audio (type : string) :
  startsWith type "image/" = true -> startsWith type "audio/" = false.
Proof.
  destruct type as [|c type]; cbn [startsWith]; [discriminate|].
  destruct (Ascii.eqb_spec "i"%char c) as [<-|]; [reflexivity | discriminate].
Qed.

Lemma startsWith_image_not_video (type : string) :
  startsWith type "image/" = true -> startsWith type "video/" = false.
Proof.
  destruct type as [|c type]; cbn [startsWith]; [discriminate|].
  destruct (Ascii.eqb_spec "i"%char c) as [<-|]; [reflexivity | discriminate].
Qed.

Lemma lookup_registered (P : Props) (s : State) (file : File) (now : string) :
  heap (registered P s file now) !! length (heap s)
  = Some (fresh_entry file now (next_id s)).
Proof. cbn. apply list_lookup_middle. reflexivity. Qed.

Lemma handleFile_accepted (P : Props) (s : State) (file : File) (now : string) :
  accepted P s file ->
  handleFile P file now s
  = let r := length (heap s) in
    let s1 := registered P s file now in
    if f_size file >? maxSizeBytes P then
      forceUpdate (handleChangeStatus P r (set_status r error_file_size s1))
    else generatePreview P r s1.
Proof.
  intros (Hty & Hmax & Hdate). unfold handleFile.
  replace (match allowedTypePrefixes P with
           | Some ps => negb (existsb (startsWith (f_type file)) ps)
           | None => false
           end) with false
    by (destruct (allowedTypePrefixes P); [now rewrite Hty | reflexivity]).
  destruct (Z.geb_spec (Z.of_nat (length (files s))) (maxFiles P)); [lia|].
  rewrite Hdate. cbn [negb]. cbv zeta.
  match goal with
  | |- context [handleChangeStatus P ?r ?st] =>
      rewrite (handleChangeStatus_trace P r st (fresh_entry file now (next_id s)))
        by (cbn; apply list_lookup_middle; reflexivity)
  end.
  cbn [forceUpdate emit next_id files heap xhrs next_url trace m_status e_meta
       fresh_entry].
  rewrite <- app_assoc. reflexivity.
Qed.

(** The state in which [handleFile] leaves an accepted image within the size
    limit: suspended on [onload], the object URL already in [previewUrl]. *)
Lemma handleFile_image (P : Props) (s : State) (file : File) (now : string) :
  accepted P s file ->
  f_size file <= maxSizeBytes P ->
  startsWith (f_type file) "image/" = true ->
  includes (previewTypes P) "image" = true ->
  handleFile P file now s
  = let r := length (heap s) in
    let u := next_url s in
    let s1 := registered P s file now in
    mkState (next_id s1) (files s1)
      (alter (entry_activation (AwaitingDecode Image u (f_type file))) r
         (alter (entry_meta (meta_previewUrl u)) r (heap s1)))
      (xhrs s1) (S u) (trace s1 ++ [CreateObjectURL r u]).
Proof.
  intros Hadm Hsize Himg Hinc.
  rewrite (handleFile_accepted P s file now Hadm). cbv zeta.
  destruct (Z.gtb_spec (f_size file) (maxSizeBytes P)); [lia|].
  unfold generatePreview. rewrite lookup_registered.
  cbn [fresh_entry e_meta m_type]. rewrite Himg. cbn [negb andb].
  cbn [preview_blocks kind_prefix kind_name]. rewrite Himg, Hinc.
  reflexivity.
Qed.

(** C2.  For an image whose category is enabled, the object URL created by
    [generatePreview] is stored in [meta.previewUrl] and, when [onload]
    fires, handed to [URL.revokeObjectURL] like the URL of any other kind:
    at the end of preview generation [previewUrl] names a released URL.
    If the decoder reports an error instead, nothing happens at all: the
    URL is not released and [generatePreview] stays suspended. *)
Theorem image_preview_url_is_revoked (P : Props) (s : State) (file : File)
        (now : string) (d : Decoded) :
  accepted P s file ->
  f_size file <= maxSizeBytes P ->
  startsWith (f_type file) "image/" = true ->
  includes (previewTypes P) "image" = true ->
  exists s1 s2 e2,
    step P s (EvHandleFile file now) = Some s1 /\
    step P s1 (EvDecodeReady (length (heap s)) d) = Some s2 /\
    heap s2 !! length (heap s) = Some e2 /\
    e_activation e2 = AwaitingPreview /\
    m_previewUrl (e_meta e2) = Some (next_url s) /\
    trace s2 = trace s1 ++ [RevokeObjectURL (next_url s); ForceUpdate] /\
    step P s1 (EvDecodeError (length (heap s))) = Some s1.
Proof.
  intros Hadm Hsize Himg Hinc.
  pose proof (startsWith_image_not_audio _ Himg) as Haud.
  pose proof (startsWith_image_not_video _ Himg) as Hvid.
  eexists _, _, _. split.
  { cbn [step]. rewrite (handleFile_image P s file now Hadm Hsize Himg Hinc).
    reflexivity. }
  cbv zeta. cbn [step heap].
  rewrite !list_lookup_alter_eq, lookup_registered.
  cbn [fmap option_fmap option_map entry_activation entry_meta e_activation].
  unfold generatePreview_resume.
  cbn [preview_blocks kind_prefix kind_name]. rewrite Haud, Hvid. cbn [andb].
  split; [reflexivity|].
  cbn [set_activation forceUpdate emit modify heap trace].
  rewrite !list_lookup_alter_eq, lookup_registered.
  split; [reflexivity|]. cbn.
  rewrite <- app_assoc. repeat split; reflexivity.
Qed.


Lemma image_preview_url_is_revoked_witness :
  exists s1 s2 e2,
    step Sample.props init (EvHandleFile Sample.png "2019-01-01T00:00:00.000Z")
    = Some s1 /\
    step Sample.props s1 (EvDecodeReady (length (heap init)) Sample.loaded_image)
    = Some s2 /\
    heap s2 !! length (heap init) = Some e2 /\
    e_activation e2 = AwaitingPreview /\
    m_previewUrl (e_meta e2) = Some (next_url init) /\
    trace s2 = trace s1 ++ [RevokeObjectURL (next_url init); ForceUpdate] /\
    step Sample.props s1 (EvDecodeError (length (heap init))) = Some s1.
Proof.
  apply (image_preview_url_is_revoked Sample.props init Sample.png
           "2019-01-01T00:00:00.000Z" Sample.loaded_image).
  - repeat split.
  - vm_compute. discriminate.
  - vm_compute. reflexivity.
  - vm_compute. reflexivity.
Defined.

(** ** The invariant, event by event

    The remaining properties speak about whole runs.  They rest on one
    invariant [Inv] of the states and one summary [Trans] of what a single
    event may change; both are established event by event below. *)

Section Local.

Context (P : Props).
Implicit Types (s : State) (r : ref) (e : Entry).

Lemma count_app p tr1 tr2 : count p (tr1 ++ tr2) = (count p tr1 + count p tr2)%nat.
Proof. induction tr1 as [|eff tr1 IH]; cbn; [reflexivity|]. rewrite IH. lia. Qed.

Lemma count_zero p tr :
  (forall eff, In eff tr -> p eff = false) -> count p tr = 0%nat.
Proof.
  induction tr as [|eff tr IH]; cbn; intros H; [reflexivity|].
  rewrite (H eff) by auto. rewrite IH by auto. reflexivity.
Qed.

Lemma count_pos p tr : (0 < count p tr)%nat -> exists eff, In eff tr /\ p eff = true.
Proof.
  induction tr as [|eff tr IH]; cbn; [lia|].
  destruct (p eff) eqn:Hp; [exists eff; auto|].
  intros H. destruct (IH H) as (eff' & ? & ?). exists eff'. auto.
Qed.

Lemma count_In p tr eff : In eff tr -> p eff = true -> (0 < count p tr)%nat.
Proof.
  induction tr as [|eff' tr IH]; cbn; [tauto|].
  intros [->|Hin] Hp; [rewrite Hp; lia|]. specialize (IH Hin Hp). lia.
Qed.

Lemma count_notify p r st :
  (forall st', p (ChangeStatus r st') = false) -> count p (notify P r st) = 0%nat.
Proof. intros H. unfold notify. destruct (onChangeStatus P); cbn; [now rewrite H|reflexivity]. Qed.

Lemma is_start_about r eff : is_start r eff = true -> about eff = Some r.
Proof. destruct eff; cbn; try discriminate. now intros ->%Nat.eqb_eq. Qed.

Lemma is_send_about r eff : is_send r eff = true -> about eff = Some r.
Proof. destruct eff; cbn; try discriminate. now intros ->%Nat.eqb_eq. Qed.


(** *** Building [local] along the code of a handler *)

Lemma local_refl r s e : heap s !! r = Some e -> local r s s e e [] [].
Proof.
  intros H. split; auto; try now rewrite app_nil_r.
Qed.

Lemma local_modify r f s0 s e0 e l new :
  local r s0 s e0 e l new -> local r s0 (modify r f s) e0 (f e) l new.
Proof.
  intros [H1 H2 H3 H4 H5 H6 H7 H8 H9]. split; cbn; auto.
  - rewrite list_lookup_alter_eq, H2. reflexivity.
  - now rewrite length_alter.
  - intros r2 Hne. rewrite list_lookup_alter_ne by auto. auto.
Qed.

Lemma local_emit r eff s0 s e0 e l new :
  (forall r2, about eff = Some r2 -> r2 = r) ->
  local r s0 s e0 e l new -> local r s0 (emit eff s) e0 e l (new ++ [eff]).
Proof.
  intros Hab [H1 H2 H3 H4 H5 H6 H7 H8 H9]. split; cbn; auto.
  - rewrite H8. now rewrite app_assoc.
  - apply Forall_app. split; auto.
Qed.

Lemma local_forceUpdate r s0 s e0 e l new :
  local r s0 s e0 e l new -> local r s0 (forceUpdate s) e0 e l (new ++ [ForceUpdate]).
Proof. apply local_emit. cbn. discriminate. Qed.

Lemma local_handleChangeStatus r s0 s e0 e l new :
  local r s0 s e0 e l new ->
  local r s0 (handleChangeStatus P r s) e0 e l
        (new ++ notify P r (m_status (e_meta e))).
Proof.
  intros H. unfold handleChangeStatus, notify. rewrite (loc_new _ _ _ _ _ _ _ H).
  destruct (onChangeStatus P).
  - apply local_emit; [|exact H]. cbn. now intros r2 [= <-].
  - now rewrite app_nil_r.
Qed.

Lemma local_createObjectURL r s0 s e0 e l new :
  local r s0 s e0 e l new ->
  local r s0 (createObjectURL r s) e0 e l (new ++ [CreateObjectURL r (next_url s)]).
Proof.
  intros [H1 H2 H3 H4 H5 H6 H7 H8 H9]. split; cbn; auto.
  - rewrite H8. now rewrite app_assoc.
  - apply Forall_app. split; auto. constructor; [|constructor].
    cbn. now intros r2 [= <-].
Qed.

Lemma local_listen r s0 s e0 e l new :
  local r s0 s e0 e l new -> local r s0 (listen r s) e0 e (l ++ [r]) new.
Proof.
  intros [H1 H2 H3 H4 H5 H6 H7 H8 H9]. split; cbn; auto.
  - rewrite H6. now rewrite app_assoc.
  - apply Forall_app. split; auto.
Qed.

End Local.

Section Preservation.

Context (P : Props).
Implicit Types (s : State) (r : ref) (e : Entry).

Lemma count_others p r r2 new :
  (forall eff, p eff = true -> about eff = Some r2) ->
  Forall (fun eff => forall r3, about eff = Some r3 -> r3 = r) new ->
  r2 <> r -> count p new = 0%nat.
Proof.
  intros Hp Hnew Hne. apply count_zero. intros eff Hin.
  destruct (p eff) eqn:E; [|reflexivity]. exfalso. apply Hne.
  rewrite Forall_forall in Hnew. apply (Hnew eff).
  - now apply list_elem_of_In.
  - now apply Hp.
Qed.

Lemma lookup_listeners (xs l : list nat) r r2 x :
  Forall (eq r) l -> r2 <> r -> (xs ++ l) !! x = Some r2 <-> xs !! x = Some r2.
Proof.
  intros Hl Hne. rewrite lookup_app_Some. split; [|auto].
  intros [H|[_ H]]; [exact H|]. exfalso. apply Hne.
  symmetry. exact (Forall_lookup_1 _ _ _ _ Hl H).
Qed.

(** The invariant after operations on one entry. *)
Lemma local_inv r s s' e e' l new :
  Inv P s -> local r s s' e e' l new ->
  (e_activation e' <> Returned -> e_triggered e' = None) ->
  (e_triggerUpload e' = true -> e_triggered e' <> None) ->
  started P e' = (started P e + count (is_start r) new)%nat ->
  (count (is_send r) new + e_awaiting_params e'
   <= e_awaiting_params e + count (is_start r) new)%nat ->
  (l = [] /\ e_xhr e' = e_xhr e /\ count (is_send r) new = 0%nat) \/
  (l = [r] /\ e_xhr e = None /\ e_xhr e' = Some (length (xhrs s)) /\
   count (is_send r) new = 1%nat) ->
  Inv P s'.
Proof.
  intros HI HL Hact Hexp Hst Hsd Hx.
  destruct HL as [Lold Lnew Llen Lframe Lid Lxhrs Lrefs Ltrace Labout].
  pose proof (inv_entries _ _ HI r e Lold) as Hok.
  split.
  - intros r2 e2 H2. destruct (Nat.eq_dec r2 r) as [->|Hne].
    + assert (e2 = e') by congruence. subst e2.
      split; auto.
      * rewrite Ltrace, count_app, (ok_starts _ _ _ _ Hok). lia.
      * rewrite Ltrace, count_app.
        pose proof (ok_sends _ _ _ _ Hok). lia.
      * rewrite Ltrace, count_app, (ok_sent _ _ _ _ Hok). unfold sent.
        destruct Hx as [(_ & -> & ->) | (_ & -> & -> & ->)]; cbn; lia.
      * intros x. rewrite Lxhrs.
        destruct Hx as [(-> & -> & _) | (-> & Hnone & -> & _)].
        -- rewrite app_nil_r. apply (ok_listen _ _ _ _ Hok).
        -- rewrite lookup_app_Some. split.
           ++ intros [H|[Hge H]].
              ** apply (ok_listen _ _ _ _ Hok) in H. congruence.
              ** apply list_lookup_singleton_Some in H. f_equal. lia.
           ++ intros [= <-]. right. split; [lia|].
              rewrite Nat.sub_diag. reflexivity.
    + rewrite (Lframe r2 Hne) in H2.
      pose proof (inv_entries _ _ HI r2 e2 H2) as Hok2.
      split.
      * apply (ok_act _ _ _ _ Hok2).
      * apply (ok_exposed _ _ _ _ Hok2).
      * rewrite Ltrace, count_app, (ok_starts _ _ _ _ Hok2).
        rewrite (count_others (is_start r2) r r2 new); auto using is_start_about.
      * rewrite Ltrace, count_app.
        rewrite (count_others (is_send r2) r r2 new); auto using is_send_about.
        pose proof (ok_sends _ _ _ _ Hok2). lia.
      * rewrite Ltrace, count_app, (ok_sent _ _ _ _ Hok2).
        rewrite (count_others (is_send r2) r r2 new); auto using is_send_about.
      * intros x. rewrite Lxhrs, (lookup_listeners _ _ r r2 x Lrefs Hne).
        apply (ok_listen _ _ _ _ Hok2).
  - intros x r2. rewrite Lxhrs, Llen, lookup_app_Some.
    intros [H|[_ H]].
    + apply (inv_xhrs _ _ HI x r2 H).
    + pose proof (Forall_lookup_1 _ _ _ _ Lrefs H) as <-.
      apply (lookup_lt_Some _ _ _ Lold).
  - intros eff r2. rewrite Ltrace, Llen, in_app_iff.
    intros [H|H] Hab.
    + apply (inv_trace _ _ HI eff r2 H Hab).
    + rewrite Forall_forall in Labout.
      rewrite (Labout eff (proj2 (list_elem_of_In _ _) H) r2 Hab).
      apply (lookup_lt_Some _ _ _ Lold).
  - rewrite Lid, Llen. apply (inv_id _ _ HI).
Qed.

(** What one event changed, after operations on one entry that had
    something pending. *)
Lemma local_trans ev r s s' e e' l new :
  local r s s' e e' l new ->
  (e_triggered e = Some true -> e_triggered e' = Some true) ->
  (e_triggerUpload e = true -> e_triggerUpload e' = true) ->
  (forall x, e_xhr e = Some x -> e_xhr e' = Some x) ->
  ~ quiet e ->
  (id_kept ev -> m_id (e_meta e') = m_id (e_meta e)) ->
  Trans ev s s'.
Proof.
  intros [Lold Lnew Llen Lframe Lid Lxhrs Lrefs Ltrace Labout] Ht He Hx Hq Hid.
  split.
  - intros r2 e2 H2. destruct (Nat.eq_dec r2 r) as [->|Hne].
    + assert (e2 = e) by congruence. subst e2. exists e'. tauto.
    + exists e2. rewrite (Lframe r2 Hne). repeat split; auto.
  - intros r2 e2 Hnone Hsome. exfalso.
    apply lookup_ge_None in Hnone. apply lookup_lt_Some in Hsome. lia.
  - lia.
  - exists new. split; [exact Ltrace|].
    intros eff r2 e2 Hin Hab H2. rewrite Forall_forall in Labout.
    rewrite (Labout eff (proj2 (list_elem_of_In _ _) Hin) r2 Hab) in H2.
    congruence.
Qed.

End Preservation.

(** ** The handlers, one by one *)

Section Handlers.

Context (P : Props).
Implicit Types (s : State) (r : ref) (e : Entry).

Lemma same_ctl_refl e : same_ctl e e.
Proof. split; reflexivity. Qed.

Lemma same_ctl_trans e1 e2 e3 : same_ctl e1 e2 -> same_ctl e2 e3 -> same_ctl e1 e3.
Proof. intros [] []. split; congruence. Qed.

Lemma same_ctl_meta f e :
  (forall m, m_id (f m) = m_id m) -> same_ctl e (entry_meta f e).
Proof. intros H. split; cbn; auto. Qed.

Lemma same_ctl_activation a e : same_ctl e (entry_activation a e).
Proof. split; reflexivity. Qed.

Lemma harmless_count r new :
  harmless new -> count (is_start r) new = 0%nat /\ count (is_send r) new = 0%nat.
Proof.
  intros H. unfold harmless in H.
  split; apply count_zero; intros eff Hin;
    rewrite Forall_forall in H; specialize (H eff (proj2 (list_elem_of_In _ _) Hin));
    destruct eff; cbn in *; tauto.
Qed.

Lemma harmless_app new1 new2 : harmless new1 -> harmless new2 -> harmless (new1 ++ new2).
Proof. intros. apply Forall_app. auto. Qed.

Lemma harmless_notify r st : harmless (notify P r st).
Proof. unfold notify. destruct (onChangeStatus P); repeat constructor. Qed.

Lemma Trans_refl ev s : Trans ev s s.
Proof.
  split.
  - intros r e H. exists e. repeat split; auto.
  - intros r e' H1 H2. congruence.
  - lia.
  - exists []. split; [now rewrite app_nil_r|]. intros ? ? ? [].
Qed.

(** Handlers that leave the heap alone and only call back the host. *)
Lemma silent_step ev s s' new :
  Inv P s ->
  heap s' = heap s -> xhrs s' = xhrs s -> next_id s' = next_id s ->
  trace s' = trace s ++ new ->
  Forall (fun eff => about eff = None) new ->
  Inv P s' /\ Trans ev s s'.
Proof.
  intros HI Hh Hx Hid Ht Hnew.
  assert (Hcount : forall p, (forall eff, p eff = true -> about eff <> None) ->
                             count p new = 0%nat).
  { intros p Hp. apply count_zero. intros eff Hin.
    destruct (p eff) eqn:E; [|reflexivity]. exfalso. apply (Hp eff E).
    rewrite Forall_forall in Hnew. apply Hnew. now apply list_elem_of_In. }
  split.
  - split.
    + intros r e. rewrite Hh. intros H.
      pose proof (inv_entries _ _ HI r e H) as [O1 O2 O3 O4 O5 O6].
      split; auto; rewrite ?Ht, ?count_app, ?Hx; auto.
      * rewrite (Hcount (is_start r)); [lia|].
        intros eff E. rewrite (is_start_about _ _ E). discriminate.
      * rewrite (Hcount (is_send r)); [lia|].
        intros eff E. rewrite (is_send_about _ _ E). discriminate.
      * rewrite (Hcount (is_send r)); [lia|].
        intros eff E. rewrite (is_send_about _ _ E). discriminate.
    + rewrite Hx, Hh. apply (inv_xhrs _ _ HI).
    + intros eff r. rewrite Ht, Hh, in_app_iff. intros [H|H] Hab.
      * apply (inv_trace _ _ HI eff r H Hab).
      * rewrite Forall_forall in Hnew.
        rewrite (Hnew eff (proj2 (list_elem_of_In _ _) H)) in Hab. discriminate.
    + rewrite Hid, Hh. apply (inv_id _ _ HI).
  - split.
    + intros r e. rewrite Hh. intros H. exists e. repeat split; auto.
    + intros r e'. rewrite Hh. congruence.
    + rewrite Hh. lia.
    + exists new. split; [exact Ht|]. intros eff r e Hin Hab.
      rewrite Forall_forall in Hnew.
      rewrite (Hnew eff (proj2 (list_elem_of_In _ _) Hin)) in Hab. discriminate.
Qed.

Lemma handleCancel_ok _id s :
  Inv P s -> Inv P (handleCancel P _id s) /\ Trans (EvCancel _id) s (handleCancel P _id s).
Proof.
  intros HI. unfold handleCancel.
  destruct (findIndex (heap s) _id (files s)) as [i|]; [|split; [auto|apply Trans_refl]].
  destruct (files s !! i) as [r|]; [|split; [auto|apply Trans_refl]].
  destruct (heap s !! r) as [e|]; [|split; [auto|apply Trans_refl]].
  destruct (e_xhr e) as [x|]; [|split; [auto|apply Trans_refl]].
  destruct (onCancel P).
  - apply (silent_step _ s _ [OnCancel r; XhrAbort x]); auto;
      try (cbn; now rewrite <- app_assoc); repeat constructor.
  - apply (silent_step _ s _ [XhrAbort x]); auto; repeat constructor.
Qed.

Lemma handleRemove_ok _id s :
  Inv P s -> Inv P (handleRemove P _id s) /\ Trans (EvRemove _id) s (handleRemove P _id s).
Proof.
  intros HI. unfold handleRemove.
  destruct (findIndex (heap s) _id (files s)) as [i|]; [|split; [auto|apply Trans_refl]].
  destruct (files s !! i) as [r|]; [|split; [auto|apply Trans_refl]].
  destruct (onRemove P).
  - apply (silent_step _ s _ [OnRemove r; ForceUpdate]); auto;
      try (cbn; now rewrite <- app_assoc); repeat constructor.
  - apply (silent_step _ s _ [ForceUpdate]); auto; repeat constructor.
Qed.

End Handlers.

Ltac build_local :=
  repeat first
    [ eapply local_forceUpdate
    | eapply local_handleChangeStatus
    | eapply local_createObjectURL
    | eapply local_listen
    | eapply local_modify
    | eapply local_refl; eassumption ].

Section Listeners.

Context (P : Props).
Implicit Types (s : State) (r : ref) (e : Entry).

(** Operations that touch [meta] (but not its [id]) and possibly the
    activation. *)
Lemma tame_inv r s s' e e' new :
  Inv P s -> local r s s' e e' [] new ->
  same_ctl e e' ->
  (e_activation e' = e_activation e \/ e_triggered e = None) ->
  harmless new ->
  Inv P s'.
Proof.
  intros HI HL [C1 C2 C3 C4 C5] Hact Hnew.
  pose proof (inv_entries _ _ HI r e (loc_old _ _ _ _ _ _ _ HL)) as Hok.
  destruct (harmless_count r new Hnew) as [Hst Hsd].
  apply (local_inv P r s s' e e' [] new); auto.
  - intros Ha. rewrite C3. destruct Hact as [H|H]; [|exact H].
    apply (ok_act _ _ _ _ Hok). congruence.
  - rewrite C2, C3. apply (ok_exposed _ _ _ _ Hok).
  - unfold started. rewrite C3, Hst. unfold started. lia.
  - rewrite C4, Hst, Hsd. lia.
Qed.

Lemma tame_ok ev r s s' e e' new :
  Inv P s -> local r s s' e e' [] new ->
  same_ctl e e' ->
  (e_activation e' = e_activation e \/ e_triggered e = None) ->
  harmless new -> ~ quiet e ->
  Inv P s' /\ Trans ev s s'.
Proof.
  intros HI HL Hc Hact Hnew Hq. split.
  - apply (tame_inv r s s' e e' new); auto.
  - destruct Hc as [C1 C2 C3 C4 C5].
    apply (local_trans ev r s s' e e' [] new); auto.
    + now rewrite C3.
    + now rewrite C2.
    + now rewrite C1.
Qed.

Lemma entry_of_listener x r s :
  Inv P s -> xhrs s !! x = Some r ->
  exists e, heap s !! r = Some e /\ e_xhr e = Some x /\ ~ quiet e.
Proof.
  intros HI Hx.
  destruct (lookup_lt_is_Some_2 (heap s) r (inv_xhrs _ _ HI x r Hx)) as [e He].
  exists e. split; [exact He|].
  pose proof (proj1 (ok_listen _ _ _ _ (inv_entries _ _ HI r e He) x) Hx) as Hxe.
  split; [exact Hxe|]. intros (_ & _ & _ & _ & Hnone). congruence.
Qed.

Lemma on_progress_ok x loaded total s r :
  Inv P s -> xhrs s !! x = Some r ->
  Inv P (on_progress x loaded total s)
  /\ Trans (EvProgress x loaded total) s (on_progress x loaded total s).
Proof.
  intros HI Hx. destruct (entry_of_listener x r s HI Hx) as (e & He & _ & Hq).
  unfold on_progress. rewrite Hx. unfold set_percent.
  eapply (tame_ok _ r s _ e); [exact HI | build_local | | | | exact Hq].
  - apply same_ctl_meta. reflexivity.
  - left. reflexivity.
  - repeat constructor.
Qed.

Lemma on_readystatechange_ok x readyState status s r :
  Inv P s -> xhrs s !! x = Some r ->
  Inv P (on_readystatechange P x readyState status s)
  /\ Trans (EvReadyState x readyState status) s
           (on_readystatechange P x readyState status s).
Proof.
  intros HI Hx. destruct (entry_of_listener x r s HI Hx) as (e & He & _ & Hq).
  unfold on_readystatechange. rewrite Hx.
  destruct (negb (readyState =? 2) && negb (readyState =? 4));
    [split; [auto|apply Trans_refl]|].
  unfold set_percent, set_status.
  destruct (status =? 0); [|destruct (status <? 400);
    [destruct (readyState =? 2), (readyState =? 4)|]];
    (eapply (tame_ok _ r s _ e);
     [ exact HI
     | build_local
     | repeat (eapply same_ctl_trans; [|apply same_ctl_meta; reflexivity]);
       apply same_ctl_refl
     | left; reflexivity
     | repeat apply harmless_app; try apply harmless_notify; repeat constructor
     | exact Hq ]).
Qed.

End Listeners.

Section Intake.

Context (P : Props).
Implicit Types (s : State) (r : ref) (e : Entry).

Lemma handleFile_cases file now s :
  handleFile P file now s = s \/ accepted P s file.
Proof.
  unfold handleFile, accepted.
  destruct (allowedTypePrefixes P) as [ps|].
  - destruct (existsb (startsWith (f_type file)) ps); cbn [negb]; [|now left].
    destruct (Z.geb_spec (Z.of_nat (length (files s))) (maxFiles P)); [now left|].
    destruct (date_in_range (f_lastModified file)); cbn [negb]; [|now left].
    right. repeat split; lia.
  - destruct (Z.geb_spec (Z.of_nat (length (files s))) (maxFiles P)); [now left|].
    destruct (date_in_range (f_lastModified file)); cbn [negb]; [|now left].
    right. repeat split; lia.
Qed.

Lemma local_preview_blocks u ty ks r s0 s e0 e new :
  local r s0 s e0 e [] new ->
  exists e' new',
    local r s0 (preview_blocks P r u ty ks s) e0 e' [] new' /\
    same_ctl e e' /\ e_activation e' <> Returned /\
    (harmless new -> harmless new').
Proof.
  revert s e new. induction ks as [|k ks IH]; intros s e new HL; cbn [preview_blocks].
  - eexists _, _. split; [unfold set_activation; build_local|].
    + eapply local_emit; [|exact HL]. cbn. discriminate.
    + split; [apply same_ctl_activation|]. split; [discriminate|].
      intros H. repeat apply harmless_app; auto; repeat constructor.
  - destruct (startsWith ty (kind_prefix k) && includes (previewTypes P) (kind_name k)).
    + destruct k.
      * eexists _, _. split; [unfold set_activation; build_local; exact HL|].
        split; [|split; [discriminate|auto]].
        eapply same_ctl_trans; [|apply same_ctl_activation].
        apply same_ctl_meta. reflexivity.
      * eexists _, _. split; [unfold set_activation; build_local; exact HL|].
        split; [apply same_ctl_activation|split; [discriminate|auto]].
      * eexists _, _. split; [unfold set_activation; build_local; exact HL|].
        split; [apply same_ctl_activation|split; [discriminate|auto]].
    + apply IH. exact HL.
Qed.

Lemma generatePreview_resume_ok r k u ty d s e :
  Inv P s -> heap s !! r = Some e -> e_activation e = AwaitingDecode k u ty ->
  Inv P (generatePreview_resume P r k u ty d s)
  /\ Trans (EvDecodeReady r d) s (generatePreview_resume P r k u ty d s).
Proof.
  intros HI He Ha.
  assert (Hact : e_activation e <> Returned) by (rewrite Ha; discriminate).
  pose proof (ok_act _ _ _ _ (inv_entries _ _ HI r e He) Hact) as Hnone.
  assert (Hq : ~ quiet e) by (intros (H & _); congruence).
  unfold generatePreview_resume.
  destruct k;
    match goal with
    | |- context [preview_blocks P r u ty ?ks (modify r ?f s)] =>
        destruct (local_preview_blocks u ty ks r s (modify r f s) e (f e) []
                    (local_modify r f s s e e [] [] (local_refl r s e He)))
          as (e' & new' & HL & Hc & _ & Hh)
    end;
    (eapply (tame_ok P _ r s _ e e' new');
     [ exact HI | exact HL
     | eapply same_ctl_trans; [|exact Hc]; apply same_ctl_meta; reflexivity
     | right; exact Hnone
     | apply Hh; constructor
     | exact Hq ]).
Qed.

(** Line 111 to line 114: the push, the first notification, the counter. *)
Lemma inv_registered file now s : Inv P s -> Inv P (registered P s file now).
Proof.
  intros HI.
  assert (Hfresh : forall p, (forall eff, p eff = true -> about eff = Some (length (heap s))) ->
                             count p (trace s) = 0%nat).
  { intros p Hp. apply count_zero. intros eff Hin.
    destruct (p eff) eqn:E; [|reflexivity]. exfalso.
    pose proof (inv_trace _ _ HI eff _ Hin (Hp eff E)). lia. }
  assert (Hnew : forall p r, (forall eff, p eff = true ->
                               match eff with
                               | GetUploadParams _ | XhrSend _ _ _ _ _ _ => True
                               | _ => False
                               end) ->
            count p (notify P r preparing ++ [ForceUpdate]) = 0%nat).
  { intros p r Hp. apply count_zero. intros eff Hin.
    destruct (p eff) eqn:E; [|reflexivity]. exfalso.
    specialize (Hp eff E). apply in_app_iff in Hin. unfold notify in Hin.
    destruct Hin as [Hin|[<-|[]]]; [|exact Hp].
    destruct (onChangeStatus P); [destruct Hin as [<-|[]]; exact Hp | destruct Hin]. }
  assert (Hstart : forall r eff, is_start r eff = true ->
            match eff with
            | GetUploadParams _ | XhrSend _ _ _ _ _ _ => True | _ => False end)
    by (intros r []; cbn; auto; discriminate).
  assert (Hsend : forall r eff, is_send r eff = true ->
            match eff with
            | GetUploadParams _ | XhrSend _ _ _ _ _ _ => True | _ => False end)
    by (intros r []; cbn; auto; discriminate).
  split; cbn [registered heap xhrs trace next_id].
  - intros r e Hr. apply lookup_app_Some in Hr.
    destruct Hr as [Hr | [Hge Hr]].
    + pose proof (inv_entries _ _ HI r e Hr) as [O1 O2 O3 O4 O5 O6].
      split; auto; cbn [registered trace xhrs]; rewrite ?(count_app _ (trace s)).
      * rewrite (Hnew _ _ (Hstart r)). lia.
      * rewrite (Hnew _ _ (Hsend r)). lia.
      * rewrite (Hnew _ _ (Hsend r)). lia.
    + apply list_lookup_singleton_Some in Hr. destruct Hr as [Hr <-].
      assert (r = length (heap s)) by lia. subst r.
      split; cbn [registered trace xhrs fresh_entry e_activation e_triggered e_triggerUpload
                  e_awaiting_params e_xhr started sent];
        rewrite ?(count_app _ (trace s)); try congruence.
      * rewrite (Hfresh _ (is_start_about _)), (Hnew _ _ (Hstart _)).
        unfold started. cbn. now destruct (getUploadParams P).
      * rewrite (Hfresh _ (is_send_about _)), (Hnew _ _ (Hsend _)).
        unfold started. cbn. destruct (getUploadParams P); lia.
      * rewrite (Hfresh _ (is_send_about _)), (Hnew _ _ (Hsend _)). reflexivity.
      * intros x. split; [|discriminate]. intros Hx.
        pose proof (inv_xhrs _ _ HI x _ Hx). lia.
  - intros x r Hx. rewrite length_app. pose proof (inv_xhrs _ _ HI x r Hx). lia.
  - intros eff r Hin Hab. rewrite length_app. cbn.
    apply in_app_iff in Hin. destruct Hin as [Hin|Hin].
    + pose proof (inv_trace _ _ HI eff r Hin Hab). lia.
    + apply in_app_iff in Hin. unfold notify in Hin.
      destruct Hin as [Hin|[<-|[]]]; [|discriminate].
      destruct (onChangeStatus P); [|destruct Hin].
      destruct Hin as [<-|[]]. cbn in Hab. injection Hab as <-. lia.
  - rewrite length_app, (inv_id _ _ HI). cbn. lia.
Qed.

(** What the whole of an accepting [handleFile] changed, given what its
    part after line 114 did to the new entry. *)
Lemma registered_trans file now s s' e' l new :
  local (length (heap s)) (registered P s file now) s'
        (fresh_entry file now (next_id s)) e' l new ->
  m_id (e_meta e') = next_id s ->
  Trans (EvHandleFile file now) s s'.
Proof.
  intros [Lold Lnew Llen Lframe Lid Lxhrs Lrefs Ltrace Labout] Hid.
  cbn [registered heap] in Llen. rewrite length_app in Llen. cbn in Llen.
  split.
  - intros r e He. exists e. pose proof (lookup_lt_Some _ _ _ He) as Hlt.
    rewrite Lframe by lia. cbn [registered heap].
    rewrite lookup_app_l by exact Hlt. repeat split; auto.
  - intros r e2 Hnone Hsome. apply lookup_ge_None in Hnone.
    pose proof (lookup_lt_Some _ _ _ Hsome) as Hlt.
    assert (r = length (heap s)) by lia. subst r.
    split; [reflexivity|]. congruence.
  - lia.
  - exists ((notify P (length (heap s)) preparing ++ [ForceUpdate]) ++ new).
    split.
    + rewrite Ltrace. cbn [registered trace]. now rewrite <- !app_assoc.
    + intros eff r e Hin Hab He. exfalso.
      pose proof (lookup_lt_Some _ _ _ He) as Hlt.
      assert (r = length (heap s)); [|lia].
      apply in_app_iff in Hin. destruct Hin as [Hin|Hin].
      * apply in_app_iff in Hin. unfold notify in Hin.
        destruct Hin as [Hin|[<-|[]]]; [|discriminate].
        destruct (onChangeStatus P); [|destruct Hin].
        destruct Hin as [<-|[]]. cbn in Hab. congruence.
      * rewrite Forall_forall in Labout.
        apply (Labout eff (proj2 (list_elem_of_In _ _) Hin) r Hab).
Qed.

End Intake.

Section Pipeline.

Context (P : Props).
Implicit Types (s : State) (r : ref) (e : Entry).

Lemma handleFile_ok file now s :
  Inv P s ->
  Inv P (handleFile P file now s)
  /\ Trans (EvHandleFile file now) s (handleFile P file now s).
Proof.
  intros HI. destruct (handleFile_cases P file now s) as [-> | Hadm].
  { split; [exact HI | apply Trans_refl]. }
  rewrite (handleFile_accepted P s file now Hadm). cbv zeta.
  pose proof (inv_registered P file now s HI) as HI1.
  pose proof (lookup_registered P s file now) as Hr.
  set (s1 := registered P s file now) in *.
  set (e := fresh_entry file now (next_id s)) in *.
  assert (Hfin : forall s' e' new,
             local (length (heap s)) s1 s' e e' [] new ->
             same_ctl e e' -> harmless new ->
             Inv P s' /\ Trans (EvHandleFile file now) s s').
  { intros s' e' new HL Hc Hh. split.
    - apply (tame_inv P (length (heap s)) s1 s' e e' new); auto.
    - apply (registered_trans P file now s s' e' [] new HL).
      rewrite (sc_id _ _ Hc). reflexivity. }
  destruct (f_size file >? maxSizeBytes P).
  - unfold set_status. eapply Hfin; [build_local | |].
    + apply same_ctl_meta. reflexivity.
    + repeat apply harmless_app; try apply harmless_notify; repeat constructor.
  - unfold generatePreview. rewrite Hr.
    match goal with |- context [if ?b then _ else _] => destruct b end.
    + unfold set_activation. eapply Hfin; [build_local | |].
      * apply same_ctl_activation.
      * constructor.
    + match goal with
      | |- context [preview_blocks P ?r ?u ?ty ?ks (createObjectURL ?r s1)] =>
          destruct (local_preview_blocks P u ty ks r s1 (createObjectURL r s1) e e _
                      (local_createObjectURL r s1 s1 e e [] [] (local_refl r s1 e Hr)))
            as (e' & new' & HL & Hc & _ & Hh)
      end.
      eapply Hfin; [exact HL | exact Hc | apply Hh; repeat constructor].
Qed.

(** One call of the closure. *)
Lemma local_triggerUpload r s0 s e0 e new :
  local r s0 s e0 e [] new ->
  exists e' new',
    local r s0 (triggerUpload P r s) e0 e' [] (new ++ new') /\
    delta P r e e' new'.
Proof.
  intros HL. unfold triggerUpload. rewrite (loc_new _ _ _ _ _ _ _ HL).
  assert (Hsame : exists e' new', local r s0 s e0 e' [] (new ++ new')
                                  /\ delta P r e e' new').
  { exists e, []. rewrite app_nil_r. split; [exact HL|].
    split; auto; cbn; lia. }
  destruct (e_triggered e) as [[|]|] eqn:Et; try exact Hsame.
  unfold set_status, uploadFile.
  destruct (getUploadParams P) eqn:Hg.
  - exists (entry_meta (meta_status uploading)
              (entry_awaiting (S (e_awaiting_params e)) (entry_triggered true e))),
           ([GetUploadParams r] ++ notify P r uploading ++ [ForceUpdate]).
    split.
    + replace (new ++ [GetUploadParams r] ++ notify P r uploading ++ [ForceUpdate])
        with (((new ++ [GetUploadParams r]) ++ notify P r uploading) ++ [ForceUpdate])
        by (now rewrite <- !app_assoc).
      apply local_forceUpdate.
      apply (local_handleChangeStatus P r s0 _ e0
               (entry_meta (meta_status uploading)
                  (entry_awaiting (S (e_awaiting_params e)) (entry_triggered true e)))).
      apply local_modify.
      apply (local_modify r (fun e => entry_awaiting (S (e_awaiting_params e)) e)
               s0 _ e0 (entry_triggered true e)).
      apply local_emit; [cbn; congruence|]. apply local_modify. exact HL.
    + split; cbn; auto; try congruence.
      * unfold started. cbn. rewrite Hg, Et.
        rewrite count_app, count_notify by reflexivity. cbn. rewrite Nat.eqb_refl. lia.
      * rewrite count_app, count_notify by reflexivity. cbn. rewrite Nat.eqb_refl. lia.
      * rewrite count_app, count_notify by reflexivity. cbn. lia.
  - exists (entry_meta (meta_status done) (entry_triggered true e)),
           (notify P r done ++ [ForceUpdate]).
    split.
    + rewrite app_assoc.
      apply local_forceUpdate.
      apply (local_handleChangeStatus P r s0 _ e0
               (entry_meta (meta_status done) (entry_triggered true e))).
      apply local_modify. apply local_modify. exact HL.
    + split; cbn; auto; try congruence.
      * unfold started. rewrite Hg. rewrite count_app, count_notify by reflexivity.
        reflexivity.
      * rewrite count_app, count_notify by reflexivity. cbn. lia.
      * rewrite count_app, count_notify by reflexivity. reflexivity.
Qed.

Lemma delta_trans r e1 e2 e3 new1 new2 :
  delta P r e1 e2 new1 -> delta P r e2 e3 new2 -> delta P r e1 e3 (new1 ++ new2).
Proof.
  intros [A1 A2 A3 A4 A5 A6 A7 A8 A9] [B1 B2 B3 B4 B5 B6 B7 B8 B9].
  split; try congruence; auto; rewrite count_app; lia.
Qed.

(** The calls of the closure made from inside [onUploadReady]. *)
Lemma local_iter n r s0 s e0 e new :
  local r s0 s e0 e [] new ->
  exists e' new',
    local r s0 (Nat.iter n (triggerUpload P r) s) e0 e' [] (new ++ new') /\
    delta P r e e' new'.
Proof.
  intros HL. induction n as [|n (e1 & new1 & HL1 & D1)]; cbn [Nat.iter nat_rect].
  - exists e, []. rewrite app_nil_r. split; [exact HL|].
    split; auto; cbn; lia.
  - destruct (local_triggerUpload r s0 _ e0 e1 _ HL1) as (e2 & new2 & HL2 & D2).
    exists e2, (new1 ++ new2). rewrite app_assoc. split; [exact HL2|].
    apply (delta_trans r e e1 e2); assumption.
Qed.

Lemma delta_ok ev r s s' e e' new :
  Inv P s -> local r s s' e e' [] new -> delta P r e e' new ->
  e_triggered e <> None ->
  Inv P s' /\ Trans ev s s'.
Proof.
  intros HI HL [D1 D2 D3 D4 D5 D6 D7 D8 D9] Ht.
  pose proof (inv_entries _ _ HI r e (loc_old _ _ _ _ _ _ _ HL)) as Hok.
  split.
  - apply (local_inv P r s s' e e' [] new); auto.
    + intros Ha. exfalso. apply Ht. apply (ok_act _ _ _ _ Hok). congruence.
    + lia.
  - apply (local_trans ev r s s' e e' [] new); auto.
    + now rewrite D3.
    + intros x. now rewrite D1.
    + intros (_ & Hnone & _). congruence.
Qed.

Lemma triggerUpload_ok r s e :
  Inv P s -> heap s !! r = Some e -> e_triggerUpload e = true ->
  Inv P (triggerUpload P r s) /\ Trans (EvTrigger r) s (triggerUpload P r s).
Proof.
  intros HI He Hexp.
  destruct (local_triggerUpload r s s e e [] (local_refl r s e He))
    as (e' & new' & HL & D).
  apply (delta_ok _ r s _ e e' new' HI HL D).
  apply (ok_exposed _ _ _ _ (inv_entries _ _ HI r e He) Hexp).
Qed.

Lemma handleFile_resume_ok r h s e :
  Inv P s -> heap s !! r = Some e -> e_activation e = AwaitingPreview ->
  Inv P (handleFile_resume P r h s) /\ Trans (EvResume r h) s (handleFile_resume P r h s).
Proof.
  intros HI He Ha.
  pose proof (inv_entries _ _ HI r e He) as Hok.
  assert (Hact : e_activation e <> Returned) by (rewrite Ha; discriminate).
  pose proof (ok_act _ _ _ _ Hok Hact) as Hnone.
  assert (Hfin : forall s' eb e' pre new',
             local r s s' e e' [] (pre ++ new') -> harmless pre ->
             delta P r eb e' new' ->
             e_xhr eb = e_xhr e -> e_awaiting_params eb = e_awaiting_params e ->
             e_triggered eb = Some false -> e_activation eb = Returned ->
             m_id (e_meta eb) = m_id (e_meta e) ->
             (e_triggerUpload e = true -> e_triggerUpload eb = true) ->
             Inv P s' /\ Trans (EvResume r h) s s').
  { intros s' eb e' pre new' HL Hpre [D1 D2 D3 D4 D5 D6 D7 D8 D9] B1 B2 B3 B4 B5 B6.
    destruct (harmless_count r pre Hpre) as [Hst Hsd].
    assert (Hsb : started P eb = 0%nat)
      by (unfold started; rewrite B3; now destruct (getUploadParams P)).
    assert (Hs0 : started P e = 0%nat)
      by (unfold started; rewrite Hnone; now destruct (getUploadParams P)).
    split.
    - apply (local_inv P r s s' e e' [] (pre ++ new')); auto.
      + intros Hne. exfalso. apply Hne. congruence.
      + intros _. apply D6. congruence.
      + rewrite count_app. lia.
      + rewrite !count_app. lia.
      + left. rewrite count_app. repeat split; [congruence | lia].
    - apply (local_trans _ r s s' e e' [] (pre ++ new')); auto.
      + congruence.
      + intros Hex. rewrite D3. auto.
      + intros x. congruence.
      + intros (H & _). congruence.
      + intros _. congruence. }
  unfold handleFile_resume, set_activation.
  set (sa := modify r (entry_triggered false) (modify r (entry_activation Returned) s)).
  set (ea := entry_triggered false (entry_activation Returned e)).
  assert (HLa : local r s sa e ea [] [])
    by (apply local_modify, local_modify, local_refl; exact He).
  destruct (onUploadReady P).
  - set (sb := emit (OnUploadReady r) (modify r entry_triggerUpload sa)).
    set (eb := entry_triggerUpload ea).
    assert (HLb : local r s sb e eb [] ([] ++ [OnUploadReady r])).
    { apply local_emit; [cbn; congruence|]. apply local_modify. exact HLa. }
    cbn [app] in HLb.
    destruct (local_iter (hook_calls h) r s sb e eb _ HLb) as (ec & newc & HLc & Dc).
    destruct (delayUpload h).
    + apply (Hfin _ eb ec [OnUploadReady r] newc HLc); auto. repeat constructor.
    + destruct (local_triggerUpload r s _ e ec _ HLc) as (ed & newd & HLd & Dd).
      rewrite <- app_assoc in HLd.
      apply (Hfin _ eb ed [OnUploadReady r] (newc ++ newd) HLd); auto.
      * repeat constructor.
      * apply (delta_trans r eb ec ed); assumption.
  - destruct (local_triggerUpload r s sa e ea [] HLa) as (ed & newd & HLd & Dd).
    apply (Hfin _ ea ed [] newd HLd); auto. constructor.
Qed.

Lemma params_cases (p : option Params) :
  no_url p = true \/
  exists target method fields headers extraMeta,
    p = Some (mkParams (Some target) method fields headers extraMeta)
    /\ String.eqb target EmptyString = false.
Proof.
  destruct p as [[[target|] method fields headers extraMeta]|]; cbn; auto.
  destruct (String.eqb target EmptyString) eqn:E; [now left|].
  right. now exists target, method, fields, headers, extraMeta.
Qed.

Lemma uploadFile_resume_ok r p s e n :
  Inv P s -> heap s !! r = Some e -> e_awaiting_params e = S n ->
  Inv P (uploadFile_resume P r p (modify r (entry_awaiting n) s))
  /\ Trans (EvParams r p) s (uploadFile_resume P r p (modify r (entry_awaiting n) s)).
Proof.
  intros HI He Hn.
  pose proof (inv_entries _ _ HI r e He) as Hok.
  pose proof (ok_sends _ _ _ _ Hok) as Hsd.
  pose proof (ok_sent _ _ _ _ Hok) as Hst.
  assert (Hq : ~ quiet e) by (intros (_ & _ & _ & H & _); congruence).
  assert (Hone : started P e = 1%nat /\ e_xhr e = None).
  { assert (started P e <= 1)%nat
      by (unfold started; destruct (getUploadParams P), (e_triggered e) as [[|]|]; lia).
    split; [lia|]. unfold sent in Hst. destruct (e_xhr e); [lia|reflexivity]. }
  destruct Hone as [Hs1 Hxn].
  destruct (params_cases p) as [Hno | (target & method & fields & headers & extraMeta & -> & Hne)].
  - rewrite (uploadFile_resume_no_url P r p _ Hno). unfold set_status.
    assert (HL : exists new, local r s
               (forceUpdate (handleChangeStatus P r
                  (modify r (entry_meta (meta_status error_upload_params))
                     (modify r (entry_awaiting n) s))))
               e (entry_meta (meta_status error_upload_params) (entry_awaiting n e)) [] new
               /\ harmless new).
    { eexists. split; [build_local|].
      repeat apply harmless_app; try apply harmless_notify; repeat constructor. }
    destruct HL as (new & HL & Hh).
    destruct (harmless_count r new Hh) as [Hc1 Hc2].
    split.
    + eapply (local_inv P r s _ e _ [] new HI HL); cbn;
        [ apply (ok_act _ _ _ _ Hok) | apply (ok_exposed _ _ _ _ Hok)
        | unfold started; cbn; fold (started P e); lia | lia | left; auto ].
    + eapply (local_trans _ r s _ e _ [] new HL); cbn; auto.
  - unfold uploadFile_resume. rewrite Hne.
    rewrite (lookup_modify r _ s e He).
    set (x := length (xhrs (modify r (entry_meta (merge_meta (over extraMeta no_extra)))
                                   (modify r (entry_awaiting n) s)))).
    assert (Hx : x = length (xhrs s)) by reflexivity.
    match goal with
    | |- Inv P ?s' /\ _ =>
        assert (HL : exists e' new, local r s s' e e' ([] ++ [r]) new /\
                       e' = entry_xhr x (entry_meta (merge_meta (over extraMeta no_extra))
                                           (entry_awaiting n e)) /\
                       count (is_start r) new = 0%nat /\ count (is_send r) new = 1%nat)
    end.
    { eexists _, _. split; [|split; [reflexivity|]].
      - apply local_modify. apply local_emit; [cbn; congruence|].
        apply local_listen. apply local_modify, local_modify, local_refl. exact He.
      - cbn. rewrite Nat.eqb_refl. auto. }
    destruct HL as (e' & new & HL & -> & Hc1 & Hc2). cbn [app] in HL.
    split.
    + eapply (local_inv P r s _ e _ [r] new HI HL); cbn;
        [ apply (ok_act _ _ _ _ Hok) | apply (ok_exposed _ _ _ _ Hok)
        | unfold started; cbn; fold (started P e); lia | lia
        | right; repeat split; auto ].
    + eapply (local_trans _ r s _ e _ [r] new HL); cbn;
        [ auto | auto | intros x0; rewrite Hxn; discriminate | exact Hq | ].
      destruct extraMeta as [xm|]; cbn; [|reflexivity].
      intros ->. reflexivity.
Qed.

End Pipeline.

(** ** Runs *)

Section Runs.

Context (P : Props).
Implicit Types (s : State) (r : ref) (e : Entry).

Lemma step_ok s ev s' :
  Inv P s -> step P s ev = Some s' -> Inv P s' /\ Trans ev s s'.
Proof.
  intros HI. destruct ev as [file now|r d|r|r h|r|r p|x loaded total|x rs st|i|i];
    cbn [step].
  - intros [= <-]. now apply handleFile_ok.
  - destruct (heap s !! r) as [e|] eqn:He; [|discriminate].
    destruct (e_activation e) as [|k u ty|] eqn:Ha; try discriminate.
    intros [= <-]. now apply (generatePreview_resume_ok P r k u ty d s e).
  - destruct (heap s !! r) as [e|] eqn:He; [|discriminate].
    destruct (e_activation e) as [|k u ty|] eqn:Ha; try discriminate.
    intros [= <-]. split; [exact HI | apply Trans_refl].
  - destruct (heap s !! r) as [e|] eqn:He; [|discriminate].
    destruct (e_activation e) as [|k u ty|] eqn:Ha; try discriminate.
    intros [= <-]. now apply (handleFile_resume_ok P r h s e).
  - destruct (heap s !! r) as [e|] eqn:He; [|discriminate].
    destruct (e_triggerUpload e) eqn:Hex; [|discriminate].
    intros [= <-]. now apply (triggerUpload_ok P r s e).
  - destruct (heap s !! r) as [e|] eqn:He; [|discriminate].
    destruct (e_awaiting_params e) as [|n] eqn:Hn; [discriminate|].
    intros [= <-]. now apply (uploadFile_resume_ok P r p s e n).
  - destruct (xhrs s !! x) as [r|] eqn:Hx; [|discriminate].
    intros [= <-]. now apply (on_progress_ok P x loaded total s r).
  - destruct (xhrs s !! x) as [r|] eqn:Hx; [|discriminate].
    intros [= <-]. now apply (on_readystatechange_ok P x rs st s r).
  - intros [= <-]. now apply handleCancel_ok.
  - intros [= <-]. now apply handleRemove_ok.
Qed.

Lemma inv_init : Inv P init.
Proof.
  split; cbn.
  - intros r e H. rewrite lookup_nil in H. discriminate.
  - intros x r H. rewrite lookup_nil in H. discriminate.
  - intros eff r [].
  - reflexivity.
Qed.

Lemma run_inv evs s s' : Inv P s -> run P s evs = Some s' -> Inv P s'.
Proof.
  revert s. induction evs as [|ev evs IH]; cbn; intros s HI.
  - now intros [= <-].
  - destruct (step P s ev) as [s1|] eqn:Hs; [|discriminate].
    apply IH. now apply (step_ok s ev s1).
Qed.

Lemma reachable_inv s : reachable P s -> Inv P s.
Proof. intros [evs H]. apply (run_inv evs init s inv_init H). Qed.

Lemma run_app evs1 evs2 s s1 s2 :
  run P s evs1 = Some s1 -> run P s1 evs2 = Some s2 -> run P s (evs1 ++ evs2) = Some s2.
Proof.
  revert s. induction evs1 as [|ev evs1 IH]; cbn; intros s.
  - now intros [= ->].
  - destruct (step P s ev); [apply IH | discriminate].
Qed.

Lemma reachable_run evs s s' : reachable P s -> run P s evs = Some s' -> reachable P s'.
Proof. intros [evs0 H0] H. exists (evs0 ++ evs). now apply (run_app evs0 evs init s s'). Qed.

Lemma Kept_refl s : Kept s s.
Proof.
  split.
  - intros r e H. exists e. repeat split; auto.
  - exists []. split; [now rewrite app_nil_r|]. intros ? ? ? [].
Qed.

Lemma Kept_step ev s s1 s2 : Trans ev s s1 -> Kept s1 s2 -> Kept s s2.
Proof.
  intros [T1 _ _ (new1 & Ht1 & Hq1)] [K1 (new2 & Ht2 & Hq2)]. split.
  - intros r e He.
    destruct (T1 r e He) as (e1 & He1 & A1 & A2 & A3 & A4 & _).
    destruct (K1 r e1 He1) as (e2 & He2 & B1 & B2 & B3 & B4).
    exists e2. repeat split; auto.
    intros Hq. rewrite <- (A4 Hq). apply B4. now rewrite (A4 Hq).
  - exists (new1 ++ new2). split; [rewrite Ht2, Ht1; now rewrite app_assoc|].
    intros eff r e Hin Hab He Hq. apply in_app_iff in Hin. destruct Hin as [Hin|Hin].
    + apply (Hq1 eff r e Hin Hab He Hq).
    + destruct (T1 r e He) as (e1 & He1 & _ & _ & _ & A4 & _).
      rewrite (A4 Hq) in He1. apply (Hq2 eff r e Hin Hab He1 Hq).
Qed.

Lemma run_kept evs s s' : Inv P s -> run P s evs = Some s' -> Kept s s'.
Proof.
  revert s. induction evs as [|ev evs IH]; cbn; intros s HI.
  - intros [= <-]. apply Kept_refl.
  - destruct (step P s ev) as [s1|] eqn:Hs; [|discriminate].
    destruct (step_ok s ev s1 HI Hs) as [HI1 HT]. intros Hr.
    apply (Kept_step ev s s1 s' HT). now apply IH.
Qed.

End Runs.

(** ** An oversized file (C5) *)

Section Quiet.

Context (P : Props).



End Quiet.



(** ** The deferred-upload trigger (C4) *)

(** The entry of [Sample.deferred]: the hook asked for a delay, the closure
    is exposed and has not run, nothing was started. *)
Example deferred_upload_waits :
  let s := Sample.after Sample.props_hook Sample.deferred in
  e_triggerUpload (Sample.the_entry s 0) = true /\
  e_triggered (Sample.the_entry s 0) = Some false /\
  m_status (e_meta (Sample.the_entry s 0)) = preparing /\
  count (is_start 0) (trace s) = 0%nat.
Proof. vm_compute. repeat split; reflexivity. Qed.

(** ** The transport handle (C3) *)

(** One image uploaded to completion: the entry is [done] and still holds
    its request. *)
Lemma handle_outlives_uploading : ~ handle_only_while_uploading Sample.props.
Proof.
  intros H.
  specialize (H (Sample.after Sample.props (Sample.sent ++ [EvReadyState 0 4 200])) 0%nat
                (Sample.the_entry
                   (Sample.after Sample.props (Sample.sent ++ [EvReadyState 0 4 200])) 0)).
  assert (Hfalse : done = uploading); [|discriminate].
  apply H.
  - exists (Sample.sent ++ [EvReadyState 0 4 200]). vm_compute. reflexivity.
  - vm_compute. reflexivity.
  - vm_compute. discriminate.
Qed.

(** The entry of [Sample.asked] is [uploading] and has no handle yet: the
    provider has been called and has not answered. *)
Example uploading_without_handle :
  m_status (e_meta (Sample.the_entry (Sample.after Sample.props Sample.asked) 0))
  = uploading /\
  e_xhr (Sample.the_entry (Sample.after Sample.props Sample.asked) 0) = None.
Proof. vm_compute. split; reflexivity. Qed.

Lemma is_send_inv (r : ref) (eff : Effect) :
  is_send r eff = true -> exists x m t hs b, eff = XhrSend x r m t hs b.
Proof.
  destruct eff; cbn; try discriminate. intros ->%Nat.eqb_eq. eauto 6.
Qed.

(** C3.  The handle does not follow the status.  An entry holds a
    transport handle exactly from the moment its request is sent, so not
    yet while it is [uploading] and waits for the provider; and the handle
    is never taken off the entry again, whatever happens and whatever
    status the entry reaches.  A cancel that finds the entry then still
    finds the handle: the cancel observer, if there is one, is called for
    the entry, and without an observer [abort] is called on the request,
    also when the upload is long over. *)
Theorem xhr_kept_after_send (P : Props) (s : State) (r : ref) (e : Entry) :
  reachable P s ->
  heap s !! r = Some e ->
  (e_xhr e <> None <-> exists x m t hs b, In (XhrSend x r m t hs b) (trace s)) /\
  (forall x evs s',
     e_xhr e = Some x -> run P s evs = Some s' ->
     exists e',
       heap s' !! r = Some e' /\ e_xhr e' = Some x /\
       forall i,
         files s' !! i = Some r ->
         (forall j r' e'', (j < i)%nat -> files s' !! j = Some r' ->
                           heap s' !! r' = Some e'' ->
                           m_id (e_meta e'') <> m_id (e_meta e')) ->
         exists s'',
           step P s' (EvCancel (m_id (e_meta e'))) = Some s'' /\
           if onCancel P
           then exists rest, trace s'' = trace s' ++ OnCancel r :: rest
           else trace s'' = trace s' ++ [XhrAbort x]).
Proof.
  intros Hreach He.
  pose proof (reachable_inv P s Hreach) as HI.
  pose proof (ok_sent _ _ _ _ (inv_entries _ _ HI r e He)) as Hsent.
  split.
  - split.
    + intros Hx. destruct (count_pos (is_send r) (trace s)) as (eff & Hin & Hp).
      { rewrite Hsent. unfold sent. destruct (e_xhr e); [lia|congruence]. }
      destruct (is_send_inv r eff Hp) as (x & m & t & hs & b & ->). eauto 6.
    + intros (x & m & t & hs & b & Hin).
      pose proof (count_In (is_send r) _ _ Hin) as Hpos.
      cbn in Hpos. rewrite Nat.eqb_refl in Hpos. specialize (Hpos eq_refl).
      rewrite Hsent in Hpos. unfold sent in Hpos. destruct (e_xhr e); [discriminate|lia].
  - intros x evs s' Hx Hrun.
    destruct (run_kept P evs s s' HI Hrun) as [K1 _].
    destruct (K1 r e He) as (e' & He' & _ & _ & Hkeep & _).
    exists e'. split; [exact He'|]. split; [now apply Hkeep|].
    intros i Hf Hfirst. cbn [step]. unfold handleCancel.
    rewrite (findIndex_first _ _ _ i r e' Hf He' eq_refl Hfirst), Hf, He',
      (Hkeep x Hx).
    eexists. split; [reflexivity|].
    destruct (onCancel P); cbn; [|reflexivity].
    exists [XhrAbort x]. now rewrite <- app_assoc.
Qed.

Lemma xhr_kept_after_send_witness :
  exists e' s'',
    heap (Sample.after Session.props_bare Session.finished) !! 0%nat = Some e' /\
    m_status (e_meta e') = done /\
    e_xhr e' = Some 0%nat /\
    step Session.props_bare (Sample.after Session.props_bare Session.finished)
      (EvCancel 0) = Some s'' /\
    trace s'' = trace (Sample.after Session.props_bare Session.finished)
                ++ [XhrAbort 0].
Proof.
  destruct (xhr_kept_after_send Session.props_bare
              (Sample.after Session.props_bare Sample.sent) 0
              (Sample.the_entry (Sample.after Session.props_bare Sample.sent) 0))
    as [_ Hkept].
  - exists Sample.sent. vm_compute. reflexivity.
  - vm_compute. reflexivity.
  - destruct (Hkept 0%nat [EvReadyState 0%nat 4 200]
                (Sample.after Session.props_bare Session.finished))
      as (e' & He' & Hx' & Hcancel).
    + vm_compute. reflexivity.
    + vm_compute. reflexivity.
    + vm_compute in He'. injection He' as <-.
      destruct (Hcancel 0%nat) as (s'' & Hstep & Htrace).
      * vm_compute. reflexivity.
      * intros j r' e'' Hj. lia.
      * eexists _, s''. split; [vm_compute; reflexivity|].
        split; [reflexivity|]. split; [reflexivity|].
        split; [exact Hstep | exact Htrace].
Defined.

(** ** Entry ids (C9) *)

(** Line 214 spreads the provider's [meta] over the entry's: the second
    entry ends up with the id of the first. *)
Lemma id_overwritten_by_extra_meta : ~ ids_distinct Sample.props.
Proof.
  intros H.
  apply (H (Sample.after Sample.props Collision.events) 0%nat 1%nat
           (Sample.the_entry (Sample.after Sample.props Collision.events) 0)
           (Sample.the_entry (Sample.after Sample.props Collision.events) 1)).
  - exists Collision.events. vm_compute. reflexivity.
  - discriminate.
  - vm_compute. reflexivity.
  - vm_compute. reflexivity.
  - vm_compute. reflexivity.
Qed.

(** ** The handlers change one object *)

Section Objects.

Context (P : Props).
Implicit Types (s : State) (r : ref) (e : Entry).

Lemma alter_absent (f : Entry -> Entry) r (h : list Entry) :
  h !! r = None -> alter f r h = h.
Proof.
  intros H. rewrite <- (list_alter_id (fun x => x) h r) at 2 by reflexivity.
  apply list_alter_ext; [|reflexivity]. intros x Hx. congruence.
Qed.

Lemma alter_at (f g : Entry -> Entry) r (h : list Entry) e :
  h !! r = Some e -> f e = g e -> alter f r h = alter g r h.
Proof.
  intros H Hfg. apply list_alter_ext; [|reflexivity]. intros x Hx. congruence.
Qed.

Lemma parts_handleChangeStatus r s :
  heap (handleChangeStatus P r s) = heap s /\
  files (handleChangeStatus P r s) = files s /\
  next_id (handleChangeStatus P r s) = next_id s /\
  xhrs (handleChangeStatus P r s) = xhrs s /\
  next_url (handleChangeStatus P r s) = next_url s.
Proof.
  unfold handleChangeStatus. destruct (onChangeStatus P); [|auto].
  destruct (heap s !! r); auto.
Qed.

Lemma heap_status_notify_render r st s :
  heap (forceUpdate (handleChangeStatus P r (set_status r st s)))
  = alter (entry_meta (meta_status st)) r (heap s).
Proof.
  cbn [forceUpdate emit heap].
  now rewrite (proj1 (parts_handleChangeStatus r _)).
Qed.

Lemma heap_preview_blocks r u ty ks s :
  heap (preview_blocks P r u ty ks s)
  = alter (preview_blocks_on P u ty ks) r (heap s).
Proof.
  revert s. induction ks as [|k ks IH]; intros s; cbn [preview_blocks preview_blocks_on].
  - reflexivity.
  - destruct (startsWith ty (kind_prefix k) && includes (previewTypes P) (kind_name k));
      [|apply IH].
    destruct k; cbn [set_activation modify heap]; try reflexivity.
    now rewrite list_alter_alter_eq.
Qed.

Lemma heap_generatePreview r s :
  heap (generatePreview P r s) = alter (generatePreview_on P (next_url s)) r (heap s).
Proof.
  unfold generatePreview. destruct (heap s !! r) as [e|] eqn:He.
  - fold (no_media (m_type (e_meta e))).
    destruct (no_media (m_type (e_meta e))) eqn:Hm.
    + cbn [set_activation modify heap].
      apply (alter_at _ _ r (heap s) e He). unfold generatePreview_on. now rewrite Hm.
    + rewrite heap_preview_blocks. cbn [createObjectURL heap].
      apply (alter_at _ _ r (heap s) e He). unfold generatePreview_on. now rewrite Hm.
  - symmetry. now apply alter_absent.
Qed.

Lemma heap_generatePreview_resume r k u ty d s :
  heap (generatePreview_resume P r k u ty d s)
  = alter (generatePreview_resume_on P k u ty d) r (heap s).
Proof.
  unfold generatePreview_resume, generatePreview_resume_on.
  destruct k; rewrite heap_preview_blocks; cbn [modify heap];
    now rewrite list_alter_alter_eq.
Qed.

Lemma heap_triggerUpload r s :
  heap (triggerUpload P r s) = alter (triggerUpload_on P) r (heap s).
Proof.
  unfold triggerUpload. destruct (heap s !! r) as [e|] eqn:He;
    [|symmetry; now apply alter_absent].
  destruct (e_triggered e) as [[|]|] eqn:Et.
  - symmetry. rewrite <- (list_alter_id (fun x => x) (heap s) r) at 2 by reflexivity.
    apply (alter_at _ _ r (heap s) e He). unfold triggerUpload_on. now rewrite Et.
  - cbn [forceUpdate emit heap]. rewrite (proj1 (parts_handleChangeStatus r _)).
    destruct (getUploadParams P) eqn:Hg.
    + cbn [set_status uploadFile modify emit heap].
      rewrite !list_alter_alter_eq.
      apply (alter_at _ _ r (heap s) e He). unfold triggerUpload_on.
      now rewrite Et, Hg.
    + cbn [set_status modify heap]. rewrite !list_alter_alter_eq.
      apply (alter_at _ _ r (heap s) e He). unfold triggerUpload_on.
      now rewrite Et, Hg.
  - symmetry. rewrite <- (list_alter_id (fun x => x) (heap s) r) at 2 by reflexivity.
    apply (alter_at _ _ r (heap s) e He). unfold triggerUpload_on. now rewrite Et.
Qed.

Lemma heap_iter n r s :
  heap (Nat.iter n (triggerUpload P r) s)
  = alter (Nat.iter n (triggerUpload_on P)) r (heap s).
Proof.
  induction n as [|n IH]; cbn [Nat.iter nat_rect].
  - symmetry. now apply list_alter_id.
  - rewrite heap_triggerUpload. unfold Nat.iter in IH. rewrite IH.
    now rewrite list_alter_alter_eq.
Qed.

Lemma heap_handleFile_resume r h s :
  heap (handleFile_resume P r h s) = alter (handleFile_resume_on P h) r (heap s).
Proof.
  unfold handleFile_resume, handleFile_resume_on. cbv zeta.
  destruct (onUploadReady P).
  - destruct (delayUpload h).
    + rewrite heap_iter. cbn [emit modify set_activation heap].
      now rewrite !list_alter_alter_eq.
    + rewrite heap_triggerUpload, heap_iter. cbn [emit modify set_activation heap].
      now rewrite !list_alter_alter_eq.
  - rewrite heap_triggerUpload. cbn [modify set_activation heap].
    now rewrite !list_alter_alter_eq.
Qed.

Lemma heap_uploadFile_resume r p s :
  heap (uploadFile_resume P r p s)
  = alter (uploadFile_resume_on p (length (xhrs s))) r (heap s).
Proof.
  destruct (params_cases p) as [Hno | (target & method & fields & headers & extraMeta & -> & Hne)].
  - rewrite (uploadFile_resume_no_url P r p s Hno), heap_status_notify_render.
    unfold uploadFile_resume_on. now rewrite Hno.
  - unfold uploadFile_resume, uploadFile_resume_on, no_url. cbn [p_url p_meta].
    rewrite Hne. destruct (heap s !! r) as [e|] eqn:He.
    + cbn [modify emit listen heap xhrs]. now rewrite list_alter_alter_eq.
    + symmetry. now apply alter_absent.
Qed.

Lemma heap_on_progress x loaded total s r :
  xhrs s !! x = Some r ->
  heap (on_progress x loaded total s)
  = alter (entry_meta (meta_percent (js_or (js_div (loaded * 100) total) (of_Z 100))))
          r (heap s).
Proof. intros Hx. unfold on_progress. now rewrite Hx. Qed.

Lemma heap_on_readystatechange x readyState status s r :
  xhrs s !! x = Some r ->
  heap (on_readystatechange P x readyState status s)
  = alter (on_readystatechange_on readyState status) r (heap s).
Proof.
  intros Hx. unfold on_readystatechange, on_readystatechange_on. rewrite Hx.
  destruct (negb (readyState =? 2) && negb (readyState =? 4)).
  { symmetry. now apply list_alter_id. }
  destruct (status =? 0); [apply heap_status_notify_render|].
  destruct (status <? 400); [|apply heap_status_notify_render].
  cbn [forceUpdate emit heap]. rewrite (proj1 (parts_handleChangeStatus r _)).
  destruct (readyState =? 2), (readyState =? 4);
    cbn [set_status set_percent modify heap]; now rewrite ?list_alter_alter_eq.
Qed.

Lemma heap_handleCancel _id s : heap (handleCancel P _id s) = heap s.
Proof.
  unfold handleCancel.
  destruct (findIndex (heap s) _id (files s)) as [i|]; [|reflexivity].
  destruct (files s !! i) as [r|]; [|reflexivity].
  destruct (heap s !! r) as [e|]; [|reflexivity].
  destruct (e_xhr e); [|reflexivity]. now destruct (onCancel P).
Qed.

Lemma heap_handleRemove _id s : heap (handleRemove P _id s) = heap s.
Proof.
  unfold handleRemove.
  destruct (findIndex (heap s) _id (files s)) as [i|]; [|reflexivity].
  destruct (files s !! i) as [r|]; [|reflexivity]. now destruct (onRemove P).
Qed.

Lemma heap_handleFile file now s :
  accepted P s file ->
  heap (handleFile P file now s)
  = alter (change P s (EvHandleFile file now)) (length (heap s))
          (heap s ++ [fresh_entry file now (next_id s)]).
Proof.
  intros Hadm. rewrite (handleFile_accepted P s file now Hadm). cbv zeta.
  destruct (f_size file >? maxSizeBytes P) eqn:Hs.
  - rewrite heap_status_notify_render. apply list_alter_ext; [|reflexivity].
    intros x _. cbn [change]. now rewrite Hs.
  - rewrite heap_generatePreview. apply list_alter_ext; [|reflexivity].
    intros x _. cbn [change]. now rewrite Hs.
Qed.

(** Every event changes the object it addresses, by [change], and no
    other; an accepted file adds one object at the end. *)
Lemma step_heap s ev s' :
  step P s ev = Some s' ->
  heap s' = match ev with
            | EvHandleFile file now =>
                alter (change P s ev) (length (heap s))
                      (heap s ++ [fresh_entry file now (next_id s)])
            | _ =>
                match addressed s ev with
                | Some r => alter (change P s ev) r (heap s)
                | None => heap s
                end
            end
  \/ (exists file now, ev = EvHandleFile file now) /\ s' = s.
Proof.
  destruct ev as [file now|r d|r|r h|r|r p|x loaded total|x rs st|i|i];
    cbn [step addressed].
  - intros [= <-]. destruct (handleFile_cases P file now s) as [Hs | Hadm].
    + right. split; [eauto|exact Hs].
    + left. now apply heap_handleFile.
  - destruct (heap s !! r) as [e|] eqn:He; [|discriminate].
    destruct (e_activation e) as [|k u ty|] eqn:Ha; try discriminate.
    intros [= <-]. left. rewrite heap_generatePreview_resume.
    apply (alter_at _ _ r (heap s) e He). cbn [change]. now rewrite Ha.
  - destruct (heap s !! r) as [e|] eqn:He; [|discriminate].
    destruct (e_activation e) as [|k u ty|] eqn:Ha; try discriminate.
    intros [= <-]. left. symmetry. now apply list_alter_id.
  - destruct (heap s !! r) as [e|] eqn:He; [|discriminate].
    destruct (e_activation e) as [|k u ty|] eqn:Ha; try discriminate.
    intros [= <-]. left. apply heap_handleFile_resume.
  - destruct (heap s !! r) as [e|] eqn:He; [|discriminate].
    destruct (e_triggerUpload e) eqn:Hex; [|discriminate].
    intros [= <-]. left. apply heap_triggerUpload.
  - destruct (heap s !! r) as [e|] eqn:He; [|discriminate].
    destruct (e_awaiting_params e) as [|n] eqn:Hn; [discriminate|].
    intros [= <-]. left. rewrite heap_uploadFile_resume. cbn [modify heap xhrs].
    rewrite list_alter_alter_eq.
    apply (alter_at _ _ r (heap s) e He). cbn [change compose]. now rewrite Hn.
  - destruct (xhrs s !! x) as [r|] eqn:Hx; [|discriminate].
    intros [= <-]. left. now apply heap_on_progress.
  - destruct (xhrs s !! x) as [r|] eqn:Hx; [|discriminate].
    intros [= <-]. left. now apply heap_on_readystatechange.
  - intros [= <-]. left. apply heap_handleCancel.
  - intros [= <-]. left. apply heap_handleRemove.
Qed.

End Objects.

(** ** What the handlers leave alone *)

Section Parts.

Context (P : Props).
Implicit Types (s : State) (r : ref) (e : Entry).

Lemma same_parts_refl s : same_parts s s.
Proof. repeat split. Qed.

Lemma same_parts_trans s1 s2 s3 : same_parts s1 s2 -> same_parts s2 s3 -> same_parts s1 s3.
Proof. intros (A1 & A2 & A3) (B1 & B2 & B3). repeat split; congruence. Qed.

Lemma same_parts_notify r s : same_parts s (handleChangeStatus P r s).
Proof.
  destruct (parts_handleChangeStatus P r s) as (_ & H1 & H2 & H3 & _).
  repeat split; assumption.
Qed.

Lemma same_parts_status r st s :
  same_parts s (forceUpdate (handleChangeStatus P r (set_status r st s))).
Proof.
  destruct (parts_handleChangeStatus P r (set_status r st s)) as (_ & H1 & H2 & H3 & _).
  repeat split; cbn [forceUpdate emit files next_id xhrs]; assumption.
Qed.

Lemma same_parts_preview_blocks r u ty ks s :
  same_parts s (preview_blocks P r u ty ks s).
Proof.
  revert s. induction ks as [|k ks IH]; intros s; cbn [preview_blocks].
  - repeat split.
  - destruct (startsWith ty (kind_prefix k) && includes (previewTypes P) (kind_name k));
      [|apply IH].
    destruct k; repeat split.
Qed.

Lemma same_parts_generatePreview r s : same_parts s (generatePreview P r s).
Proof.
  unfold generatePreview. destruct (heap s !! r); [|apply same_parts_refl].
  match goal with |- context [if ?b then _ else _] => destruct b end.
  - repeat split.
  - eapply same_parts_trans; [|apply same_parts_preview_blocks]. repeat split.
Qed.

Lemma same_parts_generatePreview_resume r k u ty d s :
  same_parts s (generatePreview_resume P r k u ty d s).
Proof.
  unfold generatePreview_resume.
  destruct k; (eapply same_parts_trans; [|apply same_parts_preview_blocks]);
    repeat split.
Qed.

Lemma same_parts_triggerUpload r s : same_parts s (triggerUpload P r s).
Proof.
  unfold triggerUpload. destruct (heap s !! r) as [e|]; [|apply same_parts_refl].
  destruct (e_triggered e) as [[|]|]; try apply same_parts_refl.
  destruct (getUploadParams P).
  - eapply same_parts_trans; [|apply same_parts_status]. repeat split.
  - eapply same_parts_trans; [|apply same_parts_status]. repeat split.
Qed.

Lemma same_parts_iter n r s : same_parts s (Nat.iter n (triggerUpload P r) s).
Proof.
  induction n as [|n IH]; cbn [Nat.iter nat_rect]; [apply same_parts_refl|].
  eapply same_parts_trans; [exact IH | apply same_parts_triggerUpload].
Qed.

Lemma same_parts_handleFile_resume r h s : same_parts s (handleFile_resume P r h s).
Proof.
  unfold handleFile_resume. cbv zeta. destruct (onUploadReady P).
  - destruct (delayUpload h).
    + eapply same_parts_trans; [|apply same_parts_iter]. repeat split.
    + eapply same_parts_trans; [|apply same_parts_triggerUpload].
      eapply same_parts_trans; [|apply same_parts_iter]. repeat split.
  - eapply same_parts_trans; [|apply same_parts_triggerUpload]. repeat split.
Qed.

Lemma parts_uploadFile_resume r p s e :
  heap s !! r = Some e ->
  files (uploadFile_resume P r p s) = files s /\
  next_id (uploadFile_resume P r p s) = next_id s /\
  xhrs (uploadFile_resume P r p s) = if no_url p then xhrs s else xhrs s ++ [r].
Proof.
  intros He.
  destruct (params_cases p) as [Hno | (target & method & fields & headers & extraMeta & -> & Hne)].
  - rewrite (uploadFile_resume_no_url P r p s Hno), Hno. apply same_parts_status.
  - unfold uploadFile_resume, no_url. cbn [p_url]. rewrite Hne, He. repeat split.
Qed.

Lemma same_parts_on_progress x loaded total s : same_parts s (on_progress x loaded total s).
Proof. unfold on_progress. destruct (xhrs s !! x); repeat split. Qed.

Lemma same_parts_on_readystatechange x rs st s :
  same_parts s (on_readystatechange P x rs st s).
Proof.
  unfold on_readystatechange. destruct (xhrs s !! x) as [r|]; [|apply same_parts_refl].
  destruct (negb (rs =? 2) && negb (rs =? 4)); [apply same_parts_refl|].
  destruct (st =? 0); [apply same_parts_status|].
  destruct (st <? 400); [|apply same_parts_status].
  destruct (parts_handleChangeStatus P r
              (if rs =? 4
               then set_status r done
                      (if rs =? 2 then set_status r headers_received
                                         (set_percent r (of_Z 100) s)
                       else set_percent r (of_Z 100) s)
               else if rs =? 2 then set_status r headers_received
                                      (set_percent r (of_Z 100) s)
                    else set_percent r (of_Z 100) s))
    as (_ & H1 & H2 & H3 & _).
  repeat split; cbn [forceUpdate emit files next_id xhrs];
    [rewrite H1 | rewrite H2 | rewrite H3]; destruct (rs =? 2), (rs =? 4); reflexivity.
Qed.

Lemma same_parts_handleCancel _id s : same_parts s (handleCancel P _id s).
Proof.
  unfold handleCancel.
  destruct (findIndex (heap s) _id (files s)) as [i|]; [|apply same_parts_refl].
  destruct (files s !! i) as [r|]; [|apply same_parts_refl].
  destruct (heap s !! r) as [e|]; [|apply same_parts_refl].
  destruct (e_xhr e); [|apply same_parts_refl]. destruct (onCancel P); repeat split.
Qed.

End Parts.

(** ** The list of entries *)

Section Files.

Context (P : Props).
Implicit Types (s : State) (r : ref) (e : Entry).

Lemma accepted_type_allowed s file :
  accepted P s file <->
  admissible P file = true /\ Z.of_nat (length (files s)) < maxFiles P.
Proof.
  unfold accepted, admissible, type_allowed. rewrite Bool.andb_true_iff.
  destruct (allowedTypePrefixes P); tauto.
Qed.

Lemma handleFile_parts file now s :
  accepted P s file ->
  files (handleFile P file now s) = files s ++ [length (heap s)] /\
  next_id (handleFile P file now s) = next_id s + 1 /\
  xhrs (handleFile P file now s) = xhrs s.
Proof.
  intros Hadm. rewrite (handleFile_accepted P s file now Hadm). cbv zeta.
  destruct (f_size file >? maxSizeBytes P).
  - destruct (same_parts_status P (length (heap s)) error_file_size
                (registered P s file now)) as (H1 & H2 & H3).
    rewrite H1, H2, H3. repeat split.
  - destruct (same_parts_generatePreview P (length (heap s))
                (registered P s file now)) as (H1 & H2 & H3).
    rewrite H1, H2, H3. repeat split.
Qed.

(** What each event does to the list, the counter and the listeners. *)
Lemma step_parts s ev s' :
  step P s ev = Some s' ->
  match ev with
  | EvHandleFile file now =>
      s' = s \/
      (accepted P s file /\ files s' = files s ++ [length (heap s)] /\
       next_id s' = next_id s + 1 /\ xhrs s' = xhrs s)
  | EvRemove _id =>
      next_id s' = next_id s /\ xhrs s' = xhrs s /\
      files s' = match findIndex (heap s) _id (files s) with
                 | Some i => delete i (files s)
                 | None => files s
                 end
  | EvParams r p =>
      files s' = files s /\ next_id s' = next_id s /\
      xhrs s' = if no_url p then xhrs s else xhrs s ++ [r]
  | _ => same_parts s s'
  end.
Proof.
  destruct ev as [file now|r d|r|r h|r|r p|x loaded total|x rs st|i|i];
    cbn [step].
  - intros [= <-]. destruct (handleFile_cases P file now s) as [Hs | Hadm].
    + now left.
    + right. split; [exact Hadm|]. now apply handleFile_parts.
  - destruct (heap s !! r) as [e|] eqn:He; [|discriminate].
    destruct (e_activation e) as [|k u ty|] eqn:Ha; try discriminate.
    intros [= <-]. apply same_parts_generatePreview_resume.
  - destruct (heap s !! r) as [e|] eqn:He; [|discriminate].
    destruct (e_activation e) as [|k u ty|] eqn:Ha; try discriminate.
    intros [= <-]. apply same_parts_refl.
  - destruct (heap s !! r) as [e|] eqn:He; [|discriminate].
    destruct (e_activation e) as [|k u ty|] eqn:Ha; try discriminate.
    intros [= <-]. apply same_parts_handleFile_resume.
  - destruct (heap s !! r) as [e|] eqn:He; [|discriminate].
    destruct (e_triggerUpload e) eqn:Hex; [|discriminate].
    intros [= <-]. apply same_parts_triggerUpload.
  - destruct (heap s !! r) as [e|] eqn:He; [|discriminate].
    destruct (e_awaiting_params e) as [|n] eqn:Hn; [discriminate|].
    intros [= <-].
    exact (parts_uploadFile_resume P r p (modify r (entry_awaiting n) s)
             (entry_awaiting n e) (lookup_modify r _ s e He)).
  - destruct (xhrs s !! x) as [r|] eqn:Hx; [|discriminate].
    intros [= <-]. apply same_parts_on_progress.
  - destruct (xhrs s !! x) as [r|] eqn:Hx; [|discriminate].
    intros [= <-]. apply same_parts_on_readystatechange.
  - intros [= <-]. apply same_parts_handleCancel.
  - intros [= <-]. unfold handleRemove.
    destruct (findIndex (heap s) i (files s)) as [idx|] eqn:Hi; [|repeat split].
    destruct (findIndex_Some _ _ _ _ Hi) as (r & e & Hl & _). rewrite Hl.
    destruct (onRemove P); repeat split.
Qed.

Lemma run_inv_from (Q : State -> Prop) :
  Q init ->
  (forall s ev s', Inv P s -> Q s -> step P s ev = Some s' -> Q s') ->
  forall s, reachable P s -> Q s.
Proof.
  intros H0 Hstep s [evs Hrun].
  assert (Hgen : forall evs s0, Inv P s0 -> Q s0 -> run P s0 evs = Some s -> Q s).
  { clear evs Hrun. induction evs as [|ev evs IH]; cbn; intros s0 HI HQ.
    - now intros [= <-].
    - destruct (step P s0 ev) as [s1|] eqn:Hs; [|discriminate].
      apply IH.
      + apply (step_ok P s0 ev s1 HI Hs).
      + apply (Hstep s0 ev s1 HI HQ Hs). }
  apply (Hgen evs init (inv_init P) H0 Hrun).
Qed.

(** X1.  The list never holds more than [maxFiles] entries (none, for a
    negative [maxFiles]). *)
Theorem list_within_maxFiles (s : State) :
  reachable P s -> Z.of_nat (length (files s)) <= Z.max 0 (maxFiles P).
Proof.
  apply (run_inv_from (fun s => Z.of_nat (length (files s)) <= Z.max 0 (maxFiles P))).
  - cbn. lia.
  - intros s0 ev s1 _ HQ Hs. pose proof (step_parts s0 ev s1 Hs) as Hp.
    destruct ev; try (destruct Hp as (-> & _); exact HQ).
    + destruct Hp as [-> | ((_ & Hlt) & -> & _)]; [exact HQ|].
      rewrite length_app. cbn [length]. lia.
    + destruct Hp as (_ & _ & ->).
      destruct (findIndex (heap s0) _id (files s0)); [|exact HQ].
      pose proof (sublist_length _ _ (sublist_delete (files s0) n)). lia.
Qed.

Lemma StronglySorted_delete (l : list nat) (i : nat) :
  StronglySorted lt l -> StronglySorted lt (delete i l).
Proof.
  intros H. revert i. induction H as [|x l Hs IH Hx]; intros [|i]; cbn.
  - constructor.
  - constructor.
  - exact Hs.
  - constructor; [apply IH|]. now apply Forall_delete.
Qed.

Lemma StronglySorted_snoc (l : list nat) (x : nat) :
  StronglySorted lt l -> Forall (fun y => (y < x)%nat) l -> StronglySorted lt (l ++ [x]).
Proof.
  induction 1 as [|y l Hs IH Hy]; intros Hl; cbn.
  - repeat constructor.
  - apply Forall_cons in Hl. destruct Hl as [Hyx Hl]. constructor; [now apply IH|].
    apply Forall_app. split; [exact Hy|]. now constructor.
Qed.

(** One step keeps the references of the list increasing and in range. *)
Lemma files_sorted_step (s0 : State) (ev : Event) (s1 : State) :
  Inv P s0 ->
  StronglySorted lt (files s0) /\ Forall (fun r => (r < length (heap s0))%nat) (files s0) ->
  step P s0 ev = Some s1 ->
  StronglySorted lt (files s1) /\ Forall (fun r => (r < length (heap s1))%nat) (files s1).
Proof.
  intros HI [Hs Hv] Hstep.
  pose proof (step_parts s0 ev s1 Hstep) as Hp.
  destruct (step_ok P s0 ev s1 HI Hstep) as [_ [_ _ Hlen _]].
  assert (Hv1 : Forall (fun r => (r < length (heap s1))%nat) (files s0)).
  { eapply Forall_impl; [exact Hv|]. cbn. intros r Hr. lia. }
  destruct ev; try (destruct Hp as (-> & _); split; assumption).
  + destruct Hp as [-> | (_ & -> & Hid & _)]; [split; assumption|].
    split; [now apply StronglySorted_snoc|].
    apply Forall_app. split; [exact Hv1|]. constructor; [|constructor].
    pose proof (inv_id _ _ HI).
    destruct (step_ok P s0 _ s1 HI Hstep) as [HI1 _].
    pose proof (inv_id _ _ HI1). lia.
  + destruct Hp as (_ & _ & ->).
    destruct (findIndex (heap s0) _id (files s0)); [|split; assumption].
    split; [now apply StronglySorted_delete | now apply Forall_delete].
Qed.

(** X2.  The list holds existing objects only, each at most once, in the
    order in which they were accepted: the references in [_files] are
    strictly increasing allocation indices. *)
Theorem list_in_acceptance_order (s : State) :
  reachable P s ->
  StronglySorted lt (files s) /\ Forall (fun r => (r < length (heap s))%nat) (files s).
Proof.
  revert s.
  apply (run_inv_from
           (fun s => StronglySorted lt (files s)
                     /\ Forall (fun r => (r < length (heap s))%nat) (files s))).
  - split; constructor.
  - intros s0 ev s1 HI HQ Hstep. exact (files_sorted_step s0 ev s1 HI HQ Hstep).
Qed.

Lemma handleFile_refused file now s :
  ~ accepted P s file -> handleFile P file now s = s.
Proof. intros H. destruct (handleFile_cases P file now s); tauto. Qed.

Lemma handleFile_heap_length file now s :
  accepted P s file -> length (heap (handleFile P file now s)) = S (length (heap s)).
Proof.
  intros H. rewrite (heap_handleFile P file now s H), length_alter, length_app.
  cbn [length]. lia.
Qed.

Lemma handleFiles_run dropped s :
  run P s (drop_events dropped) = Some (handleFiles P dropped s).
Proof.
  revert s. induction dropped as [|[file now] rest IH]; intros s; cbn; [reflexivity|].
  apply IH.
Qed.

(** What [handleRemove] does when the entry at place [i] is the first with
    the id, for a host whose [onRemove] leaves the list alone. *)
Lemma handleRemove_at (s : State) (_id : Z) (i : nat) (r : ref) (e : Entry) :
  files s !! i = Some r ->
  heap s !! r = Some e ->
  m_id (e_meta e) = _id ->
  (forall j r' e', (j < i)%nat -> files s !! j = Some r' -> heap s !! r' = Some e' ->
                   m_id (e_meta e') <> _id) ->
  exists s',
    step P s (EvRemove _id) = Some s' /\
    files s' = delete i (files s) /\
    heap s' = heap s /\ xhrs s' = xhrs s /\ next_id s' = next_id s /\
    trace s' = trace s ++ (if onRemove P then [OnRemove r] else []) ++ [ForceUpdate].
Proof.
  intros Hl Hh Hid Hfirst. cbn [step]. unfold handleRemove.
  rewrite (findIndex_first _ _ _ i r e Hl Hh Hid Hfirst), Hl.
  eexists. split; [reflexivity|].
  destruct (onRemove P); cbn; repeat split; try reflexivity.
  now rewrite <- app_assoc.
Qed.

Lemma sorted_delete_not_in (l : list nat) (i : nat) (r : nat) :
  StronglySorted lt l -> l !! i = Some r -> ~ In r (delete i l).
Proof.
  intros H. revert i. induction H as [|x l Hs IH Hx]; intros [|i]; cbn; try discriminate.
  - intros [= ->] Hin. rewrite Forall_forall in Hx.
    specialize (Hx r (proj2 (list_elem_of_In _ _) Hin)). lia.
  - intros Hl [->|Hin]; [|exact (IH i Hl Hin)].
    rewrite Forall_forall in Hx.
    specialize (Hx r (list_elem_of_lookup_2 _ _ _ Hl)). lia.
Qed.

(** X5.  Removing an entry whose request is in flight does not stop the
    upload: no [abort] is issued, and when the request completes the
    listeners still set [done] on the removed object and call
    [onChangeStatus] for it, although the list no longer holds it. *)
Theorem removed_entry_still_reports (s : State) (_id : Z) (i : nat) (r : ref)
        (e : Entry) (x : xhrid) (status : Z) :
  reachable P s ->
  files s !! i = Some r ->
  heap s !! r = Some e ->
  m_id (e_meta e) = _id ->
  (forall j r' e', (j < i)%nat -> files s !! j = Some r' -> heap s !! r' = Some e' ->
                   m_id (e_meta e') <> _id) ->
  e_xhr e = Some x ->
  status <> 0 -> status < 400 ->
  exists s1 s2 e2,
    step P s (EvRemove _id) = Some s1 /\
    step P s1 (EvReadyState x 4 status) = Some s2 /\
    ~ In r (files s2) /\
    heap s2 !! r = Some e2 /\
    m_status (e_meta e2) = done /\
    trace s2 = trace s ++ (if onRemove P then [OnRemove r] else []) ++ [ForceUpdate]
                 ++ notify P r done ++ [ForceUpdate].
Proof.
  intros Hreach Hl Hh Hid Hfirst Hx H0 H4.
  pose proof (reachable_inv P s Hreach) as HI.
  assert (Hsorted : StronglySorted lt (files s)).
  { refine (proj1 (run_inv_from
             (fun s => StronglySorted lt (files s)
                       /\ Forall (fun r => (r < length (heap s))%nat) (files s))
             _ files_sorted_step s Hreach)).
    split; constructor. }
  destruct (handleRemove_at s _id i r e Hl Hh Hid Hfirst)
    as (s1 & Hs1 & Hf1 & Hh1 & Hx1 & _ & Ht1).
  pose proof (proj2 (ok_listen _ _ _ _ (inv_entries _ _ HI r e Hh) x) Hx) as Hxs.
  exists s1.
  assert (Hstep2 : step P s1 (EvReadyState x 4 status)
                   = Some (forceUpdate (handleChangeStatus P r
                             (set_status r done (set_percent r (of_Z 100) s1))))).
  { cbn [step]. rewrite Hx1, Hxs. unfold on_readystatechange. rewrite Hx1, Hxs.
    cbn [Z.eqb Pos.eqb negb andb].
    destruct (Z.eqb_spec status 0); [contradiction|].
    destruct (Z.ltb_spec status 400); [reflexivity|lia]. }
  rewrite (status_notify_render P r done (set_percent r (of_Z 100) s1)
             (entry_meta (meta_percent (of_Z 100)) e)) in Hstep2
    by (apply lookup_modify; now rewrite Hh1).
  eexists _, _. split; [exact Hs1|]. split; [exact Hstep2|].
  cbn [files heap trace set_percent modify]. rewrite Hf1, Hh1, Ht1.
  split; [now apply sorted_delete_not_in|].
  rewrite !list_lookup_alter_eq, Hh. cbn.
  split; [reflexivity|]. split; [reflexivity|].
  now rewrite <- !app_assoc.
Qed.

End Files.

(** ** One object at a time *)

Section Changes.

Context (P : Props).
Implicit Types (s : State) (r : ref) (e : Entry).

Lemma preview_only_refl e : preview_only e e.
Proof. split; reflexivity. Qed.

Lemma preview_only_trans e1 e2 e3 :
  preview_only e1 e2 -> preview_only e2 e3 -> preview_only e1 e3.
Proof. intros [] []. split; congruence. Qed.

Lemma preview_blocks_on_only u ty ks e : preview_only e (preview_blocks_on P u ty ks e).
Proof.
  induction ks as [|k ks IH]; cbn [preview_blocks_on].
  - split; reflexivity.
  - destruct (startsWith ty (kind_prefix k) && includes (previewTypes P) (kind_name k));
      [|exact IH].
    destruct k; split; reflexivity.
Qed.

Lemma preview_blocks_on_suspended u ty ks e :
  e_activation (preview_blocks_on P u ty ks e) <> Returned.
Proof.
  induction ks as [|k ks IH]; cbn [preview_blocks_on]; [discriminate|].
  destruct (startsWith ty (kind_prefix k) && includes (previewTypes P) (kind_name k));
    [discriminate | exact IH].
Qed.

Lemma generatePreview_on_only u e : preview_only e (generatePreview_on P u e).
Proof.
  unfold generatePreview_on. destruct (no_media (m_type (e_meta e))).
  - split; reflexivity.
  - apply preview_blocks_on_only.
Qed.

Lemma generatePreview_on_suspended u e :
  e_activation (generatePreview_on P u e) <> Returned.
Proof.
  unfold generatePreview_on. destruct (no_media (m_type (e_meta e)));
    [discriminate | apply preview_blocks_on_suspended].
Qed.

Lemma generatePreview_resume_on_only k u ty d e :
  preview_only e (generatePreview_resume_on P k u ty d e).
Proof.
  unfold generatePreview_resume_on.
  destruct k; (eapply preview_only_trans; [|apply preview_blocks_on_only]);
    split; reflexivity.
Qed.

Lemma generatePreview_resume_on_suspended k u ty d e :
  e_activation (generatePreview_resume_on P k u ty d e) <> Returned.
Proof.
  unfold generatePreview_resume_on. destruct k; apply preview_blocks_on_suspended.
Qed.

Lemma triggerUpload_on_done e :
  e_triggered e <> Some false -> triggerUpload_on P e = e.
Proof.
  unfold triggerUpload_on. destruct (e_triggered e) as [[|]|]; congruence.
Qed.

Lemma triggerUpload_on_first e :
  e_triggered e = Some false ->
  triggerUpload_on P e
  = if getUploadParams P then
      entry_meta (meta_status uploading)
        (entry_awaiting (S (e_awaiting_params e)) (entry_triggered true e))
    else entry_meta (meta_status done) (entry_triggered true e).
Proof. unfold triggerUpload_on. now intros ->. Qed.

Lemma iter_triggerUpload_on n e :
  Nat.iter n (triggerUpload_on P) e
  = match n with O => e | S _ => triggerUpload_on P e end.
Proof.
  induction n as [|n IH]; [reflexivity|]. cbn [Nat.iter nat_rect].
  unfold Nat.iter in IH. rewrite IH. destruct n; [reflexivity|].
  apply triggerUpload_on_done.
  unfold triggerUpload_on. destruct (e_triggered e) as [[|]|] eqn:Et; try congruence.
  destruct (getUploadParams P); cbn; discriminate.
Qed.

(** What [handleFile] does after preview generation: the upload is
    started once, or not at all. *)
Lemma handleFile_resume_on_cases h e :
  handleFile_resume_on P h e
  = let e1 := entry_triggered false (entry_activation Returned e) in
    let e2 := if onUploadReady P then entry_triggerUpload e1 else e1 in
    if started_at_resume P h then triggerUpload_on P e2 else e2.
Proof.
  unfold handleFile_resume_on, started_at_resume. cbv zeta.
  destruct (onUploadReady P); cbn [negb orb]; [|reflexivity].
  rewrite iter_triggerUpload_on.
  destruct (hook_calls h) as [|n]; cbn [Nat.ltb Nat.leb orb].
  - destruct (delayUpload h); reflexivity.
  - rewrite Bool.orb_true_r. destruct (delayUpload h); [reflexivity|].
    apply triggerUpload_on_done.
    cbn. destruct (getUploadParams P); cbn; discriminate.
Qed.

Lemma change_file s ev e : e_file (change P s ev e) = e_file e.
Proof.
  destruct ev as [file now|r d|r|r h|r|r p|x loaded total|x rs st|i|i];
    cbn [change]; try reflexivity.
  - destruct (f_size file >? maxSizeBytes P); [reflexivity|].
    apply (po_file _ _ (generatePreview_on_only _ e)).
  - destruct (e_activation e); try reflexivity.
    apply (po_file _ _ (generatePreview_resume_on_only _ _ _ _ e)).
  - rewrite handleFile_resume_on_cases. cbv zeta.
    destruct (started_at_resume P h), (onUploadReady P); try reflexivity;
      unfold triggerUpload_on; cbn; destruct (getUploadParams P); reflexivity.
  - unfold triggerUpload_on. destruct (e_triggered e) as [[|]|]; try reflexivity.
    destruct (getUploadParams P); reflexivity.
  - unfold uploadFile_resume_on. destruct (no_url p); reflexivity.
  - unfold on_readystatechange_on.
    destruct (negb (rs =? 2) && negb (rs =? 4)); [reflexivity|].
    destruct (st =? 0); [reflexivity|]. destruct (st <? 400); [|reflexivity].
    destruct (rs =? 2), (rs =? 4); reflexivity.
Qed.

Lemma change_status s ev e :
  status_kept ev -> status_forward e (change P s ev e)
  \/ (exists file now, ev = EvHandleFile file now).
Proof.
  intros Hk.
  destruct ev as [file now|r d|r|r h|r|r p|x loaded total|x rs st|i|i];
    cbn [change]; try (left; left; reflexivity).
  - right. eauto.
  - left. left. destruct (e_activation e); try reflexivity.
    apply (po_status _ _ (generatePreview_resume_on_only _ _ _ _ e)).
  - left. rewrite handleFile_resume_on_cases. cbv zeta.
    destruct (started_at_resume P h), (onUploadReady P);
      try (left; reflexivity);
      unfold triggerUpload_on; cbn; destruct (getUploadParams P); right; discriminate.
  - left. unfold triggerUpload_on. destruct (e_triggered e) as [[|]|];
      try (left; reflexivity).
    destruct (getUploadParams P); right; discriminate.
  - left. unfold uploadFile_resume_on. destruct (no_url p) eqn:Hno.
    + right. discriminate.
    + left. cbn. destruct p as [params|]; [|reflexivity].
      cbn in Hk. destruct (p_meta params); [|reflexivity].
      cbn. now rewrite Hk.
  - left. unfold on_readystatechange_on.
    destruct (negb (rs =? 2) && negb (rs =? 4)); [left; reflexivity|].
    destruct (st =? 0); [right; discriminate|].
    destruct (st <? 400); [|right; discriminate].
    destruct (rs =? 2), (rs =? 4); try (right; discriminate). left. reflexivity.
Qed.

(** X6.  An event changes no object but the one it addresses: every other
    entry, whether still in the list or removed, is left exactly as it
    was.  Cancel and remove change no object at all. *)
Theorem other_entries_untouched (s : State) (ev : Event) (s' : State) (r : ref)
        (e : Entry) :
  step P s ev = Some s' ->
  heap s !! r = Some e ->
  addressed s ev <> Some r ->
  heap s' !! r = Some e.
Proof.
  intros Hstep He Hne.
  pose proof (lookup_lt_Some _ _ _ He) as Hlt.
  destruct (step_heap P s ev s' Hstep) as [Hh | [_ ->]]; [|exact He].
  rewrite Hh. destruct ev; cbn [addressed] in *;
    try (rewrite list_lookup_alter_ne by congruence; exact He);
    try exact He.
  - rewrite list_lookup_alter_ne by lia. now rewrite lookup_app_l.
  - destruct (xhrs s !! xhr) as [r0|]; [|exact He].
    rewrite list_lookup_alter_ne by congruence. exact He.
  - destruct (xhrs s !! xhr) as [r0|]; [|exact He].
    rewrite list_lookup_alter_ne by congruence. exact He.
Qed.

(** One step, seen from an object that exists already. *)
Lemma step_entry s ev s' r e :
  step P s ev = Some s' -> heap s !! r = Some e ->
  heap s' !! r = Some e \/
  (addressed s ev = Some r /\ heap s' !! r = Some (change P s ev e) /\
   forall file now, ev <> EvHandleFile file now).
Proof.
  intros Hstep He.
  pose proof (lookup_lt_Some _ _ _ He) as Hlt.
  destruct (step_heap P s ev s' Hstep) as [Hh | [_ ->]]; [|now left].
  destruct (decide (addressed s ev = Some r)) as [Ha|Ha]; cycle 1.
  { left. rewrite Hh. destruct ev; cbn [addressed] in *;
      try (rewrite list_lookup_alter_ne by congruence; exact He);
      try exact He.
    - rewrite list_lookup_alter_ne by lia. now rewrite lookup_app_l.
    - destruct (xhrs s !! xhr) as [r0|]; [|exact He].
      rewrite list_lookup_alter_ne by congruence. exact He.
    - destruct (xhrs s !! xhr) as [r0|]; [|exact He].
      rewrite list_lookup_alter_ne by congruence. exact He. }
  right. split; [exact Ha|]. rewrite Hh.
  destruct ev; cbn [addressed] in *; try discriminate Ha;
    [ injection Ha as <-; lia | .. ];
    try (injection Ha as ->); try rewrite Ha;
    rewrite list_lookup_alter_eq, He; (split; [reflexivity|discriminate]).
Qed.

End Changes.

(** ** What the invariant says about one entry *)

Section Entries.

Context (P : Props).
Implicit Types (s : State) (r : ref) (e : Entry).

Lemma started_le_1 e : (started P e <= 1)%nat.
Proof. unfold started. destruct (getUploadParams P), (e_triggered e) as [[|]|]; lia. Qed.

Lemma started_0 e : e_triggered e <> Some true -> started P e = 0%nat.
Proof.
  unfold started. destruct (getUploadParams P), (e_triggered e) as [[|]|]; congruence.
Qed.

Lemma started_1 e :
  started P e = 1%nat -> e_triggered e = Some true /\ getUploadParams P = true.
Proof.
  unfold started. destruct (getUploadParams P), (e_triggered e) as [[|]|];
    try discriminate. auto.
Qed.

Lemma inv_not_started s r e :
  Inv P s -> heap s !! r = Some e -> e_triggered e <> Some true ->
  e_awaiting_params e = 0%nat /\ e_xhr e = None /\
  count (is_start r) (trace s) = 0%nat /\ count (is_send r) (trace s) = 0%nat.
Proof.
  intros HI He Ht. destruct (inv_entries _ _ HI r e He) as [_ _ O3 O4 O5 _].
  rewrite (started_0 e Ht) in *. unfold sent in O5.
  repeat split; try lia. destruct (e_xhr e); [lia|reflexivity].
Qed.

Lemma inv_returned s r e :
  Inv P s -> heap s !! r = Some e -> e_triggered e <> None -> e_activation e = Returned.
Proof.
  intros HI He Ht. destruct (inv_entries _ _ HI r e He) as [O1 _ _ _ _ _].
  destruct (e_activation e) eqn:Ha; [reflexivity| |];
    exfalso; apply Ht, O1; discriminate.
Qed.

Lemma inv_suspended s r e :
  Inv P s -> heap s !! r = Some e -> e_activation e <> Returned ->
  e_triggered e = None /\ e_triggerUpload e = false /\
  e_awaiting_params e = 0%nat /\ e_xhr e = None /\
  count (is_start r) (trace s) = 0%nat /\ count (is_send r) (trace s) = 0%nat.
Proof.
  intros HI He Ha. pose proof (inv_entries _ _ HI r e He) as Hok.
  pose proof (ok_act _ _ _ _ Hok Ha) as Hn.
  assert (Ht : e_triggered e <> Some true) by congruence.
  destruct (inv_not_started s r e HI He Ht) as (H1 & H2 & H3 & H4).
  repeat split; auto.
  destruct (e_triggerUpload e) eqn:Hex; [|reflexivity].
  exfalso. now apply (ok_exposed _ _ _ _ Hok).
Qed.

Lemma inv_awaiting s r e n :
  Inv P s -> heap s !! r = Some e -> e_awaiting_params e = S n ->
  n = 0%nat /\ e_triggered e = Some true /\ e_activation e = Returned /\
  e_xhr e = None /\ getUploadParams P = true.
Proof.
  intros HI He Hn. destruct (inv_entries _ _ HI r e He) as [_ _ _ O4 O5 _].
  pose proof (started_le_1 e) as Hle.
  assert (Hs : started P e = 1%nat) by lia.
  destruct (started_1 e Hs) as [Ht Hg].
  repeat split; auto; try lia.
  - apply (inv_returned s r e HI He). congruence.
  - unfold sent in O5. destruct (e_xhr e); [lia|reflexivity].
Qed.

Lemma inv_handle s r e x :
  Inv P s -> heap s !! r = Some e -> e_xhr e = Some x ->
  e_triggered e = Some true /\ e_activation e = Returned /\
  e_awaiting_params e = 0%nat /\ getUploadParams P = true /\ xhrs s !! x = Some r.
Proof.
  intros HI He Hx. destruct (inv_entries _ _ HI r e He) as [_ _ _ O4 O5 O6].
  pose proof (started_le_1 e) as Hle. unfold sent in O5. rewrite Hx in O5.
  assert (Hs : started P e = 1%nat) by lia.
  destruct (started_1 e Hs) as [Ht Hg].
  repeat split; auto; try lia.
  - apply (inv_returned s r e HI He). congruence.
  - now apply O6.
Qed.

Lemma inv_listener s x r :
  Inv P s -> xhrs s !! x = Some r ->
  exists e, heap s !! r = Some e /\ e_xhr e = Some x.
Proof.
  intros HI Hx. destruct (entry_of_listener P x r s HI Hx) as (e & He & Hxe & _).
  eauto.
Qed.

(** An event other than the decoder's ready callback leaves an entry that
    waits for its decoder as it is. *)
Lemma decode_waits_step s ev s' r e k u ty :
  Inv P s -> step P s ev = Some s' ->
  heap s !! r = Some e -> e_activation e = AwaitingDecode k u ty ->
  (forall d, ev <> EvDecodeReady r d) ->
  heap s' !! r = Some e.
Proof.
  intros HI Hstep He Ha Hev.
  assert (Hsusp : e_activation e <> Returned) by (rewrite Ha; discriminate).
  destruct (inv_suspended s r e HI He Hsusp) as (Ht & Hex & Haw & Hx & _).
  destruct (step_entry P s ev s' r e Hstep He) as [H | (Hadd & Hch & _)]; [exact H|].
  destruct ev as [file now|r0 d|r0|r0 h|r0|r0 p|x loaded total|x rs st|i|i];
    cbn [addressed step change] in *; try discriminate.
  - exfalso. injection Hadd as Hr. pose proof (lookup_lt_Some _ _ _ He). lia.
  - exfalso. injection Hadd as ->. now apply (Hev d).
  - exact Hch.
  - exfalso. injection Hadd as ->. rewrite He, Ha in Hstep. discriminate.
  - exfalso. injection Hadd as ->. rewrite He, Hex in Hstep. discriminate.
  - exfalso. injection Hadd as ->. rewrite He, Haw in Hstep. discriminate.
  - exfalso. destruct (inv_listener s x r HI Hadd) as (e0 & He0 & Hx0). congruence.
  - exfalso. destruct (inv_listener s x r HI Hadd) as (e0 & He0 & Hx0). congruence.
Qed.

(** X8.  If the decoder never reports ready (for instance because it
    reports an error), the entry stays exactly as it is whatever else
    happens: [handleFile] is never resumed for it, and no upload is ever
    started for it. *)
Theorem undecodable_file_never_uploads (s : State) (evs : list Event) (s' : State)
        (r : ref) (e : Entry) (k : MediaKind) (u : url) (ty : string) :
  reachable P s ->
  heap s !! r = Some e ->
  e_activation e = AwaitingDecode k u ty ->
  run P s evs = Some s' ->
  Forall (fun ev => forall d, ev <> EvDecodeReady r d) evs ->
  heap s' !! r = Some e /\
  count (is_start r) (trace s') = 0%nat /\ count (is_send r) (trace s') = 0%nat.
Proof.
  intros Hreach He Ha Hrun Hevs.
  pose proof (reachable_inv P s Hreach) as HI.
  assert (Hkeep : heap s' !! r = Some e).
  { clear Hreach. revert s HI He Hrun.
    induction Hevs as [|ev evs Hev _ IH]; cbn; intros s HI He.
    - now intros [= <-].
    - destruct (step P s ev) as [s1|] eqn:Hs; [|discriminate].
      apply IH.
      + apply (step_ok P s ev s1 HI Hs).
      + apply (decode_waits_step s ev s1 r e k u ty HI Hs He Ha Hev). }
  split; [exact Hkeep|].
  pose proof (run_inv P evs s s' HI Hrun) as HI'.
  assert (Hsusp : e_activation e <> Returned) by (rewrite Ha; discriminate).
  destruct (inv_suspended s' r e HI' Hkeep Hsusp) as (_ & _ & _ & _ & H1 & H2).
  auto.
Qed.

Lemma disciplined_settled e :
  e_activation e = Returned -> e_triggered e <> Some false ->
  e_awaiting_params e = 0%nat -> disciplined e.
Proof. intros H1 H2 H3. split; intros; congruence. Qed.

Lemma uploadFile_resume_on_ctl p x e :
  e_activation (uploadFile_resume_on p x e) = e_activation e /\
  e_triggered (uploadFile_resume_on p x e) = e_triggered e /\
  e_awaiting_params (uploadFile_resume_on p x e) = e_awaiting_params e /\
  e_triggerUpload (uploadFile_resume_on p x e) = e_triggerUpload e.
Proof. unfold uploadFile_resume_on. destruct (no_url p); repeat split. Qed.

Lemma on_readystatechange_on_ctl rs st e :
  e_activation (on_readystatechange_on rs st e) = e_activation e /\
  e_triggered (on_readystatechange_on rs st e) = e_triggered e /\
  e_awaiting_params (on_readystatechange_on rs st e) = e_awaiting_params e /\
  e_triggerUpload (on_readystatechange_on rs st e) = e_triggerUpload e /\
  e_xhr (on_readystatechange_on rs st e) = e_xhr e.
Proof.
  unfold on_readystatechange_on.
  destruct (negb (rs =? 2) && negb (rs =? 4)); [repeat split|].
  destruct (st =? 0); [repeat split|]. destruct (st <? 400); [|repeat split].
  destruct (rs =? 2), (rs =? 4); repeat split.
Qed.

Lemma disciplined_triggerUpload_on e :
  disciplined e -> e_activation e = Returned ->
  (e_triggered e = Some false -> e_awaiting_params e = 0%nat) ->
  disciplined (triggerUpload_on P e).
Proof.
  intros D Ha Haw. destruct (e_triggered e) as [[|]|] eqn:Et;
    try (rewrite triggerUpload_on_done by congruence; exact D).
  rewrite (triggerUpload_on_first P e Et). specialize (Haw eq_refl).
  destruct (getUploadParams P); split; cbn; intros; congruence.
Qed.

Lemma disciplined_resume h e :
  disciplined e -> e_activation e = AwaitingPreview -> e_awaiting_params e = 0%nat ->
  disciplined (handleFile_resume_on P h e).
Proof.
  intros D Ha Haw. rewrite handleFile_resume_on_cases. cbv zeta.
  assert (Hprep : m_status (e_meta e) = preparing)
    by (apply (di_suspended _ D); rewrite Ha; discriminate).
  assert (D2 : disciplined (if onUploadReady P
                            then entry_triggerUpload
                                   (entry_triggered false (entry_activation Returned e))
                            else entry_triggered false (entry_activation Returned e))).
  { destruct (onUploadReady P); split; cbn; intros; congruence. }
  destruct (started_at_resume P h); [|exact D2].
  apply disciplined_triggerUpload_on; [exact D2| |];
    destruct (onUploadReady P); cbn; auto.
Qed.

(** The status discipline holds for every entry of a reachable state. *)
Lemma disciplined_step s ev s' :
  Inv P s -> (forall r e, heap s !! r = Some e -> disciplined e) ->
  step P s ev = Some s' ->
  forall r e', heap s' !! r = Some e' -> disciplined e'.
Proof.
  intros HI HD Hstep r e' He'.
  destruct (heap s !! r) as [e|] eqn:He.
  - pose proof (HD r e He) as D.
    destruct (step_entry P s ev s' r e Hstep He) as [H | (Hadd & Hch & Hnf)].
    { assert (e' = e) by congruence. now subst. }
    assert (e' = change P s ev e) by congruence. subst e'. clear He' Hch.
    destruct ev as [file now|r0 d|r0|r0 h|r0|r0 p|x loaded total|x rs st|i|i];
      cbn [addressed step change] in *; try discriminate.
    + exfalso. now apply (Hnf file now).
    + injection Hadd as ->. rewrite He in Hstep.
      destruct (e_activation e) as [|k u ty|] eqn:Ha; try discriminate.
      pose proof (generatePreview_resume_on_only P k u ty d e) as Hpo.
      assert (Hprep : m_status (e_meta e) = preparing)
        by (apply (di_suspended _ D); rewrite Ha; discriminate).
      split; intros H; rewrite (po_status _ _ Hpo); try exact Hprep.
      apply (di_awaiting _ D). now rewrite <- (po_awaiting _ _ Hpo).
    + exact D.
    + injection Hadd as ->. rewrite He in Hstep.
      destruct (e_activation e) as [|k u ty|] eqn:Ha; try discriminate.
      apply disciplined_resume; auto.
      apply (inv_suspended s r e HI He). rewrite Ha. discriminate.
    + injection Hadd as ->. rewrite He in Hstep.
      destruct (e_triggerUpload e) eqn:Hex; [|discriminate].
      pose proof (ok_exposed _ _ _ _ (inv_entries _ _ HI r e He) Hex) as Hsome.
      apply disciplined_triggerUpload_on; auto.
      * apply (inv_returned s r e HI He Hsome).
      * intros Hf. apply (inv_not_started s r e HI He). congruence.
    + injection Hadd as ->. rewrite He in Hstep.
      destruct (e_awaiting_params e) as [|n] eqn:Hn; [discriminate|].
      destruct (inv_awaiting s r e n HI He Hn) as (-> & Ht & Ha & _).
      destruct (uploadFile_resume_on_ctl p (length (xhrs s)) (entry_awaiting 0 e))
        as (C1 & C2 & C3 & _).
      cbn [pred]. apply disciplined_settled; [rewrite C1 | rewrite C2 | rewrite C3];
        cbn; congruence.
    + destruct (inv_listener s x r HI Hadd) as (e0 & He0 & Hx0).
      assert (e0 = e) by congruence. subst e0.
      destruct (inv_handle s r e x HI He Hx0) as (Ht & Ha & Haw & _).
      apply disciplined_settled; cbn; congruence.
    + destruct (inv_listener s x r HI Hadd) as (e0 & He0 & Hx0).
      assert (e0 = e) by congruence. subst e0.
      destruct (inv_handle s r e x HI He Hx0) as (Ht & Ha & Haw & _).
      destruct (on_readystatechange_on_ctl rs st e) as (C1 & C2 & C3 & _).
      apply disciplined_settled; [rewrite C1 | rewrite C2 | rewrite C3]; congruence.
  - destruct (step_heap P s ev s' Hstep) as [Hh | [_ ->]]; [|congruence].
    apply lookup_ge_None in He. pose proof (lookup_lt_Some _ _ _ He') as Hlt.
    destruct ev as [file now|r0 d|r0|r0 h|r0|r0 p|x loaded total|x rs st|i|i];
      try (exfalso; revert Hlt; rewrite Hh; cbn [addressed];
           repeat match goal with
                  | |- context [match ?o with Some _ => _ | None => _ end] => destruct o
                  end; rewrite ?length_alter; lia).
    rewrite Hh, length_alter, length_app in Hlt. cbn [length] in Hlt.
    assert (r = length (heap s)) by lia. subst r.
    rewrite Hh, list_lookup_alter_eq, list_lookup_middle in He' by reflexivity.
    injection He' as <-. cbn [change].
    destruct (f_size file >? maxSizeBytes P).
    + apply disciplined_settled; reflexivity || discriminate.
    + pose proof (generatePreview_on_only P (next_url s)
                    (fresh_entry file now (next_id s))) as Hpo.
      split; intros H.
      * now rewrite (po_status _ _ Hpo).
      * rewrite (po_triggered _ _ Hpo) in H. discriminate.
      * rewrite (po_awaiting _ _ Hpo) in H. now contradiction H.
Qed.

Lemma reachable_disciplined s r e :
  reachable P s -> heap s !! r = Some e -> disciplined e.
Proof.
  intros Hreach. revert r e.
  apply (run_inv_from P (fun s => forall r e, heap s !! r = Some e -> disciplined e));
    [|exact disciplined_step|exact Hreach].
  intros r e H. cbn in H. rewrite lookup_nil in H. discriminate.
Qed.

(** X7.  Preview generation comes first: as long as [handleFile] is
    suspended on it, the entry is [preparing], the closure [triggerUpload]
    does not exist and is not exposed, the provider has not been called,
    no request was sent and the entry holds no handle. *)
Theorem nothing_starts_before_preview (s : State) (r : ref) (e : Entry) :
  reachable P s ->
  heap s !! r = Some e ->
  e_activation e <> Returned ->
  m_status (e_meta e) = preparing /\
  e_triggered e = None /\ e_triggerUpload e = false /\
  e_awaiting_params e = 0%nat /\ e_xhr e = None /\
  count (is_start r) (trace s) = 0%nat /\ count (is_send r) (trace s) = 0%nat.
Proof.
  intros Hreach He Ha. split.
  - apply (di_suspended _ (reachable_disciplined s r e Hreach He) Ha).
  - apply (inv_suspended s r e); [now apply reachable_inv|exact He|exact Ha].
Qed.

End Entries.

(** ** Batches *)

Section Batches.

Context (P : Props).
Implicit Types (s : State) (r : ref) (e : Entry).





End Batches.

(** ** Statuses *)

Section Statuses.

Context (P : Props).
Implicit Types (s : State) (r : ref) (e : Entry).

Lemma Status_eqb_eq (a b : Status) : Status_eqb a b = true <-> a = b.
Proof. destruct a, b; cbn; split; congruence. Qed.

Lemma status_in_spec s sts r :
  status_in s sts r = true <->
  exists e, heap s !! r = Some e /\ In (m_status (e_meta e)) sts.
Proof.
  unfold status_in. destruct (heap s !! r) as [e|].
  - rewrite existsb_exists. split.
    + intros (st & Hin & Heq). apply Status_eqb_eq in Heq. subst. eauto.
    + intros (e0 & [= <-] & Hin). exists (m_status (e_meta e)). split; [exact Hin|].
      now apply Status_eqb_eq.
  - split; [discriminate|]. intros (e & H & _). discriminate.
Qed.

(** [handleSubmit] does nothing without observer; with [submitAll] it
    hands over the whole list; otherwise the listed entries whose status
    is [done], in list order. *)
Lemma handleSubmit_cases (Q : SubmitProps) (s : State) :
  (onSubmit Q = false -> handleSubmit Q s = None) /\
  (onSubmit Q = true -> submitAll Q = true -> handleSubmit Q s = Some (files s)) /\
  (onSubmit Q = true -> submitAll Q = false ->
   exists l, handleSubmit Q s = Some l /\ l `sublist_of` files s /\
     forall r, In r l <->
       In r (files s) /\ exists e, heap s !! r = Some e /\ m_status (e_meta e) = done).
Proof.
  unfold handleSubmit. split; [|split].
  - now intros ->.
  - now intros -> ->.
  - intros -> ->. cbn [negb]. eexists. split; [reflexivity|]. split.
    + induction (files s) as [|r l IH]; cbn; [constructor|].
      destruct (status_in s [done] r); now constructor.
    + intros r. rewrite filter_In, status_in_spec.
      split; intros [Hin (e & He & Hst)]; (split; [exact Hin|]); exists e;
        (split; [exact He|]).
      * destruct Hst as [<-|[]]. reflexivity.
      * rewrite Hst. now left.
Qed.

(** X9.  The submit button is enabled only when no listed entry is
    [preparing] or [uploading] and one at least is [headers_received] or
    [done]; then no listed entry is still in preview generation, deferred,
    or waiting for its upload parameters.  Pressing it then hands to
    [onSubmit] the whole list if [submitAll] is set, and otherwise the
    listed entries that are [done], in list order -- which leaves out the
    entries at [headers_received] that enabled the button. *)
Theorem submit_enabled_when_settled (Q : SubmitProps) (s : State) :
  reachable P s ->
  submit_disabled s = false ->
  onSubmit Q = true ->
  (forall r e, In r (files s) -> heap s !! r = Some e ->
     m_status (e_meta e) <> preparing /\ m_status (e_meta e) <> uploading /\
     e_activation e = Returned /\ e_triggered e <> Some false /\
     e_awaiting_params e = 0%nat) /\
  (exists r e, In r (files s) /\ heap s !! r = Some e /\
     (m_status (e_meta e) = headers_received \/ m_status (e_meta e) = done)) /\
  (exists l, handleSubmit Q s = Some l /\ l `sublist_of` files s /\
     forall r, In r l <->
       In r (files s) /\
       (submitAll Q = true \/
        exists e, heap s !! r = Some e /\ m_status (e_meta e) = done)).
Proof.
  intros Hreach Hd HQ. unfold submit_disabled in Hd.
  apply Bool.orb_false_iff in Hd. destruct Hd as [Hbusy Hsome].
  apply Bool.negb_false_iff in Hsome. split; [|split].
  - intros r e Hin He.
    assert (Hst : ~ In (m_status (e_meta e)) [uploading; preparing]).
    { intros Hst.
      assert (Hex : existsb (status_in s [uploading; preparing]) (files s) = true).
      { apply existsb_exists. exists r. split; [exact Hin|].
        apply status_in_spec. eauto. }
      congruence. }
    pose proof (reachable_disciplined P s r e Hreach He) as [D1 D2 D3].
    assert (Hp : m_status (e_meta e) <> preparing) by (intros H; apply Hst; cbn; auto).
    assert (Hu : m_status (e_meta e) <> uploading) by (intros H; apply Hst; cbn; auto).
    repeat split; auto.
    + destruct (e_activation e) eqn:Ha; [reflexivity| |];
        exfalso; apply Hp, D1; discriminate.
    + destruct (e_awaiting_params e) eqn:Haw; [reflexivity|].
      exfalso. apply Hu, D3. discriminate.
  - apply existsb_exists in Hsome. destruct Hsome as (r & Hin & Hst).
    apply status_in_spec in Hst. destruct Hst as (e & He & Hst).
    exists r, e. repeat split; auto.
    destruct Hst as [<-|[<-|[]]]; auto.
  - destruct (handleSubmit_cases Q s) as (_ & Hall & Hdone).
    destruct (submitAll Q) eqn:Hsa.
    + exists (files s). split; [now apply Hall|]. split; [reflexivity|].
      intros r. split; [auto|now intros [H _]].
    + destruct (Hdone HQ eq_refl) as (l & Hl & Hsub & Hin).
      exists l. split; [exact Hl|]. split; [exact Hsub|].
      intros r. rewrite Hin. split; intros [H1 H2]; (split; [exact H1|]).
      * now right.
      * destruct H2 as [H2|H2]; [discriminate|exact H2].
Qed.

(** X10.  Unless the provider's extra metadata carries a [status] key, an
    entry that has left [preparing] never is [preparing] again. *)
Theorem never_back_to_preparing (s : State) (evs : list Event) (s' : State)
        (r : ref) (e : Entry) :
  run P s evs = Some s' ->
  Forall status_kept evs ->
  heap s !! r = Some e ->
  m_status (e_meta e) <> preparing ->
  exists e', heap s' !! r = Some e' /\ m_status (e_meta e') <> preparing.
Proof.
  intros Hrun Hk. revert s e Hrun.
  induction Hk as [|ev evs Hev _ IH]; cbn; intros s e Hrun He Hst.
  - injection Hrun as <-. eauto.
  - destruct (step P s ev) as [s1|] eqn:Hs; [|discriminate].
    destruct (step_entry P s ev s1 r e Hs He) as [H | (_ & H & Hnf)].
    + apply (IH s1 e Hrun H Hst).
    + apply (IH s1 _ Hrun H).
      destruct (change_status P s ev e Hev) as [[Hsame | Hne] | (file & now & ->)].
      * congruence.
      * exact Hne.
      * exfalso. now apply (Hnf file now).
Qed.

(** X11.  The file of an entry is never replaced: whatever happens, the
    object keeps the [File] it was created with. *)
Theorem file_never_replaced (s : State) (evs : list Event) (s' : State)
        (r : ref) (e : Entry) :
  run P s evs = Some s' ->
  heap s !! r = Some e ->
  exists e', heap s' !! r = Some e' /\ e_file e' = e_file e.
Proof.
  revert s e. induction evs as [|ev evs IH]; cbn; intros s e Hrun He.
  - injection Hrun as <-. eauto.
  - destruct (step P s ev) as [s1|] eqn:Hs; [|discriminate].
    destruct (step_entry P s ev s1 r e Hs He) as [H | (_ & H & _)].
    + apply (IH s1 e Hrun H).
    + destruct (IH s1 _ Hrun H) as (e' & He' & Hf). exists e'. split; [exact He'|].
      now rewrite Hf, change_file.
Qed.

End Statuses.

(** ** A component without upload-parameter provider *)

Section NoProvider.

Context (P : Props).
Hypothesis Hno : getUploadParams P = false.
Implicit Types (s : State) (r : ref) (e : Entry).

Lemma untransported_preview_only e e' :
  preview_only e e' -> untransported e -> untransported e'.
Proof.
  intros Hpo [U1 U2 U3 U4]. split.
  - now rewrite (po_xhr _ _ Hpo).
  - now rewrite (po_awaiting _ _ Hpo).
  - now rewrite (po_percent _ _ Hpo).
  - now rewrite (po_status _ _ Hpo).
Qed.

Lemma untransported_triggerUpload_on e :
  untransported e -> untransported (triggerUpload_on P e).
Proof.
  intros U. unfold triggerUpload_on. rewrite Hno.
  destruct (e_triggered e) as [[|]|]; try exact U.
  destruct U as [U1 U2 U3 U4]. split; cbn; auto.
Qed.

Lemma untransported_change s ev e :
  match ev with
  | EvParams _ _ | EvProgress _ _ _ | EvReadyState _ _ _ => False
  | _ => True
  end ->
  untransported e -> untransported (change P s ev e).
Proof.
  intros Hev U.
  destruct ev as [file now|r d|r|r h|r|r p|x loaded total|x rs st|i|i];
    cbn [change]; try exact U; try contradiction.
  - destruct (f_size file >? maxSizeBytes P).
    + destruct U as [U1 U2 U3 U4]. split; cbn; auto.
    + apply (untransported_preview_only e); [apply generatePreview_on_only | exact U].
  - destruct (e_activation e); try exact U.
    apply (untransported_preview_only e);
      [apply generatePreview_resume_on_only | exact U].
  - rewrite handleFile_resume_on_cases. cbv zeta.
    assert (U' : untransported
                   (if onUploadReady P
                    then entry_triggerUpload
                           (entry_triggered false (entry_activation Returned e))
                    else entry_triggered false (entry_activation Returned e))).
    { destruct U as [U1 U2 U3 U4]. destruct (onUploadReady P); split; cbn; auto. }
    destruct (started_at_resume P h); [now apply untransported_triggerUpload_on|exact U'].
  - now apply untransported_triggerUpload_on.
Qed.

Lemma untransported_fresh file now i : untransported (fresh_entry file now i).
Proof. split; cbn; auto. Qed.

(** X12.  When no [getUploadParams] is configured, nothing is ever
    transported: no request object is created, the provider is never
    asked and no request is sent; every entry is [preparing],
    [error_file_size] or [done], has no [xhr], and keeps [percent] 0, also
    when it is [done]. *)
Theorem without_provider_nothing_is_sent (s : State) :
  reachable P s ->
  xhrs s = [] /\
  (forall r e, heap s !! r = Some e -> untransported e) /\
  (forall eff, In eff (trace s) ->
     match eff with
     | GetUploadParams _ | XhrSend _ _ _ _ _ _ => False
     | _ => True
     end).
Proof.
  intros Hreach.
  assert (HQ : xhrs s = [] /\ forall r e, heap s !! r = Some e -> untransported e).
  { revert s Hreach. apply (run_inv_from P).
    - split; [reflexivity|]. intros r e. cbn. now rewrite lookup_nil.
    - intros s ev s' HI [Hx Hu] Hstep.
      assert (Hev : match ev with
                    | EvParams _ _ | EvProgress _ _ _ | EvReadyState _ _ _ => False
                    | _ => True
                    end).
      { destruct ev as [file now|r d|r|r h|r|r p|x loaded total|x rs st|i|i];
          cbn [step] in Hstep; try exact I.
        - destruct (heap s !! r) as [e|] eqn:He; [|discriminate].
          rewrite (ut_awaiting _ (Hu r e He)) in Hstep. discriminate.
        - rewrite Hx, lookup_nil in Hstep. discriminate.
        - rewrite Hx, lookup_nil in Hstep. discriminate. }
      split.
      + pose proof (step_parts P s ev s' Hstep) as Hp.
        destruct ev as [file now|r d|r|r h|r|r p|x loaded total|x rs st|i|i];
          try contradiction;
          try (destruct Hp as (_ & _ & ->); exact Hx).
        * destruct Hp as [-> | (_ & _ & _ & ->)]; exact Hx.
        * destruct Hp as (_ & -> & _); exact Hx.
      + intros r e' He'.
        destruct (step_heap P s ev s' Hstep) as [Hh | [_ ->]]; [|now apply (Hu r)].
        rewrite Hh in He'. clear Hh.
        assert (Halt : forall r0 (l : list Entry),
                  (forall r1 e1, l !! r1 = Some e1 -> untransported e1) ->
                  alter (change P s ev) r0 l !! r = Some e' -> untransported e').
        { intros r0 l Hl Hlk. destruct (decide (r0 = r)) as [->|Hne].
          - rewrite list_lookup_alter_eq in Hlk.
            destruct (l !! r) as [e1|] eqn:H1; [|discriminate].
            injection Hlk as <-. apply untransported_change; [exact Hev|].
            now apply (Hl r).
          - rewrite list_lookup_alter_ne in Hlk by exact Hne. now apply (Hl r). }
        destruct ev as [file now|r0 d|r0|r0 h|r0|r0 p|x loaded total|x rs st|i|i];
          try contradiction; cbn [addressed] in He';
          try (now apply (Hu r)); try (apply (Halt _ _ Hu He')).
        refine (Halt _ _ _ He'). intros r1 e1 H1.
        apply lookup_app_Some in H1. destruct H1 as [H1 | [_ H1]]; [now apply (Hu r1)|].
        apply list_lookup_singleton_Some in H1. destruct H1 as [_ <-].
        apply untransported_fresh. }
  destruct HQ as [Hx Hu]. split; [exact Hx|]. split; [exact Hu|].
  pose proof (reachable_inv P s Hreach) as HI.
  intros eff Hin.
  destruct eff as [r st| |r|r|r|r|r u|u|x r m t hs b|x]; try exact I.
  - pose proof (inv_trace _ _ HI _ r Hin eq_refl) as Hlt.
    destruct (lookup_lt_is_Some_2 _ _ Hlt) as [e He].
    pose proof (ok_starts _ _ _ _ (inv_entries _ _ HI r e He)) as Hc.
    unfold started in Hc. rewrite Hno in Hc.
    assert (0 < count (is_start r) (trace s))%nat; [|lia].
    apply (count_In _ _ _ Hin). cbn. apply Nat.eqb_refl.
  - pose proof (inv_trace _ _ HI _ r Hin eq_refl) as Hlt.
    destruct (lookup_lt_is_Some_2 _ _ Hlt) as [e He].
    pose proof (ok_sent _ _ _ _ (inv_entries _ _ HI r e He)) as Hc.
    unfold sent in Hc. rewrite (ut_xhr _ (Hu r e He)) in Hc.
    assert (0 < count (is_send r) (trace s))%nat; [|lia].
    apply (count_In _ _ _ Hin). cbn. apply Nat.eqb_refl.
Qed.

End NoProvider.

(** ** The end of [handleFile] *)

Section Resume.

Context (P : Props).
Implicit Types (s : State) (r : ref) (e : Entry).

Lemma trace_triggerUpload r s :
  trace (triggerUpload P r s) = trace s ++ upload_start_if P r (heap s !! r).
Proof.
  unfold triggerUpload, upload_start_if.
  destruct (heap s !! r) as [e|] eqn:He; [|now rewrite app_nil_r].
  destruct (e_triggered e) as [[|]|]; try now rewrite app_nil_r.
  unfold upload_start. destruct (getUploadParams P).
  - rewrite (status_notify_render P r uploading _
               (entry_awaiting (S (e_awaiting_params (entry_triggered true e)))
                  (entry_triggered true e))).
    + cbn. now rewrite <- app_assoc.
    + unfold uploadFile. rewrite lookup_modify_eq. cbn [emit heap].
      now rewrite (lookup_modify r _ s e He).
  - rewrite (status_notify_render P r done _ (entry_triggered true e)).
    + reflexivity.
    + now apply lookup_modify.
Qed.

Lemma trace_iter n r s :
  trace (Nat.iter n (triggerUpload P r) s)
  = trace s ++ match n with O => [] | S _ => upload_start_if P r (heap s !! r) end.
Proof.
  induction n as [|n IH]; cbn [Nat.iter nat_rect]; [now rewrite app_nil_r|].
  rewrite trace_triggerUpload. unfold Nat.iter in IH. rewrite IH.
  pose proof (heap_iter P n r s) as Hh. unfold Nat.iter in Hh. rewrite Hh.
  rewrite list_lookup_alter_eq. destruct n as [|n].
  - cbn. now rewrite app_nil_r, option_fmap_id.
  - rewrite <- app_assoc. f_equal.
    pose proof (iter_triggerUpload_on P (S n)) as Hi. unfold Nat.iter in Hi.
    destruct (heap s !! r) as [e|]; cbn [fmap option_fmap option_map upload_start_if];
      [|reflexivity].
    rewrite Hi. unfold triggerUpload_on.
    destruct (e_triggered e) as [[|]|] eqn:Et; try (rewrite Et; reflexivity).
    destruct (getUploadParams P); cbn; now rewrite app_nil_r.
Qed.

Lemma trace_handleFile_resume r h s e :
  heap s !! r = Some e ->
  trace (handleFile_resume P r h s)
  = trace s ++ (if onUploadReady P then [OnUploadReady r] else [])
            ++ (if started_at_resume P h then upload_start P r else []).
Proof.
  intros He. unfold handleFile_resume, started_at_resume. cbv zeta.
  set (e1 := entry_triggered false (entry_activation Returned e)).
  set (s1 := modify r (entry_triggered false) (set_activation r Returned s)).
  assert (H1 : heap s1 !! r = Some e1).
  { unfold s1. apply lookup_modify. now apply lookup_modify. }
  destruct (onUploadReady P); cbn [negb orb].
  - set (s2 := emit (OnUploadReady r) (modify r entry_triggerUpload s1)).
    assert (H2 : heap s2 !! r = Some (entry_triggerUpload e1))
      by (now apply lookup_modify).
    assert (Hsome : upload_start_if P r (Some (entry_triggerUpload e1))
                    = upload_start P r) by reflexivity.
    destruct (delayUpload h); cbn [negb orb].
    + rewrite trace_iter, H2, Hsome. cbn [s2 emit trace modify s1 set_activation].
      rewrite <- app_assoc. destruct (hook_calls h); reflexivity.
    + rewrite trace_triggerUpload, trace_iter, H2, Hsome.
      pose proof (heap_iter P (hook_calls h) r s2) as Hh. unfold Nat.iter in Hh.
      unfold Nat.iter. rewrite Hh, list_lookup_alter_eq, H2.
      cbn [fmap option_fmap option_map upload_start_if].
      pose proof (iter_triggerUpload_on P (hook_calls h) (entry_triggerUpload e1))
        as Hi. unfold Nat.iter in Hi. rewrite Hi.
      cbn [s2 emit trace modify s1 set_activation]. rewrite <- !app_assoc.
      destruct (hook_calls h).
      * reflexivity.
      * unfold triggerUpload_on. cbn.
        destruct (getUploadParams P); cbn; now rewrite ?app_nil_r.
  - rewrite trace_triggerUpload, H1. reflexivity.
Qed.

(** X13.  When preview generation is over, [handleFile] creates the
    closure [triggerUpload], exposes it if there is an [onUploadReady]
    hook, and calls the hook.  The upload is started then, once, however
    often the hook called the closure, unless the hook returned
    [delayUpload: true] without calling it; in that one case nothing is
    started and the entry stays as it was, waiting for the host's call. *)
Theorem upload_starts_once_at_resume (s : State) (r : ref) (e : Entry) (h : HookRun)
        (s' : State) :
  heap s !! r = Some e ->
  step P s (EvResume r h) = Some s' ->
  let go := started_at_resume P h in
  trace s' = trace s ++ (if onUploadReady P then [OnUploadReady r] else [])
                     ++ (if go then upload_start P r else []) /\
  exists e',
    heap s' !! r = Some e' /\
    e_activation e' = Returned /\
    e_triggerUpload e' = (onUploadReady P || e_triggerUpload e) /\
    e_triggered e' = Some go /\
    m_status (e_meta e')
    = (if go then if getUploadParams P then uploading else done
       else m_status (e_meta e)) /\
    e_awaiting_params e'
    = (if go && getUploadParams P then S (e_awaiting_params e)
       else e_awaiting_params e).
Proof.
  intros He Hstep go. cbn [step] in Hstep. rewrite He in Hstep.
  destruct (e_activation e) eqn:Ha; try discriminate. injection Hstep as <-.
  split; [now apply (trace_handleFile_resume r h s e)|].
  rewrite heap_handleFile_resume, list_lookup_alter_eq, He.
  cbn [fmap option_fmap option_map]. eexists. split; [reflexivity|].
  rewrite handleFile_resume_on_cases. cbv zeta. fold go.
  unfold triggerUpload_on.
  destruct go, (onUploadReady P); cbn; destruct (getUploadParams P); cbn;
    repeat split; reflexivity.
Qed.

End Resume.

(** ** The trace, event by event *)

Section Effects.

Context (P : Props).
Implicit Types (s : State) (r : ref) (e : Entry).

Lemma accepts_spec s file : accepts P s file = true <-> accepted P s file.
Proof.
  rewrite accepted_type_allowed. unfold accepts.
  rewrite Bool.andb_true_iff, Z.ltb_lt. tauto.
Qed.

Lemma trace_preview_blocks r u ty ks s :
  trace (preview_blocks P r u ty ks s) = trace s ++ preview_blocks_effects P u ty ks.
Proof.
  induction ks as [|k ks IH]; cbn [preview_blocks preview_blocks_effects].
  - cbn. now rewrite <- app_assoc.
  - destruct (startsWith ty (kind_prefix k) && includes (previewTypes P) (kind_name k)).
    + destruct k; cbn; now rewrite app_nil_r.
    + exact IH.
Qed.

Lemma next_url_preview_blocks r u ty ks s :
  next_url (preview_blocks P r u ty ks s) = next_url s.
Proof.
  induction ks as [|k ks IH]; cbn [preview_blocks]; [reflexivity|].
  destruct (startsWith ty (kind_prefix k) && includes (previewTypes P) (kind_name k));
    [destruct k; reflexivity | exact IH].
Qed.

Lemma trace_generatePreview r s e :
  heap s !! r = Some e ->
  trace (generatePreview P r s)
  = trace s ++ generatePreview_effects P r (next_url s) (m_type (e_meta e)).
Proof.
  intros He. unfold generatePreview, generatePreview_effects, no_media. rewrite He.
  destruct (negb (startsWith (m_type (e_meta e)) "image/")
            && negb (startsWith (m_type (e_meta e)) "audio/")
            && negb (startsWith (m_type (e_meta e)) "video/")).
  - cbn. now rewrite app_nil_r.
  - rewrite trace_preview_blocks. cbn. now rewrite <- app_assoc.
Qed.

Lemma trace_generatePreview_resume r k u ty d s :
  trace (generatePreview_resume P r k u ty d s)
  = trace s ++ preview_blocks_effects P u ty (rest_kinds k).
Proof.
  destruct k; cbn [generatePreview_resume rest_kinds];
    now rewrite trace_preview_blocks.
Qed.

Lemma trace_uploadFile_resume r p s e :
  heap s !! r = Some e ->
  trace (uploadFile_resume P r p s)
  = trace s ++ (if no_url p then notify P r error_upload_params ++ [ForceUpdate]
                else match p with
                     | Some params => request r (length (xhrs s)) e params
                     | None => []
                     end).
Proof.
  intros He. unfold uploadFile_resume, no_url, request.
  destruct p as [[[target|] method fields headers extraMeta]|]; cbn [p_url];
    try (now rewrite (status_notify_render P r error_upload_params s e He)).
  destruct (String.eqb target EmptyString);
    [now rewrite (status_notify_render P r error_upload_params s e He)|].
  rewrite He. reflexivity.
Qed.

(** Every event appends its [effects] to the trace. *)
Lemma step_trace s ev s' :
  step P s ev = Some s' -> trace s' = trace s ++ effects P s ev.
Proof.
  destruct ev as [file now|r d|r|r h|r|r p|x loaded total|x rs st|i|i];
    cbn [step effects].
  - intros [= <-]. destruct (accepts P s file) eqn:Hacc.
    + apply accepts_spec in Hacc.
      rewrite (handleFile_accepted P s file now Hacc). cbv zeta.
      destruct (f_size file >? maxSizeBytes P).
      * rewrite (status_notify_render P _ error_file_size _ _
                   (lookup_registered P s file now)).
        cbn. now rewrite <- !app_assoc.
      * rewrite (trace_generatePreview _ _ _ (lookup_registered P s file now)).
        cbn. now rewrite <- !app_assoc.
    + rewrite handleFile_refused, app_nil_r; [reflexivity|].
      intros Hacc'. apply accepts_spec in Hacc'. congruence.
  - destruct (heap s !! r) as [e|] eqn:He; [|discriminate].
    destruct (e_activation e) as [|k u ty|] eqn:Ha; try discriminate.
    intros [= <-]. apply trace_generatePreview_resume.
  - destruct (heap s !! r) as [e|] eqn:He; [|discriminate].
    destruct (e_activation e) as [|k u ty|] eqn:Ha; try discriminate.
    intros [= <-]. now rewrite app_nil_r.
  - destruct (heap s !! r) as [e|] eqn:He; [|discriminate].
    destruct (e_activation e) as [|k u ty|] eqn:Ha; try discriminate.
    intros [= <-]. now apply (trace_handleFile_resume P r h s e).
  - destruct (heap s !! r) as [e|] eqn:He; [|discriminate].
    destruct (e_triggerUpload e) eqn:Hex; [|discriminate].
    intros [= <-]. rewrite trace_triggerUpload. now rewrite He.
  - destruct (heap s !! r) as [e|] eqn:He; [|discriminate].
    destruct (e_awaiting_params e) as [|n] eqn:Hn; [discriminate|].
    intros [= <-].
    rewrite (trace_uploadFile_resume r p _ (entry_awaiting n e)
               (lookup_modify r _ s e He)).
    cbn [modify trace xhrs]. destruct (no_url p); [reflexivity|].
    destruct p as [params|]; reflexivity.
  - destruct (xhrs s !! x) as [r|] eqn:Hx; [|discriminate].
    intros [= <-]. unfold on_progress. rewrite Hx. reflexivity.
  - destruct (xhrs s !! x) as [r|] eqn:Hx; [|discriminate].
    intros [= <-]. unfold on_readystatechange, on_readystatechange_on. rewrite Hx.
    destruct (negb (rs =? 2) && negb (rs =? 4)) eqn:Hrs; [now rewrite app_nil_r|].
    destruct (heap s !! r) as [e|] eqn:He.
    + destruct (st =? 0);
        [now rewrite (status_notify_render P r aborted s e He)|].
      destruct (st <? 400);
        [|now rewrite (status_notify_render P r error_upload s e He)].
      destruct (rs =? 2) eqn:H2, (rs =? 4) eqn:H4; try discriminate Hrs.
      * apply Z.eqb_eq in H2, H4. lia.
      * rewrite (status_notify_render P r headers_received _
                   (entry_meta (meta_percent (of_Z 100)) e));
          [reflexivity | now apply lookup_modify].
      * rewrite (status_notify_render P r done _
                   (entry_meta (meta_percent (of_Z 100)) e));
          [reflexivity | now apply lookup_modify].
    + assert (Hnone : forall f s0, heap s0 !! r = None ->
                forceUpdate (handleChangeStatus P r (modify r f s0))
                = emit ForceUpdate s0).
      { intros f s0 H0. unfold handleChangeStatus, modify. cbn [heap].
        rewrite (alter_absent _ _ _ H0), H0.
        destruct (onChangeStatus P); now destruct s0. }
      destruct (st =? 0); [unfold set_status; now rewrite Hnone|].
      destruct (st <? 400); [|unfold set_status; now rewrite Hnone].
      destruct (rs =? 2), (rs =? 4); unfold set_status, set_percent;
        rewrite ?Hnone; try reflexivity;
        cbn [modify heap]; rewrite ?(alter_absent _ _ _ He); try exact He.
      all: try (unfold handleChangeStatus; cbn [modify heap];
                rewrite ?(alter_absent _ _ _ He), He; destruct (onChangeStatus P);
                reflexivity).
  - intros [= <-]. unfold handleCancel.
    destruct (findIndex (heap s) i (files s)) as [idx|]; [|now rewrite app_nil_r].
    destruct (files s !! idx) as [r|]; [|now rewrite app_nil_r].
    destruct (heap s !! r) as [e|]; [|now rewrite app_nil_r].
    destruct (e_xhr e) as [xhr|]; [|now rewrite app_nil_r].
    destruct (onCancel P); cbn; now rewrite <- ?app_assoc.
  - intros [= <-]. unfold handleRemove.
    destruct (findIndex (heap s) i (files s)) as [idx|]; [|now rewrite app_nil_r].
    destruct (files s !! idx) as [r|]; [|now rewrite app_nil_r].
    destruct (onRemove P); cbn; now rewrite <- ?app_assoc.
Qed.

Lemma next_url_handleChangeStatus r s :
  next_url (handleChangeStatus P r s) = next_url s.
Proof.
  unfold handleChangeStatus. destruct (onChangeStatus P), (heap s !! r); reflexivity.
Qed.

Lemma next_url_status r st s :
  next_url (forceUpdate (handleChangeStatus P r (set_status r st s))) = next_url s.
Proof. cbn [forceUpdate emit next_url]. now rewrite next_url_handleChangeStatus. Qed.

Lemma next_url_triggerUpload r s : next_url (triggerUpload P r s) = next_url s.
Proof.
  unfold triggerUpload. destruct (heap s !! r) as [e|]; [|reflexivity].
  destruct (e_triggered e) as [[|]|]; try reflexivity.
  destruct (getUploadParams P); now rewrite next_url_status.
Qed.

Lemma next_url_iter n r s : next_url (Nat.iter n (triggerUpload P r) s) = next_url s.
Proof.
  induction n as [|n IH]; cbn [Nat.iter nat_rect]; [reflexivity|].
  rewrite next_url_triggerUpload. exact IH.
Qed.

Lemma step_next_url s ev s' :
  step P s ev = Some s' ->
  next_url s' = if makes_url P s ev then S (next_url s) else next_url s.
Proof.
  destruct ev as [file now|r d|r|r h|r|r p|x loaded total|x rs st|i|i];
    cbn [step makes_url].
  - intros [= <-]. destruct (accepts P s file) eqn:Hacc; cbn [andb].
    + apply accepts_spec in Hacc.
      rewrite (handleFile_accepted P s file now Hacc). cbv zeta.
      destruct (f_size file >? maxSizeBytes P); cbn [negb andb].
      * now rewrite next_url_status.
      * unfold generatePreview, no_media. rewrite lookup_registered.
        cbn [fresh_entry e_meta m_type].
        destruct (negb (startsWith (f_type file) "image/")
                  && negb (startsWith (f_type file) "audio/")
                  && negb (startsWith (f_type file) "video/")); cbn [negb].
        -- reflexivity.
        -- now rewrite next_url_preview_blocks.
    + rewrite handleFile_refused; [reflexivity|].
      intros Hacc'. apply accepts_spec in Hacc'. congruence.
  - destruct (heap s !! r) as [e|] eqn:He; [|discriminate].
    destruct (e_activation e) as [|k u ty|] eqn:Ha; try discriminate.
    intros [= <-]. destruct k; cbn [generatePreview_resume];
      now rewrite next_url_preview_blocks.
  - destruct (heap s !! r) as [e|] eqn:He; [|discriminate].
    destruct (e_activation e) as [|k u ty|] eqn:Ha; try discriminate.
    now intros [= <-].
  - destruct (heap s !! r) as [e|] eqn:He; [|discriminate].
    destruct (e_activation e) as [|k u ty|] eqn:Ha; try discriminate.
    intros [= <-]. unfold handleFile_resume. cbv zeta.
    destruct (onUploadReady P); [destruct (delayUpload h)|];
      now rewrite ?next_url_triggerUpload, ?next_url_iter.
  - destruct (heap s !! r) as [e|] eqn:He; [|discriminate].
    destruct (e_triggerUpload e) eqn:Hex; [|discriminate].
    intros [= <-]. apply next_url_triggerUpload.
  - destruct (heap s !! r) as [e|] eqn:He; [|discriminate].
    destruct (e_awaiting_params e) as [|n] eqn:Hn; [discriminate|].
    intros [= <-]. unfold uploadFile_resume.
    destruct p as [[[target|] method fields headers extraMeta]|];
      try (now rewrite next_url_status).
    destruct (String.eqb target EmptyString); [now rewrite next_url_status|].
    cbn [modify heap]. destruct (alter (entry_awaiting n) r (heap s) !! r); reflexivity.
  - destruct (xhrs s !! x) as [r|] eqn:Hx; [|discriminate].
    intros [= <-]. unfold on_progress. now rewrite Hx.
  - destruct (xhrs s !! x) as [r|] eqn:Hx; [|discriminate].
    intros [= <-]. unfold on_readystatechange. rewrite Hx.
    destruct (negb (rs =? 2) && negb (rs =? 4)); [reflexivity|].
    destruct (st =? 0); [now rewrite next_url_status|].
    destruct (st <? 400); [|now rewrite next_url_status].
    cbn [forceUpdate emit next_url]. rewrite next_url_handleChangeStatus.
    destruct (rs =? 2), (rs =? 4); reflexivity.
  - intros [= <-]. unfold handleCancel.
    destruct (findIndex (heap s) i (files s)) as [idx|]; [|reflexivity].
    destruct (files s !! idx) as [r|]; [|reflexivity].
    destruct (heap s !! r) as [e|]; [|reflexivity].
    destruct (e_xhr e) as [xhr|]; [|reflexivity].
    destruct (onCancel P); reflexivity.
  - intros [= <-]. unfold handleRemove.
    destruct (findIndex (heap s) i (files s)) as [idx|]; [|reflexivity].
    destruct (files s !! idx) as [r|]; [|reflexivity].
    destruct (onRemove P); reflexivity.
Qed.

End Effects.

(** ** Object URLs *)

Section ObjectUrls.

Context (P : Props).
Implicit Types (s : State) (r : ref) (e : Entry) (u : url).

Lemma waiting_app u h1 h2 : waiting u (h1 ++ h2) = (waiting u h1 + waiting u h2)%nat.
Proof. unfold waiting. now rewrite List.filter_app, length_app. Qed.

Lemma waiting_alter u (f : Entry -> Entry) r (h : list Entry) e :
  h !! r = Some e ->
  (waiting u (alter f r h) + Nat.b2n (holds u e)
   = waiting u h + Nat.b2n (holds u (f e)))%nat.
Proof.
  unfold waiting. revert r. induction h as [|a h IH]; intros [|r] H; try discriminate.
  - injection H as ->. cbn. destruct (holds u e), (holds u (f e)); cbn; lia.
  - cbn in H. specialize (IH r H). cbn [alter list_alter List.filter].
    change (list_alter f r h) with (alter f r h).
    destruct (holds u a); cbn [length]; lia.
Qed.

Lemma count_notify_url (p : Effect -> bool) r st :
  (forall r' st', p (ChangeStatus r' st') = false) -> count p (notify P r st) = 0%nat.
Proof. intros H. unfold notify. destruct (onChangeStatus P); cbn; now rewrite ?H. Qed.

Lemma preview_blocks_balance u ty ks e u' :
  (count (is_revoke u') (preview_blocks_effects P u ty ks)
   + Nat.b2n (holds u' (preview_blocks_on P u ty ks e)) = Nat.b2n (Nat.eqb u u'))%nat /\
  count (is_create u') (preview_blocks_effects P u ty ks) = 0%nat.
Proof.
  induction ks as [|k ks IH]; cbn [preview_blocks_effects preview_blocks_on].
  - unfold holds. cbn. destruct (Nat.eqb u u'); cbn; auto.
  - destruct (startsWith ty (kind_prefix k) && includes (previewTypes P) (kind_name k));
      [|exact IH].
    unfold holds. destruct k; cbn; auto.
Qed.

(** Only [generatePreview] makes and releases object URLs. *)
Lemma effects_no_url s ev (p : Effect -> bool) :
  (forall eff, p eff = true ->
     (exists r u, eff = CreateObjectURL r u) \/ (exists u, eff = RevokeObjectURL u)) ->
  match ev with
  | EvHandleFile _ _ | EvDecodeReady _ _ => True
  | _ => count p (effects P s ev) = 0%nat
  end.
Proof.
  intros Hp.
  assert (H0 : forall eff,
            match eff with
            | CreateObjectURL _ _ | RevokeObjectURL _ => True
            | _ => p eff = false
            end).
  { intros eff. destruct (p eff) eqn:E; destruct eff; auto;
      destruct (Hp _ E) as [(? & ? & ?)|(? & ?)]; discriminate. }
  assert (Hn : forall r st, count p (notify P r st) = 0%nat).
  { intros r st. apply count_notify_url. intros r' st'. apply (H0 (ChangeStatus r' st')). }
  assert (Hs : forall r, count p (upload_start P r) = 0%nat).
  { intros r. unfold upload_start. rewrite !count_app, Hn.
    destruct (getUploadParams P); cbn;
      rewrite ?(H0 (GetUploadParams r)), (H0 ForceUpdate); reflexivity. }
  destruct ev as [file now|r d|r|r h|r|r p0|x loaded total|x rs st|i|i];
    cbn [effects]; try exact I; try reflexivity.
  - rewrite count_app. destruct (onUploadReady P), (started_at_resume P h); cbn;
      rewrite ?(H0 (OnUploadReady r)), ?Hs; reflexivity.
  - unfold upload_start_if. destruct (heap s !! r) as [e|]; [|reflexivity].
    destruct (e_triggered e) as [[|]|]; try reflexivity. apply Hs.
  - destruct (no_url p0).
    + rewrite count_app, Hn. cbn. now rewrite (H0 ForceUpdate).
    + destruct p0 as [params|]; [|reflexivity].
      destruct (heap s !! r) as [e|]; [|reflexivity].
      unfold request. destruct (p_url params); [|reflexivity].
      cbn. now rewrite (H0 (XhrSend _ _ _ _ _ _)).
  - cbn. now rewrite (H0 ForceUpdate).
  - destruct (negb (rs =? 2) && negb (rs =? 4)); [reflexivity|].
    destruct (xhrs s !! x) as [r|]; [|reflexivity].
    rewrite count_app. cbn. rewrite (H0 ForceUpdate).
    destruct (heap s !! r); [now rewrite Hn | reflexivity].
  - destruct (findIndex (heap s) i (files s)) as [idx|]; [|reflexivity].
    destruct (files s !! idx) as [r|]; [|reflexivity].
    destruct (heap s !! r) as [e|]; [|reflexivity].
    destruct (e_xhr e) as [xhr|]; [|reflexivity].
    destruct (onCancel P); cbn;
      rewrite ?(H0 (OnCancel r)), (H0 (XhrAbort xhr)); reflexivity.
  - destruct (findIndex (heap s) i (files s)) as [idx|]; [|reflexivity].
    destruct (files s !! idx) as [r|]; [|reflexivity].
    destruct (onRemove P); cbn;
      rewrite ?(H0 (OnRemove r)), (H0 ForceUpdate); reflexivity.
Qed.

Lemma is_create_url u eff :
  is_create u eff = true ->
  (exists r u', eff = CreateObjectURL r u') \/ (exists u', eff = RevokeObjectURL u').
Proof. destruct eff; try discriminate. eauto. Qed.

Lemma is_revoke_url u eff :
  is_revoke u eff = true ->
  (exists r u', eff = CreateObjectURL r u') \/ (exists u', eff = RevokeObjectURL u').
Proof. destruct eff; try discriminate. eauto. Qed.

(** An event makes the URL [next_url s], if it makes one. *)
Lemma effects_creates s ev u :
  count (is_create u) (effects P s ev)
  = Nat.b2n (makes_url P s ev && Nat.eqb (next_url s) u).
Proof.
  pose proof (effects_no_url s ev (is_create u) (is_create_url u)) as Hno.
  destruct ev as [file now|r d|r|r h|r|r p|x loaded total|x rs st|i|i];
    try exact Hno; cbn [effects makes_url].
  - destruct (accepts P s file); [|reflexivity]. cbn [andb].
    rewrite !count_app, count_notify_url by reflexivity. cbn [count is_create].
    destruct (f_size file >? maxSizeBytes P); cbn [negb andb].
    + rewrite count_app, count_notify_url by reflexivity. reflexivity.
    + unfold generatePreview_effects. destruct (no_media (f_type file)); [reflexivity|].
      cbn [negb andb count is_create].
      rewrite (proj2 (preview_blocks_balance _ _ _ (fresh_entry file now 0) u)).
      destruct (Nat.eqb (next_url s) u); reflexivity.
  - destruct (heap s !! r) as [e|]; [|reflexivity].
    destruct (e_activation e) as [|k u0 ty|]; try reflexivity.
    apply (proj2 (preview_blocks_balance _ _ _ e u)).
Qed.

Lemma holds_triggerUpload_on u e : holds u (triggerUpload_on P e) = holds u e.
Proof.
  unfold triggerUpload_on. destruct (e_triggered e) as [[|]|]; try reflexivity.
  destruct (getUploadParams P); reflexivity.
Qed.

(** What an event releases, what the decoder of the entry it addresses
    works on afterwards, and what it makes, balance. *)
Lemma effects_balance s ev s' e u :
  step P s ev = Some s' ->
  match ev with
  | EvHandleFile file now =>
      accepts P s file = true /\ e = fresh_entry file now (next_id s)
  | _ => exists r, addressed s ev = Some r /\ heap s !! r = Some e
  end ->
  (count (is_revoke u) (effects P s ev) + Nat.b2n (holds u (change P s ev e))
   = Nat.b2n (holds u e) + count (is_create u) (effects P s ev))%nat.
Proof.
  intros Hstep Hadd. rewrite effects_creates.
  pose proof (effects_no_url s ev (is_revoke u) (is_revoke_url u)) as Hno.
  destruct ev as [file now|r d|r|r h|r|r p|x loaded total|x rs st|i|i];
    cbn [makes_url andb Nat.b2n]; try rewrite Hno; cbn [addressed] in Hadd;
    try (destruct Hadd as (r0 & Hr0 & He); try discriminate Hr0);
    try (injection Hr0 as <-); cbn [step] in Hstep; try rewrite He in Hstep.
  - destruct Hadd as [Hacc ->]. cbn [effects change]. rewrite Hacc. cbn [andb].
    rewrite !count_app, count_notify_url by reflexivity. cbn [count is_revoke].
    destruct (f_size file >? maxSizeBytes P); cbn [negb andb].
    + rewrite count_app, count_notify_url by reflexivity. reflexivity.
    + unfold generatePreview_effects, generatePreview_on.
      cbn [fresh_entry e_meta m_type].
      destruct (no_media (f_type file)); [reflexivity|].
      cbn [negb andb count is_revoke].
      pose proof (proj1 (preview_blocks_balance (next_url s) (f_type file)
                           [Image; Audio; Video]
                           (fresh_entry file now (next_id s)) u)) as Hb.
      change (holds u (fresh_entry file now (next_id s))) with false.
      cbn [Nat.b2n]. lia.
  - destruct (e_activation e) as [|k u0 ty|] eqn:Ha; try discriminate.
    cbn [effects change]. rewrite He, Ha.
    unfold generatePreview_resume_on, holds at 2. rewrite Ha.
    destruct k; cbn [rest_kinds];
      match goal with
      | |- context [preview_blocks_on P u0 ty ?ks ?e0] =>
          pose proof (proj1 (preview_blocks_balance u0 ty ks e0 u)) as Hb
      end; lia.
  - cbn [change]. lia.
  - destruct (e_activation e) as [|k u0 ty|] eqn:Ha; try discriminate.
    cbn [change]. rewrite handleFile_resume_on_cases. cbv zeta.
    unfold holds at 2. rewrite Ha.
    destruct (started_at_resume P h); rewrite ?holds_triggerUpload_on;
      destruct (onUploadReady P); reflexivity.
  - cbn [change]. rewrite holds_triggerUpload_on. lia.
  - cbn [change]. unfold uploadFile_resume_on, holds. destruct (no_url p); cbn; lia.
  - cbn [change]. unfold holds. cbn. lia.
  - cbn [change]. unfold on_readystatechange_on.
    unfold holds.
    destruct (negb (rs =? 2) && negb (rs =? 4)); [lia|].
    destruct (st =? 0); [cbn; lia|]. destruct (st <? 400); [|cbn; lia].
    destruct (rs =? 2), (rs =? 4); cbn; lia.
Qed.

(** X14.  Object URLs are accounted for.  Every URL handed out so far
    was made exactly once and released at most once, and the URLs not yet
    released are exactly those a decoder is still working on: a URL is
    released when the decoder of its entry reports ready, or right away
    when no decoder is started for the file, and it stays unreleased for
    good if the decoder never reports. *)
Theorem object_urls_accounted (s : State) (u : url) :
  reachable P s ->
  count (is_create u) (trace s) = Nat.b2n (u <? next_url s)%nat /\
  (count (is_revoke u) (trace s) + waiting u (heap s)
   = count (is_create u) (trace s))%nat.
Proof.
  intros Hreach. revert u.
  pattern s. revert s Hreach. apply (run_inv_from P).
  - intros u. split; reflexivity.
  - intros s ev s' HI HQ Hstep u. destruct (HQ u) as [Hc Hb].
    rewrite (step_trace P s ev s' Hstep), !count_app, effects_creates.
    rewrite (step_next_url P s ev s' Hstep).
    split.
    + rewrite Hc. destruct (makes_url P s ev); cbn [andb].
      * destruct (Nat.eqb_spec (next_url s) u), (Nat.ltb_spec u (next_url s)),
          (Nat.ltb_spec u (S (next_url s))); cbn; lia.
      * cbn. lia.
    + rewrite <- (effects_creates s ev u).
      assert (Hidle : heap s' = heap s ->
                count (is_revoke u) (effects P s ev) = 0%nat ->
                count (is_create u) (effects P s ev) = 0%nat ->
                (count (is_revoke u) (trace s) + count (is_revoke u) (effects P s ev)
                 + waiting u (heap s')
                 = count (is_create u) (trace s)
                   + count (is_create u) (effects P s ev))%nat).
      { intros -> -> ->. lia. }
      pose proof (effects_no_url s ev (is_revoke u) (is_revoke_url u)) as Hno.
      pose proof (effects_no_url s ev (is_create u) (is_create_url u)) as Hno'.
      pose proof (effects_balance s ev s') as Hbal.
      destruct (step_heap P s ev s' Hstep) as [Hh | [(file & now & ->) ->]].
      * destruct ev as [file now|r d|r|r h|r|r p|x loaded total|x rs st|i|i];
          cbn [addressed] in Hh.
        -- destruct (accepts P s file) eqn:Hacc.
           ++ specialize (Hbal _ u Hstep (conj eq_refl eq_refl)).
              rewrite Hh.
              pose proof (waiting_alter u (change P s (EvHandleFile file now))
                            (length (heap s))
                            (heap s ++ [fresh_entry file now (next_id s)]) _
                            (list_lookup_middle _ _ _ _ eq_refl)) as Hw.
              rewrite waiting_app in Hw.
              change (waiting u [fresh_entry file now (next_id s)]) with 0%nat in Hw.
              lia.
           ++ cbn [step] in Hstep. injection Hstep as <-.
              rewrite handleFile_refused.
              ** cbn [effects]. rewrite Hacc. cbn. lia.
              ** intros Hacc'. apply accepts_spec in Hacc'. congruence.
        -- assert (He : exists e, heap s !! r = Some e)
             by (cbn [step] in Hstep; destruct (heap s !! r); [eauto|discriminate]).
           destruct He as [e He].
           specialize (Hbal e u Hstep (ex_intro _ r (conj eq_refl He))).
           rewrite Hh. pose proof (waiting_alter u (change P s (EvDecodeReady r d)) r _ e He).
           lia.
        -- assert (He : exists e, heap s !! r = Some e)
             by (cbn [step] in Hstep; destruct (heap s !! r); [eauto|discriminate]).
           destruct He as [e He].
           specialize (Hbal e u Hstep (ex_intro _ r (conj eq_refl He))).
           rewrite Hh. pose proof (waiting_alter u (change P s (EvDecodeError r)) r _ e He).
           lia.
        -- assert (He : exists e, heap s !! r = Some e)
             by (cbn [step] in Hstep; destruct (heap s !! r); [eauto|discriminate]).
           destruct He as [e He].
           specialize (Hbal e u Hstep (ex_intro _ r (conj eq_refl He))).
           rewrite Hh. pose proof (waiting_alter u (change P s (EvResume r h)) r _ e He).
           lia.
        -- assert (He : exists e, heap s !! r = Some e)
             by (cbn [step] in Hstep; destruct (heap s !! r); [eauto|discriminate]).
           destruct He as [e He].
           specialize (Hbal e u Hstep (ex_intro _ r (conj eq_refl He))).
           rewrite Hh. pose proof (waiting_alter u (change P s (EvTrigger r)) r _ e He).
           lia.
        -- assert (He : exists e, heap s !! r = Some e)
             by (cbn [step] in Hstep; destruct (heap s !! r); [eauto|discriminate]).
           destruct He as [e He].
           specialize (Hbal e u Hstep (ex_intro _ r (conj eq_refl He))).
           rewrite Hh. pose proof (waiting_alter u (change P s (EvParams r p)) r _ e He).
           lia.
        -- destruct (xhrs s !! x) as [r|] eqn:Hx; [|now apply Hidle].
           destruct (heap s !! r) as [e|] eqn:He.
           ++ specialize (Hbal e u Hstep (ex_intro _ r (conj Hx He))).
              rewrite Hh.
              pose proof (waiting_alter u (change P s (EvProgress x loaded total)) r _ e He).
              lia.
           ++ apply Hidle; auto. rewrite Hh. now apply alter_absent.
        -- destruct (xhrs s !! x) as [r|] eqn:Hx; [|now apply Hidle].
           destruct (heap s !! r) as [e|] eqn:He.
           ++ specialize (Hbal e u Hstep (ex_intro _ r (conj Hx He))).
              rewrite Hh.
              pose proof (waiting_alter u (change P s (EvReadyState x rs st)) r _ e He).
              lia.
           ++ apply Hidle; auto. rewrite Hh. now apply alter_absent.
        -- now apply Hidle.
        -- now apply Hidle.
      * cbn [step] in Hstep. injection Hstep as Hs.
        assert (Hnil : effects P s (EvHandleFile file now) = []).
        { cbn [effects]. destruct (accepts P s file) eqn:Hacc; [|reflexivity].
          exfalso. apply accepts_spec in Hacc.
          pose proof (handleFile_heap_length P file now s Hacc) as Hl.
          rewrite Hs in Hl. lia. }
        rewrite Hnil. cbn. lia.
Qed.

End ObjectUrls.

(** ** What the observer is told *)

Section Observer.

Context (P : Props).
Implicit Types (s : State) (r : ref) (e : Entry).

(** The three ways an event relates to the heap. *)
Lemma step_shape s ev s' :
  Inv P s -> step P s ev = Some s' ->
  (heap s' = heap s /\
   ((exists i, ev = EvCancel i \/ ev = EvRemove i) \/ effects P s ev = []))
  \/ (exists r e, addressed s ev = Some r /\ heap s !! r = Some e /\
        heap s' = alter (change P s ev) r (heap s) /\
        forall file now, ev <> EvHandleFile file now)
  \/ (exists file now, ev = EvHandleFile file now /\ accepts P s file = true /\
        heap s' = alter (change P s ev) (length (heap s))
                        (heap s ++ [fresh_entry file now (next_id s)])).
Proof.
  intros HI Hstep.
  assert (Hold : forall r, addressed s ev = Some r ->
            (forall file now, ev <> EvHandleFile file now) ->
            (exists e, heap s !! r = Some e) ->
            exists r e, addressed s ev = Some r /\ heap s !! r = Some e /\
              heap s' = alter (change P s ev) r (heap s) /\
              forall file now, ev <> EvHandleFile file now).
  { intros r Ha Hnf [e He]. exists r, e. repeat split; auto.
    destruct (step_heap P s ev s' Hstep) as [Hh | [(file & now & ->) _]];
      [|now destruct (Hnf file now)].
    destruct ev; try (now destruct (Hnf file now)); now rewrite Ha in Hh. }
  destruct ev as [file now|r d|r|r h|r|r p|x loaded total|x rs st|i|i].
  - destruct (accepts P s file) eqn:Hacc.
    + right. right. exists file, now. repeat split; auto.
      cbn [step] in Hstep. injection Hstep as <-.
      apply heap_handleFile. now apply accepts_spec.
    + left. cbn [step] in Hstep. injection Hstep as <-.
      rewrite handleFile_refused.
      * split; [reflexivity|]. right. cbn [effects]. now rewrite Hacc.
      * intros Hacc'. apply accepts_spec in Hacc'. congruence.
  - right. left. apply (Hold r); [reflexivity|discriminate|].
    cbn [step] in Hstep. destruct (heap s !! r); [eauto|discriminate].
  - right. left. apply (Hold r); [reflexivity|discriminate|].
    cbn [step] in Hstep. destruct (heap s !! r); [eauto|discriminate].
  - right. left. apply (Hold r); [reflexivity|discriminate|].
    cbn [step] in Hstep. destruct (heap s !! r); [eauto|discriminate].
  - right. left. apply (Hold r); [reflexivity|discriminate|].
    cbn [step] in Hstep. destruct (heap s !! r); [eauto|discriminate].
  - right. left. apply (Hold r); [reflexivity|discriminate|].
    cbn [step] in Hstep. destruct (heap s !! r); [eauto|discriminate].
  - cbn [step] in Hstep. destruct (xhrs s !! x) as [r|] eqn:Hx; [|discriminate].
    right. left. apply (Hold r); [exact Hx|discriminate|].
    destruct (inv_listener P s x r HI Hx) as (e & He & _). eauto.
  - pose proof Hstep as Hstep'.
    cbn [step] in Hstep'. destruct (xhrs s !! x) as [r|] eqn:Hx; [|discriminate].
    right. left. apply (Hold r); [exact Hx|discriminate|].
    destruct (inv_listener P s x r HI Hx) as (e & He & _). eauto.
  - left. split; [|left; eauto].
    destruct (step_heap P s _ s' Hstep) as [Hh | [(file & now & [=]) _]]; exact Hh.
  - left. split; [|left; eauto].
    destruct (step_heap P s _ s' Hstep) as [Hh | [(file & now & [=]) _]]; exact Hh.
Qed.

Lemma last_status_app r tr new :
  last_status r (tr ++ new)
  = match last_status r new with
    | Some st => Some st
    | None => last_status r tr
    end.
Proof.
  induction tr as [|eff tr IH]; cbn [app last_status].
  - now destruct (last_status r new).
  - rewrite IH. now destruct (last_status r new).
Qed.

Hypothesis Hobs : onChangeStatus P = true.

Lemma last_status_notify r2 r st :
  last_status r2 (notify P r st) = if Nat.eqb r r2 then Some st else None.
Proof. unfold notify. rewrite Hobs. reflexivity. Qed.

Lemma last_status_preview r2 u ty ks :
  last_status r2 (preview_blocks_effects P u ty ks) = None.
Proof.
  induction ks as [|k ks IH]; cbn [preview_blocks_effects]; [reflexivity|].
  destruct (startsWith ty (kind_prefix k) && includes (previewTypes P) (kind_name k));
    [reflexivity | exact IH].
Qed.

Lemma last_status_upload_start r2 r :
  last_status r2 (upload_start P r)
  = if Nat.eqb r r2 then Some (if getUploadParams P then uploading else done) else None.
Proof.
  unfold upload_start. rewrite !last_status_app, last_status_notify.
  cbn [last_status]. destruct (Nat.eqb r r2); [reflexivity|].
  destruct (getUploadParams P); reflexivity.
Qed.

(** What the observer hears of an event is the new status of the object
    the event addresses; it hears nothing only if the status is the same. *)
Lemma effects_told s ev s' r e r2 :
  step P s ev = Some s' ->
  status_kept ev ->
  match ev with
  | EvHandleFile file now =>
      accepts P s file = true /\ e = fresh_entry file now (next_id s)
      /\ r = length (heap s)
  | _ => addressed s ev = Some r /\ heap s !! r = Some e
  end ->
  exists told,
    last_status r2 (effects P s ev) = (if Nat.eqb r r2 then told else None) /\
    (told = Some (m_status (e_meta (change P s ev e))) \/
     (told = None /\ m_status (e_meta (change P s ev e)) = m_status (e_meta e) /\
      forall file now, ev <> EvHandleFile file now)).
Proof.
  intros Hstep Hk Hadd.
  assert (Hsame : forall eff, (forall file now, ev <> EvHandleFile file now) ->
            last_status r2 eff = None ->
            m_status (e_meta (change P s ev e)) = m_status (e_meta e) ->
            exists told,
              last_status r2 eff = (if Nat.eqb r r2 then told else None) /\
              (told = Some (m_status (e_meta (change P s ev e))) \/
               (told = None /\
                m_status (e_meta (change P s ev e)) = m_status (e_meta e) /\
                forall file now, ev <> EvHandleFile file now))).
  { intros eff Hnf H0 Heq. exists None. split; [now destruct (Nat.eqb r r2)|].
    right. auto. }
  assert (Htold : forall eff st,
            last_status r2 eff = (if Nat.eqb r r2 then Some st else None) ->
            st = m_status (e_meta (change P s ev e)) ->
            exists told,
              last_status r2 eff = (if Nat.eqb r r2 then told else None) /\
              (told = Some (m_status (e_meta (change P s ev e))) \/
               (told = None /\
                m_status (e_meta (change P s ev e)) = m_status (e_meta e) /\
                forall file now, ev <> EvHandleFile file now))).
  { intros eff st H0 ->. eexists. split; [exact H0|]. now left. }
  destruct ev as [file now|r0 d|r0|r0 h|r0|r0 p|x loaded total|x rs st|i|i];
    cbn [addressed] in Hadd; cbn [step] in Hstep.
  - destruct Hadd as (Hacc & -> & ->). cbn [effects]. rewrite Hacc.
    cbn [change] in *.
    destruct (f_size file >? maxSizeBytes P).
    + apply (Htold _ error_file_size); [|reflexivity].
      rewrite !last_status_app, !last_status_notify. cbn [last_status].
      destruct (Nat.eqb (length (heap s)) r2); reflexivity.
    + apply (Htold _ preparing);
        [|now rewrite (po_status _ _ (generatePreview_on_only P (next_url s) _))].
      rewrite !last_status_app, !last_status_notify.
      unfold generatePreview_effects. destruct (no_media (f_type file)).
      * cbn. destruct (Nat.eqb (length (heap s)) r2); reflexivity.
      * cbn [last_status]. rewrite last_status_preview. cbn.
        destruct (Nat.eqb (length (heap s)) r2); reflexivity.
  - destruct Hadd as [[= <-] He]. rewrite He in Hstep.
    destruct (e_activation e) as [|k u ty|] eqn:Ha; try discriminate.
    apply Hsame; [discriminate| |].
    + cbn [effects]. rewrite He, Ha. apply last_status_preview.
    + cbn [change]. rewrite Ha.
      apply (po_status _ _ (generatePreview_resume_on_only P k u ty d e)).
  - apply Hsame; [discriminate|reflexivity|reflexivity].
  - destruct Hadd as [[= <-] He]. cbn [effects change] in *.
    rewrite handleFile_resume_on_cases in *. cbv zeta in *.
    assert (H0 : last_status r2 (if onUploadReady P then [OnUploadReady r0] else [])
                 = None) by (destruct (onUploadReady P); reflexivity).
    destruct (started_at_resume P h).
    + apply (Htold _ (if getUploadParams P then uploading else done)).
      * rewrite last_status_app, last_status_upload_start, H0.
        destruct (Nat.eqb r0 r2); reflexivity.
      * unfold triggerUpload_on.
        destruct (onUploadReady P); cbn; destruct (getUploadParams P); reflexivity.
    + apply Hsame; [discriminate| |].
      * rewrite last_status_app, H0. reflexivity.
      * destruct (onUploadReady P); reflexivity.
  - destruct Hadd as [[= <-] He]. cbn [effects change] in *. rewrite He.
    cbn [upload_start_if]. unfold triggerUpload_on in *.
    destruct (e_triggered e) as [[|]|].
    + apply Hsame; [discriminate|reflexivity|reflexivity].
    + apply (Htold _ (if getUploadParams P then uploading else done)).
      * apply last_status_upload_start.
      * destruct (getUploadParams P); reflexivity.
    + apply Hsame; [discriminate|reflexivity|reflexivity].
  - destruct Hadd as [[= <-] He]. cbn [effects change] in *. rewrite He.
    unfold uploadFile_resume_on in *. destruct (no_url p) eqn:Hnu.
    + apply (Htold _ error_upload_params); [|reflexivity].
      rewrite last_status_app, last_status_notify. cbn [last_status].
      destruct (Nat.eqb r0 r2); reflexivity.
    + destruct p as [params|]; [|discriminate Hnu].
      apply Hsame; [discriminate| |].
      * unfold request. destruct (p_url params); reflexivity.
      * cbn [status_kept] in Hk. cbn.
        destruct (p_meta params) as [x|]; cbn; rewrite ?Hk; reflexivity.
  - apply Hsame; [discriminate|reflexivity|reflexivity].
  - destruct Hadd as [Hx He]. cbn [effects change] in *. rewrite Hx, He.
    unfold on_readystatechange_on in *.
    destruct (negb (rs =? 2) && negb (rs =? 4)) eqn:Hrs.
    + apply Hsame; [discriminate|reflexivity|reflexivity].
    + eapply Htold; [|reflexivity].
      rewrite last_status_app, last_status_notify. cbn [last_status].
      destruct (Nat.eqb r r2); reflexivity.
  - destruct Hadd as [[=] _].
  - destruct Hadd as [[=] _].
Qed.

(** X15.  With an [onChangeStatus] observer, and as long as no upload
    parameters carry a [status] key in their extra metadata, the observer
    knows the status of every entry: the status it was told last for an
    entry is the status the entry has. *)
Theorem observer_knows_the_status (evs : list Event) (s : State) (r : ref) (e : Entry) :
  run P init evs = Some s ->
  Forall status_kept evs ->
  heap s !! r = Some e ->
  last_status r (trace s) = Some (m_status (e_meta e)).
Proof.
  intros Hrun Hk. revert r e.
  assert (Hgen : forall s0, Inv P s0 ->
            (forall r e, heap s0 !! r = Some e ->
                         last_status r (trace s0) = Some (m_status (e_meta e))) ->
            run P s0 evs = Some s ->
            forall r e, heap s !! r = Some e ->
                        last_status r (trace s) = Some (m_status (e_meta e))).
  { clear Hrun. induction Hk as [|ev evs Hev _ IH]; cbn; intros s0 HI HQ Hrun.
    - now injection Hrun as <-.
    - destruct (step P s0 ev) as [s1|] eqn:Hs; [|discriminate].
      apply (IH s1); [apply (step_ok P s0 ev s1 HI Hs)| |exact Hrun].
      clear IH Hrun. intros r e He.
      rewrite (step_trace P s0 ev s1 Hs), last_status_app.
      destruct (step_shape s0 ev s1 HI Hs)
        as [[Hh Hno] | [(r0 & e0 & Ha & He0 & Hh & Hnf) | (file & now & -> & Hacc & Hh)]].
      + rewrite Hh in He.
        assert (H0 : last_status r (effects P s0 ev) = None).
        { destruct Hno as [(i & [-> | ->]) | ->]; [| |reflexivity]; cbn [effects].
          - destruct (findIndex (heap s0) i (files s0)) as [idx|]; [|reflexivity].
            destruct (files s0 !! idx) as [r1|]; [|reflexivity].
            destruct (heap s0 !! r1) as [e1|]; [|reflexivity].
            destruct (e_xhr e1); [|reflexivity]. destruct (onCancel P); reflexivity.
          - destruct (findIndex (heap s0) i (files s0)) as [idx|]; [|reflexivity].
            destruct (files s0 !! idx) as [r1|]; [|reflexivity].
            destruct (onRemove P); reflexivity. }
        rewrite H0. now apply HQ.
      + assert (Hadd : match ev with
                       | EvHandleFile file now =>
                           accepts P s0 file = true /\
                           e0 = fresh_entry file now (next_id s0) /\
                           r0 = length (heap s0)
                       | _ => addressed s0 ev = Some r0 /\ heap s0 !! r0 = Some e0
                       end).
        { destruct ev; try (split; assumption). now destruct (Hnf file now). }
        destruct (effects_told s0 ev s1 r0 e0 r Hs Hev Hadd) as (told & Ht & Hor).
        rewrite Ht, Hh in *. destruct (Nat.eqb_spec r0 r) as [->|Hne].
        * rewrite list_lookup_alter_eq, He0 in He. injection He as <-.
          destruct Hor as [-> | (-> & Heq & _)]; [reflexivity|].
          rewrite Heq. now apply HQ.
        * rewrite list_lookup_alter_ne in He by exact Hne. now apply HQ.
      + destruct (effects_told s0 (EvHandleFile file now) s1 (length (heap s0))
                    (fresh_entry file now (next_id s0)) r Hs Hev
                    (conj Hacc (conj eq_refl eq_refl))) as (told & Ht & Hor).
        rewrite Ht, Hh in *. destruct (Nat.eqb_spec (length (heap s0)) r) as [<-|Hne].
        * rewrite list_lookup_alter_eq, list_lookup_middle in He by reflexivity.
          injection He as <-.
          destruct Hor as [-> | (_ & _ & Hnf)]; [reflexivity|].
          now destruct (Hnf file now).
        * rewrite list_lookup_alter_ne in He by exact Hne.
          apply lookup_app_Some in He. destruct He as [He | [Hge He]].
          -- now apply HQ.
          -- apply list_lookup_singleton_Some in He. lia. }
  apply (Hgen init); [apply inv_init| |exact Hrun].
  intros r e. cbn. now rewrite lookup_nil.
Qed.

End Observer.

(** ** The deferred-upload trigger, over runs (C4) *)

Section Trigger.

Context (P : Props).
Implicit Types (s : State) (r : ref) (e : Entry).

(** Only the provider's answer with a URL puts a request on an entry. *)
Lemma sent_change s ev e r :
  addressed s ev = Some r ->
  (forall file now, ev <> EvHandleFile file now) ->
  sent (change P s ev e) = if answers r ev then 1%nat else sent e.
Proof.
  intros Ha Hnf. unfold sent.
  destruct ev as [file now|r0 d|r0|r0 h|r0|r0 p|x loaded total|x rs st|i|i];
    cbn [change answers addressed] in *; try reflexivity.
  - now destruct (Hnf file now).
  - destruct (e_activation e); try reflexivity.
    now rewrite (po_xhr _ _ (generatePreview_resume_on_only P _ _ _ d e)).
  - rewrite handleFile_resume_on_cases. cbv zeta. unfold triggerUpload_on.
    destruct (started_at_resume P h), (onUploadReady P); cbn;
      try reflexivity; destruct (getUploadParams P); reflexivity.
  - unfold triggerUpload_on. destruct (e_triggered e) as [[|]|]; try reflexivity.
    destruct (getUploadParams P); reflexivity.
  - injection Ha as ->. rewrite Nat.eqb_refl. cbn [andb].
    unfold uploadFile_resume_on. destruct (no_url p); reflexivity.
  - unfold on_readystatechange_on.
    destruct (negb (rs =? 2) && negb (rs =? 4)); [reflexivity|].
    destruct (st =? 0); [reflexivity|]. destruct (st <? 400); [|reflexivity].
    destruct (rs =? 2), (rs =? 4); reflexivity.
Qed.

Lemma answers_addressed s ev r : answers r ev = true -> addressed s ev = Some r.
Proof.
  destruct ev; try discriminate. cbn.
  intros [->%Nat.eqb_eq _]%Bool.andb_true_iff. reflexivity.
Qed.

Lemma sent_step s ev s' r e :
  Inv P s -> step P s ev = Some s' -> heap s !! r = Some e ->
  exists e', heap s' !! r = Some e' /\
             sent e' = if answers r ev then 1%nat else sent e.
Proof.
  intros HI Hstep He.
  assert (Hother : addressed s ev <> Some r -> answers r ev = false).
  { intros Hne. destruct (answers r ev) eqn:Ha; [|reflexivity].
    now apply (answers_addressed s) in Ha. }
  destruct (step_shape P s ev s' HI Hstep)
    as [[Hh Hno] | [(r0 & e0 & Ha & He0 & Hh & Hnf) | (file & now & -> & Hacc & Hh)]].
  - exists e. rewrite Hh. split; [exact He|].
    destruct Hno as [(i & [-> | ->]) | Hnil]; try reflexivity.
    destruct ev; try reflexivity. cbn [answers].
    destruct (Nat.eqb_spec r0 r) as [->|]; [|reflexivity]. cbn [andb].
    destruct (no_url p) eqn:Hnu; [reflexivity|]. exfalso.
    cbn [effects] in Hnil. rewrite Hnu, He in Hnil.
    destruct p as [params|]; [|discriminate Hnu].
    unfold request, no_url in *. destruct (p_url params); discriminate.
  - destruct (decide (r0 = r)) as [->|Hne].
    + exists (change P s ev e). rewrite He in He0. injection He0 as <-.
      rewrite Hh, list_lookup_alter_eq, He. split; [reflexivity|].
      now apply sent_change.
    + exists e. rewrite Hh, list_lookup_alter_ne by exact Hne. split; [exact He|].
      rewrite Hother; [reflexivity|]. congruence.
  - exists e. rewrite Hh. pose proof (lookup_lt_Some _ _ _ He).
    rewrite list_lookup_alter_ne by lia. split; [now apply lookup_app_l_Some|].
    reflexivity.
Qed.

Lemma sent_run evs : forall s s' r e,
  Inv P s -> run P s evs = Some s' -> heap s !! r = Some e ->
  exists e', heap s' !! r = Some e' /\
             sent e' = if existsb (answers r) evs then 1%nat else sent e.
Proof.
  induction evs as [|ev evs IH]; cbn [run existsb]; intros s s' r e HI Hrun He.
  - injection Hrun as <-. eauto.
  - destruct (step P s ev) as [s1|] eqn:Hs; [|discriminate].
    destruct (sent_step s ev s1 r e HI Hs He) as (e1 & He1 & Hs1).
    destruct (IH s1 s' r e1 (proj1 (step_ok P s ev s1 HI Hs)) Hrun He1)
      as (e' & He' & Hs').
    exists e'. split; [exact He'|]. rewrite Hs', Hs1.
    destruct (answers r ev), (existsb (answers r) evs); reflexivity.
Qed.

(** C4.  On an entry whose [triggerUpload] is exposed and has not run yet,
    the first call starts the upload once (one call of [uploadFile], which
    asks the provider) and moves the status once, to [uploading], or to
    [done] when there is no provider; the observer is called and the
    component re-renders.  From then on, whatever else happens in between,
    a call of [triggerUpload] changes nothing at all, [uploadFile] has
    been called exactly once for the entry (never without a provider), and
    exactly one request has been sent for it once the provider has
    answered with a URL, none before and none if it answered without. *)
Theorem triggerUpload_once (s : State) (r : ref) (e : Entry) :
  reachable P s ->
  heap s !! r = Some e ->
  e_triggerUpload e = true ->
  e_triggered e = Some false ->
  exists s1 e1,
    step P s (EvTrigger r) = Some s1 /\
    heap s1 !! r = Some e1 /\
    m_status (e_meta e1) = (if getUploadParams P then uploading else done) /\
    trace s1 = trace s ++ (if getUploadParams P then [GetUploadParams r] else [])
                 ++ notify P r (m_status (e_meta e1)) ++ [ForceUpdate] /\
    forall evs s2,
      run P s1 evs = Some s2 ->
      step P s2 (EvTrigger r) = Some s2 /\
      count (is_start r) (trace s2) = (if getUploadParams P then 1 else 0)%nat /\
      count (is_send r) (trace s2)
      = (if existsb (answers r) evs then 1 else 0)%nat.
Proof.
  intros Hreach He Hex Et.
  pose proof (reachable_inv P s Hreach) as HI.
  assert (Hstep : step P s (EvTrigger r) = Some (triggerUpload P r s))
    by (cbn [step]; now rewrite He, Hex).
  destruct (step_ok P s _ _ HI Hstep) as [HI1 _].
  assert (Hshape : exists e1,
             heap (triggerUpload P r s) !! r = Some e1 /\
             e_xhr e1 = e_xhr e /\
             e_triggered e1 = Some true /\ e_triggerUpload e1 = true /\
             m_status (e_meta e1) = (if getUploadParams P then uploading else done) /\
             trace (triggerUpload P r s)
             = trace s ++ (if getUploadParams P then [GetUploadParams r] else [])
                 ++ notify P r (m_status (e_meta e1)) ++ [ForceUpdate]).
  { unfold triggerUpload. rewrite He, Et. destruct (getUploadParams P).
    - unfold uploadFile.
      erewrite status_notify_render
        by (cbn [heap emit modify]; rewrite !list_lookup_alter_eq, He; reflexivity).
      eexists. cbn [heap trace emit modify].
      rewrite !list_lookup_alter_eq, He. cbn.
      repeat split; try reflexivity; [exact Hex | now rewrite <- app_assoc].
    - erewrite status_notify_render
        by (cbn [heap emit modify]; rewrite !list_lookup_alter_eq, He; reflexivity).
      eexists. cbn [heap trace emit modify].
      rewrite !list_lookup_alter_eq, He. cbn.
      repeat split; try reflexivity. exact Hex. }
  destruct Hshape as (e1 & He1 & Hx1 & Ht1 & Hex1 & Hst1 & Htr1).
  exists (triggerUpload P r s), e1.
  split; [exact Hstep|]. split; [exact He1|]. split; [exact Hst1|].
  split; [exact Htr1|].
  intros evs s2 Hrun.
  pose proof (run_inv P evs _ s2 HI1 Hrun) as HI2.
  destruct (run_kept P evs _ s2 HI1 Hrun) as [K1 _].
  destruct (K1 r e1 He1) as (e2 & He2 & Ht2 & Hex2 & _ & _).
  specialize (Ht2 Ht1). specialize (Hex2 Hex1).
  pose proof (inv_entries _ _ HI2 r e2 He2) as Hok.
  split; [|split].
  - cbn [step]. rewrite He2, Hex2. unfold triggerUpload. now rewrite He2, Ht2.
  - rewrite (ok_starts _ _ _ _ Hok). unfold started. now rewrite Ht2.
  - rewrite (ok_sent _ _ _ _ Hok).
    destruct (sent_run evs _ s2 r e1 HI1 Hrun He1) as (e2' & He2' & Hs2).
    rewrite He2 in He2'. injection He2' as <-. rewrite Hs2.
    destruct (inv_not_started P s r e HI He) as (_ & Hnone & _); [congruence|].
    unfold sent. now rewrite Hx1, Hnone.
Qed.

End Trigger.

(** ** Entry ids, once more (C9) *)

Section Ids.

Context (P : Props).
Implicit Types (s : State) (r : ref) (e : Entry).

(** C9.  The id of an entry is not safe from the provider.  Whenever an
    entry waits for its upload parameters and the provider answers with a
    URL and extra metadata that has an [id] key, line 214 puts that id on
    the entry in place of the one from the counter.  If it is the id of
    another entry, two entries carry the same id from then on; nothing
    else about the list or the other entry changes. *)
Theorem provider_id_replaces_counter_id (s : State) (r r2 : ref) (e e2 : Entry)
        (p : Params) (x : ExtraMeta) :
  reachable P s ->
  heap s !! r = Some e ->
  e_awaiting_params e <> 0%nat ->
  heap s !! r2 = Some e2 ->
  r2 <> r ->
  no_url (Some p) = false ->
  p_meta p = Some x ->
  x_id x = Some (m_id (e_meta e2)) ->
  exists s' e',
    step P s (EvParams r (Some p)) = Some s' /\
    reachable P s' /\
    files s' = files s /\
    heap s' !! r = Some e' /\
    heap s' !! r2 = Some e2 /\
    m_id (e_meta e') = m_id (e_meta e2).
Proof.
  intros Hreach He Hw He2 Hne Hnu Hx Hid.
  assert (Hstep : exists s', step P s (EvParams r (Some p)) = Some s').
  { cbn [step]. rewrite He. destruct (e_awaiting_params e); [contradiction|]. eauto. }
  destruct Hstep as [s' Hstep].
  exists s', (change P s (EvParams r (Some p)) e).
  split; [exact Hstep|]. split; [|split; [|split; [|split]]].
  - apply (reachable_run P [EvParams r (Some p)] s s' Hreach). cbn [run].
    now rewrite Hstep.
  - now destruct (step_parts P s _ s' Hstep) as (-> & _).
  - destruct (step_heap P s _ s' Hstep) as [Hh | [(file & now & [=]) _]].
    cbn [addressed] in Hh. now rewrite Hh, list_lookup_alter_eq, He.
  - destruct (step_entry P s _ s' r2 e2 Hstep He2) as [H | (Ha & _)]; [exact H|].
    cbn [addressed] in Ha. congruence.
  - cbn [change]. unfold uploadFile_resume_on. rewrite Hnu. cbn. rewrite Hx. cbn.
    now rewrite Hid.
Qed.

End Ids.

(** ** Unmounting *)

Section Unmount.

Context (P : Props).
Implicit Types (s : State) (r : ref) (e : Entry).

Lemma handle_or_waiting_change s ev s' e :
  step P s ev = Some s' ->
  match ev with
  | EvHandleFile file now => e = fresh_entry file now (next_id s)
  | _ => exists r, addressed s ev = Some r /\ heap s !! r = Some e
  end ->
  handle_or_waiting e -> handle_or_waiting (change P s ev e).
Proof.
  intros Hstep Hadd J. unfold handle_or_waiting in *.
  destruct ev as [file now|r d|r|r h|r|r p|x loaded total|x rs st|i|i];
    cbn [change]; try exact J.
  - subst e. destruct (f_size file >? maxSizeBytes P); [discriminate|].
    rewrite (po_status _ _ (generatePreview_on_only P (next_url s) _)). discriminate.
  - destruct (e_activation e) as [|k u ty|]; try exact J.
    pose proof (generatePreview_resume_on_only P k u ty d e) as Hpo.
    now rewrite (po_status _ _ Hpo), (po_xhr _ _ Hpo), (po_awaiting _ _ Hpo).
  - rewrite handleFile_resume_on_cases. cbv zeta. unfold triggerUpload_on.
    destruct (started_at_resume P h), (onUploadReady P); cbn;
      try exact J; destruct (getUploadParams P); cbn; try discriminate;
      intros _; right; discriminate.
  - unfold triggerUpload_on. destruct (e_triggered e) as [[|]|]; try exact J.
    destruct (getUploadParams P); cbn; [intros _; right|]; discriminate.
  - unfold uploadFile_resume_on. destruct (no_url p); cbn; [discriminate|].
    intros _. left. discriminate.
  - unfold on_readystatechange_on.
    destruct (negb (rs =? 2) && negb (rs =? 4)) eqn:Hrs; [exact J|].
    destruct (st =? 0); [discriminate|]. destruct (st <? 400); [|discriminate].
    destruct (rs =? 2), (rs =? 4); try discriminate.
Qed.

Lemma reachable_handle_or_waiting s r e :
  reachable P s -> heap s !! r = Some e -> handle_or_waiting e.
Proof.
  intros Hreach. revert r e. pattern s. revert s Hreach. apply (run_inv_from P).
  - intros r e. cbn. now rewrite lookup_nil.
  - intros s ev s' HI HQ Hstep r e He.
    destruct (step_shape P s ev s' HI Hstep)
      as [[Hh _] | [(r0 & e0 & Ha & He0 & Hh & Hnf) | (file & now & -> & Hacc & Hh)]];
      rewrite Hh in He.
    + now apply (HQ r).
    + destruct (decide (r0 = r)) as [->|Hne].
      * rewrite list_lookup_alter_eq, He0 in He. injection He as <-.
        apply (handle_or_waiting_change s ev s'); [exact Hstep| |now apply (HQ r)].
        destruct ev; eauto. now destruct (Hnf file now).
      * rewrite list_lookup_alter_ne in He by exact Hne. now apply (HQ r).
    + destruct (decide (length (heap s) = r)) as [<-|Hne].
      * rewrite list_lookup_alter_eq, list_lookup_middle in He by reflexivity.
        injection He as <-.
        apply (handle_or_waiting_change s _ s' _ Hstep eq_refl). discriminate.
      * rewrite list_lookup_alter_ne in He by exact Hne.
        apply lookup_app_Some in He. destruct He as [He | [Hge He]].
        -- now apply (HQ r).
        -- apply list_lookup_singleton_Some in He. lia.
Qed.

Lemma unmount_loop_app l1 l2 : forall s,
  (forall r e, In r l1 -> heap s !! r = Some e -> m_status (e_meta e) = uploading ->
               e_xhr e <> None) ->
  unmount_loop (l1 ++ l2) s
  = unmount_loop l2 (mkState (next_id s) (files s) (heap s) (xhrs s) (next_url s)
                             (trace s ++ aborts (heap s) l1)).
Proof.
  induction l1 as [|r l1 IH]; intros s Hall; cbn [app unmount_loop aborts flat_map].
  - rewrite app_nil_r. now destruct s.
  - fold (aborts (heap s) l1).
    assert (Hl : forall s0, heap s0 = heap s -> forall r0 e, In r0 l1 ->
                   heap s0 !! r0 = Some e ->
                   m_status (e_meta e) = uploading -> e_xhr e <> None)
      by (intros s0 -> r0 e0 Hin; apply Hall; now right).
    destruct (heap s !! r) as [e|] eqn:He; [|now apply IH, Hl].
    destruct (Status_eqb (m_status (e_meta e)) uploading) eqn:Hst;
      [|now apply IH, Hl].
    apply Status_eqb_eq in Hst.
    destruct (e_xhr e) as [x|] eqn:Hx;
      [|now destruct (Hall r e (or_introl eq_refl) He Hst)].
    rewrite (IH (emit (XhrAbort x) s) (Hl _ eq_refl)). cbn.
    now rewrite <- app_assoc.
Qed.

(** X16.  Unmounting goes through the list and calls [abort] on the
    request of every entry that is [uploading].  If no listed entry is
    still waiting for its upload parameters, it ends after aborting
    exactly those requests, in list order, and touches nothing else.  If
    one is (it is [uploading] but has no [xhr] yet), it throws at the
    first such entry: the requests of the [uploading] entries before it
    have been aborted, those of the entries behind it are not.  [done_]
    are the entries gone through, [rest] those from the throwing one on. *)
Theorem unmount_aborts_or_throws (s : State) (done_ rest : list ref) :
  reachable P s ->
  files s = done_ ++ rest ->
  (forall r e, In r done_ -> heap s !! r = Some e -> e_awaiting_params e = 0%nat) ->
  match rest with
  | [] => True
  | r0 :: _ => exists e0, heap s !! r0 = Some e0 /\ e_awaiting_params e0 <> 0%nat
  end ->
  componentWillUnmount s
  = (match rest with [] => Completed | _ :: _ => Threw end)
      (mkState (next_id s) (files s) (heap s) (xhrs s) (next_url s)
               (trace s ++ aborts (heap s) done_)).
Proof.
  intros Hreach Hl Hdone Hrest.
  pose proof (reachable_inv P s Hreach) as HI.
  unfold componentWillUnmount.
  replace (unmount_loop (files s) s) with (unmount_loop (done_ ++ rest) s)
    by (now rewrite Hl).
  rewrite unmount_loop_app.
  - destruct rest as [|r0 rest]; [reflexivity|].
    destruct Hrest as (e0 & He0 & Hw).
    pose proof (di_awaiting _ (reachable_disciplined P s r0 e0 Hreach He0) Hw) as Hst.
    destruct (e_awaiting_params e0) as [|n] eqn:Hn; [congruence|].
    destruct (inv_awaiting P s r0 e0 n HI He0 Hn) as (_ & _ & _ & Hx & _).
    cbn [unmount_loop heap]. rewrite He0, Hst, Hx. reflexivity.
  - intros r e Hin He Hst.
    destruct (reachable_handle_or_waiting s r e Hreach He Hst) as [H|H]; [exact H|].
    now destruct (H (Hdone r e Hin He)).
Qed.

End Unmount.

(** ** Requests *)

Section Requests.

Context (P : Props).
Implicit Types (s : State) (r : ref) (e : Entry).

Lemma no_request_notify r st : Forall no_request (notify P r st).
Proof. unfold notify. destruct (onChangeStatus P); repeat constructor. Qed.

Lemma no_request_upload_start r : Forall no_request (upload_start P r).
Proof.
  unfold upload_start. rewrite !Forall_app. repeat split.
  - destruct (getUploadParams P); repeat constructor.
  - apply no_request_notify.
  - repeat constructor.
Qed.

Lemma no_request_preview u ty ks : Forall no_request (preview_blocks_effects P u ty ks).
Proof.
  induction ks as [|k ks IH]; cbn [preview_blocks_effects]; [repeat constructor|].
  destruct (startsWith ty (kind_prefix k) && includes (previewTypes P) (kind_name k));
    [constructor | exact IH].
Qed.

(** Only the continuation of [uploadFile] sends requests. *)
Lemma effects_no_request s ev :
  (forall r p, ev <> EvParams r p) -> Forall no_request (effects P s ev).
Proof.
  intros Hev.
  destruct ev as [file now|r d|r|r h|r|r p|x loaded total|x rs st|i|i];
    cbn [effects].
  - destruct (accepts P s file); [|constructor].
    rewrite !Forall_app. repeat split; [apply no_request_notify|repeat constructor|].
    destruct (f_size file >? maxSizeBytes P).
    + rewrite Forall_app. split; [apply no_request_notify|repeat constructor].
    + unfold generatePreview_effects. destruct (no_media (f_type file));
        [constructor|]. constructor; [exact I|apply no_request_preview].
  - destruct (heap s !! r) as [e|]; [|constructor].
    destruct (e_activation e); try constructor. apply no_request_preview.
  - constructor.
  - rewrite Forall_app. split.
    + destruct (onUploadReady P); repeat constructor.
    + destruct (started_at_resume P h); [apply no_request_upload_start|constructor].
  - unfold upload_start_if. destruct (heap s !! r) as [e|]; [|constructor].
    destruct (e_triggered e) as [[|]|]; try constructor. apply no_request_upload_start.
  - now destruct (Hev r p).
  - repeat constructor.
  - destruct (negb (rs =? 2) && negb (rs =? 4)); [constructor|].
    destruct (xhrs s !! x) as [r|]; [|constructor].
    rewrite Forall_app. split; [|repeat constructor].
    destruct (heap s !! r); [apply no_request_notify|constructor].
  - destruct (findIndex (heap s) i (files s)) as [idx|]; [|constructor].
    destruct (files s !! idx) as [r|]; [|constructor].
    destruct (heap s !! r) as [e|]; [|constructor].
    destruct (e_xhr e) as [xhr|]; [|constructor].
    destruct (onCancel P); repeat constructor.
  - destruct (findIndex (heap s) i (files s)) as [idx|]; [|constructor].
    destruct (files s !! idx) as [r|]; [|constructor].
    destruct (onRemove P); repeat constructor.
Qed.

Lemma request_ok_step s ev s' x r m t hs b p :
  Inv P s -> step P s ev = Some s' ->
  request_ok s x r m t hs b p -> request_ok s' x r m t hs b p.
Proof.
  intros HI Hstep [R1 R2 R3 R4 R5 (e & He & Hx & Hb)].
  destruct (step_ok P s ev s' HI Hstep) as [_ HT].
  destruct (tr_keep _ _ _ HT r e He) as (e' & He' & _ & _ & Hkeep & _).
  split; auto.
  - pose proof (step_parts P s ev s' Hstep) as Hp.
    destruct ev as [file now|r0 d|r0|r0 h|r0|r0 p0|x0 loaded total|x0 rs st|i|i];
      try (destruct Hp as (_ & _ & ->); exact R5).
    + destruct Hp as [-> | (_ & _ & _ & ->)]; exact R5.
    + destruct Hp as (_ & _ & ->). destruct (no_url p0); [exact R5|].
      now apply lookup_app_l_Some.
    + destruct Hp as (_ & -> & _). exact R5.
  - exists e'. split; [exact He'|]. split; [now apply Hkeep|].
    rewrite Hb. do 4 f_equal.
    destruct (step_entry P s ev s' r e Hstep He) as [H | (_ & H & _)];
      rewrite He' in H; injection H as ->; [reflexivity|].
    now rewrite change_file.
Qed.

(** A request in the effects of an event is the one made of the answer
    that the event brings. *)
Lemma request_made s ev s' x r m t hs b :
  step P s ev = Some s' ->
  In (XhrSend x r m t hs b) (effects P s ev) ->
  exists p, ev = EvParams r (Some p) /\ request_ok s' x r m t hs b p.
Proof.
  intros Hstep Hin.
  destruct ev as [file now|r0 d|r0|r0 h|r0|r0 p|x0 loaded total|x0 rs st|i|i];
    try (exfalso;
         match goal with
         | H : In _ (effects P s ?ev) |- _ =>
             pose proof (effects_no_request s ev) as Hno;
             rewrite List.Forall_forall in Hno;
             apply (Hno ltac:(discriminate) _ H)
         end).
  cbn [effects] in Hin. destruct (no_url p) eqn:Hnu.
  { exfalso. apply in_app_or in Hin. destruct Hin as [Hin | [Hin | []]];
      [|discriminate Hin].
    pose proof (no_request_notify r0 error_upload_params) as Hno.
    rewrite List.Forall_forall in Hno. apply (Hno _ Hin). }
  destruct p as [params|]; [|discriminate Hnu].
  destruct (heap s !! r0) as [e|] eqn:He; [|destruct Hin].
  unfold request in Hin. pose proof Hnu as Hnu'. unfold no_url in Hnu.
  destruct (p_url params) as [target|] eqn:Hu; [|discriminate Hnu].
  destruct Hin as [Hin | []]. injection Hin as <- <- <- <- <- <-.
  pose proof (step_parts P s _ s' Hstep) as (_ & _ & Hx). rewrite Hnu' in Hx.
  exists params. split; [reflexivity|]. split; auto.
  - intros ->. discriminate Hnu.
  - rewrite Hx. now apply list_lookup_middle.
  - destruct (step_heap P s _ s' Hstep) as [Hh | [(file & now & [=]) _]].
    cbn [addressed] in Hh. eexists. split.
    + rewrite Hh, list_lookup_alter_eq, He. reflexivity.
    + cbn [change]. unfold uploadFile_resume_on. rewrite Hnu'.
      split; reflexivity.
Qed.

(** X17.  Every request that was sent is the one that [uploadFile] makes
    of an answer of the provider for that entry: it went to the URL of the
    answer, which is not empty, with the method of the answer or POST;
    its headers are [X-Requested-With: XMLHttpRequest] followed by the
    headers of the answer; its body has the fields of the answer followed
    by the file of the entry; the listeners of the request belong to that
    entry, and the entry still holds the request as its [xhr]. *)
Theorem requests_in_order (evs : list Event) (s : State) (x : xhrid) (r : ref)
        (method target : string) (headers : list (string * string))
        (body : list (string * Part)) :
  run P init evs = Some s ->
  In (XhrSend x r method target headers body) (trace s) ->
  exists p,
    In (EvParams r (Some p)) evs /\
    request_ok s x r method target headers body p.
Proof.
  intros Hrun.
  assert (Hgen : forall evs past s0,
            Inv P s0 ->
            (forall x r m t hs b, In (XhrSend x r m t hs b) (trace s0) ->
               exists p, In (EvParams r (Some p)) past /\ request_ok s0 x r m t hs b p) ->
            run P s0 evs = Some s ->
            forall x r m t hs b, In (XhrSend x r m t hs b) (trace s) ->
              exists p, In (EvParams r (Some p)) (past ++ evs)
                        /\ request_ok s x r m t hs b p).
  { clear evs Hrun. induction evs as [|ev evs IH]; cbn [run]; intros past s0 HI HQ Hrun.
    - injection Hrun as <-. rewrite app_nil_r. exact HQ.
    - destruct (step P s0 ev) as [s1|] eqn:Hs; [|discriminate].
      replace (past ++ ev :: evs) with ((past ++ [ev]) ++ evs)
        by (now rewrite <- app_assoc).
      apply (IH (past ++ [ev]) s1); [apply (step_ok P s0 ev s1 HI Hs)| |exact Hrun].
      intros x0 r0 m t hs b Hin.
      rewrite (step_trace P s0 ev s1 Hs) in Hin. apply in_app_or in Hin.
      destruct Hin as [Hin | Hin].
      + destruct (HQ _ _ _ _ _ _ Hin) as (p & Hp & Hok). exists p. split.
        * apply in_or_app. now left.
        * now apply (request_ok_step s0 ev s1).
      + destruct (request_made s0 ev s1 _ _ _ _ _ _ Hs Hin) as (p & -> & Hok).
        exists p. split; [|exact Hok]. apply in_or_app. right. now left. }
  apply (Hgen evs [] init (inv_init P)); [|exact Hrun].
  intros ? ? ? ? ? ? [].
Qed.

End Requests.

(** ** The drop zone *)

Section DropZone.

Implicit Types (d : Drag) (t : nat).

Lemma leaves_state n d :
  let d' := Nat.iter (S n) handleDragLeave d in
  active d' = active d /\
  _timeoutId d' = Some (next_timer d + n)%nat /\
  timers d' = timers d ++ seq (next_timer d) (S n) /\
  next_timer d' = (next_timer d + S n)%nat.
Proof.
  induction n as [|n IH]; cbn zeta.
  - cbn. rewrite Nat.add_0_r, Nat.add_1_r. repeat split.
  - cbv zeta in IH. destruct IH as (Ha & _ & Ht & Hn).
    change (Nat.iter (S (S n)) handleDragLeave d)
      with (handleDragLeave (Nat.iter (S n) handleDragLeave d)).
    set (X := Nat.iter (S n) handleDragLeave d) in *.
    unfold handleDragLeave. cbn [active _timeoutId timers next_timer].
    rewrite Ha, Ht, Hn. repeat split.
    + rewrite <- app_assoc. f_equal. now rewrite (seq_S (S n)).
    + lia.
Qed.

Lemma filter_all_other (l : list nat) t :
  Forall (fun t' => t' <> t) l ->
  List.filter (fun t' => negb (Nat.eqb t' t)) l = l.
Proof.
  induction 1 as [|a l Ha _ IH]; cbn; [reflexivity|].
  destruct (Nat.eqb_spec a t); [contradiction|]. cbn. now rewrite IH.
Qed.

(** X18.  A [dragover] cancels the deactivation timer of the last
    [dragleave] only.  After one [dragleave] followed by a [dragover] the
    zone is active and no timer is left; after several [dragleave]s in a
    row all but the last timer are left, and each of them, when it fires,
    deactivates the zone although the file is still over it. *)
Theorem dragover_cancels_last_leave_only (d : Drag) (n : nat) :
  Forall (fun t => (t < next_timer d)%nat) (timers d) ->
  let d' := handleDragOver (Nat.iter (S n) handleDragLeave d) in
  active d' = true /\
  timers d' = timers d ++ seq (next_timer d) n /\
  forall t, In t (timers d') ->
    exists d'', timeout t d' = Some d'' /\ active d'' = false.
Proof.
  intros Hold d'.
  destruct (leaves_state n d) as (_ & Hid & Ht & _). cbv zeta in Hid, Ht.
  assert (Htim : timers d' = timers d ++ seq (next_timer d) n).
  { unfold d', handleDragOver. cbn [timers]. rewrite Hid, Ht. unfold clearTimeout.
    rewrite seq_S, app_assoc, List.filter_app. cbn [List.filter].
    rewrite Nat.eqb_refl. cbn [negb]. rewrite app_nil_r.
    apply filter_all_other. apply Forall_app. split.
    - eapply Forall_impl; [exact Hold|]. cbn. intros t Hlt. lia.
    - apply Forall_forall. intros t Hin%list_elem_of_In%in_seq. lia. }
  split; [reflexivity|]. split; [exact Htim|].
  intros t Hin. unfold timeout.
  assert (Hex : existsb (Nat.eqb t) (timers d') = true).
  { apply existsb_exists. exists t. split; [exact Hin|apply Nat.eqb_refl]. }
  rewrite Hex. eauto.
Qed.

End DropZone.

(** ** Decoders *)

Section Decoders.

Context (P : Props).
Implicit Types (s : State) (r : ref) (e : Entry).

Lemma startsWith_audio_not_video (type : string) :
  startsWith type "audio/" = true -> startsWith type "video/" = false.
Proof.
  destruct type as [|c type]; cbn [startsWith]; [discriminate|].
  destruct (Ascii.eqb_spec "a"%char c) as [<-|]; [reflexivity | discriminate].
Qed.

(** A type has the prefix of one kind at most. *)
Lemma one_kind ty k k' :
  startsWith ty (kind_prefix k) = true -> In k' (rest_kinds k) ->
  startsWith ty (kind_prefix k') = false.
Proof.
  destruct k; cbn [rest_kinds kind_prefix In]; intros Hk Hin;
    repeat (destruct Hin as [<-|Hin];
            [cbn [kind_prefix];
             auto using startsWith_image_not_audio, startsWith_image_not_video,
               startsWith_audio_not_video|]);
    destruct Hin.
Qed.

Lemma preview_blocks_skip u ty ks e :
  Forall (fun k => startsWith ty (kind_prefix k) = false) ks ->
  preview_blocks_on P u ty ks e = entry_activation AwaitingPreview e /\
  preview_blocks_effects P u ty ks = [RevokeObjectURL u; ForceUpdate].
Proof.
  induction 1 as [|k ks Hk _ IH]; cbn [preview_blocks_on preview_blocks_effects];
    [split; reflexivity|].
  now rewrite Hk.
Qed.

(** Where a decoder is started. *)
Lemma preview_blocks_started u ty ks e k u' ty' :
  e_activation e = Returned ->
  e_activation (preview_blocks_on P u ty ks e) = AwaitingDecode k u' ty' ->
  u' = u /\ ty' = ty /\ In k ks /\
  startsWith ty (kind_prefix k) = true /\
  includes (previewTypes P) (kind_name k) = true /\
  e_meta (preview_blocks_on P u ty ks e)
  = match k with
    | Image => meta_previewUrl u (e_meta e)
    | _ => e_meta e
    end.
Proof.
  intros Hret. induction ks as [|k0 ks IH]; cbn [preview_blocks_on].
  - discriminate.
  - destruct (startsWith ty (kind_prefix k0)) eqn:Hs;
      [destruct (includes (previewTypes P) (kind_name k0)) eqn:Hi|]; cbn [andb].
    + cbn. intros [= <- <- <-]. repeat split; auto. destruct k0; reflexivity.
    + intros H. destruct (IH H) as (? & ? & ? & ? & ? & ?).
      repeat split; auto. now right.
    + intros H. destruct (IH H) as (? & ? & ? & ? & ? & ?).
      repeat split; auto. now right.
Qed.

Lemma activation_triggerUpload_on e :
  e_activation (triggerUpload_on P e) = e_activation e.
Proof.
  unfold triggerUpload_on. destruct (e_triggered e) as [[|]|]; try reflexivity.
  destruct (getUploadParams P); reflexivity.
Qed.

Lemma decoding_ok_change s ev s' e k u ty :
  Inv P s -> step P s ev = Some s' ->
  match ev with
  | EvHandleFile file now => e = fresh_entry file now (next_id s)
  | _ => exists r, addressed s ev = Some r /\ heap s !! r = Some e
  end ->
  (forall k u ty, e_activation e = AwaitingDecode k u ty -> decoding_ok P e k u ty) ->
  e_activation (change P s ev e) = AwaitingDecode k u ty ->
  decoding_ok P (change P s ev e) k u ty.
Proof.
  intros HI Hstep Hadd Hok.
  destruct ev as [file now|r d|r|r h|r|r p|x loaded total|x rs st|i|i];
    cbn [change addressed] in *.
  - subst e. destruct (f_size file >? maxSizeBytes P); [discriminate|].
    unfold generatePreview_on. cbn [fresh_entry e_meta m_type].
    destruct (no_media (f_type file)); [discriminate|].
    intros Ha.
    destruct (preview_blocks_started (next_url s) (f_type file) [Image; Audio; Video]
                (fresh_entry file now (next_id s)) k u ty eq_refl Ha)
      as (-> & -> & _ & Hk & Hen & Hm).
    split; auto; rewrite Hm; destruct k; reflexivity.
  - destruct Hadd as (r0 & [= <-] & He). cbn [step] in Hstep. rewrite He in Hstep.
    destruct (e_activation e) as [|k0 u0 ty0|] eqn:Ha0; try discriminate.
    destruct (Hok k0 u0 ty0 eq_refl) as [Hk0 _ _ _ _ _ _ _].
    unfold generatePreview_resume_on.
    assert (Hskip : Forall (fun k' => startsWith ty0 (kind_prefix k') = false)
                           (rest_kinds k0)).
    { apply Forall_forall. intros k' Hin%list_elem_of_In. now apply (one_kind ty0 k0). }
    destruct k0; cbn [rest_kinds] in *;
      rewrite (proj1 (preview_blocks_skip u0 ty0 _ _ Hskip)); discriminate.
  - exact (Hok k u ty).
  - rewrite handleFile_resume_on_cases. cbv zeta.
    destruct (started_at_resume P h); rewrite ?activation_triggerUpload_on;
      destruct (onUploadReady P); discriminate.
  - destruct Hadd as (r0 & [= <-] & He). cbn [step] in Hstep. rewrite He in Hstep.
    destruct (e_triggerUpload e) eqn:Hex; [|discriminate].
    rewrite activation_triggerUpload_on. intros Ha. exfalso.
    assert (Hsusp : e_activation e <> Returned) by (rewrite Ha; discriminate).
    destruct (inv_suspended P s r e HI He Hsusp) as (_ & Hno & _). congruence.
  - destruct Hadd as (r0 & [= <-] & He). cbn [step] in Hstep. rewrite He in Hstep.
    destruct (e_awaiting_params e) as [|n] eqn:Hn; [discriminate|].
    destruct (inv_awaiting P s r e n HI He Hn) as (_ & _ & Hret & _).
    unfold uploadFile_resume_on. destruct (no_url p); cbn; rewrite Hret; discriminate.
  - destruct Hadd as (r0 & Hx & He).
    destruct (inv_listener P s x r0 HI Hx) as (e0 & He0 & Hx0).
    rewrite He in He0. injection He0 as <-.
    destruct (inv_handle P s r0 e x HI He Hx0) as (_ & Hret & _).
    cbn. rewrite Hret. discriminate.
  - destruct Hadd as (r0 & Hx & He).
    destruct (inv_listener P s x r0 HI Hx) as (e0 & He0 & Hx0).
    rewrite He in He0. injection He0 as <-.
    destruct (inv_handle P s r0 e x HI He Hx0) as (_ & Hret & _).
    unfold on_readystatechange_on.
    destruct (negb (rs =? 2) && negb (rs =? 4)); [rewrite Hret; discriminate|].
    destruct (st =? 0); [cbn; rewrite Hret; discriminate|].
    destruct (st <? 400); [|cbn; rewrite Hret; discriminate].
    destruct (rs =? 2), (rs =? 4); cbn; rewrite Hret; discriminate.
  - destruct Hadd as (r0 & [=] & _).
  - destruct Hadd as (r0 & [=] & _).
Qed.

Lemma reachable_decoding_ok s r e k u ty :
  reachable P s -> heap s !! r = Some e ->
  e_activation e = AwaitingDecode k u ty -> decoding_ok P e k u ty.
Proof.
  intros Hreach. revert r e k u ty. pattern s. revert s Hreach.
  apply (run_inv_from P).
  - intros r e k u ty. cbn. now rewrite lookup_nil.
  - intros s ev s' HI HQ Hstep r e k u ty He.
    destruct (step_shape P s ev s' HI Hstep)
      as [[Hh _] | [(r0 & e0 & Ha & He0 & Hh & Hnf) | (file & now & -> & Hacc & Hh)]];
      rewrite Hh in He.
    + now apply (HQ r).
    + destruct (decide (r0 = r)) as [->|Hne].
      * rewrite list_lookup_alter_eq, He0 in He. injection He as <-.
        apply (decoding_ok_change s ev s');
          [exact HI|exact Hstep| |intros k1 u1 ty1; now apply (HQ r)].
        destruct ev; eauto. now destruct (Hnf file now).
      * rewrite list_lookup_alter_ne in He by exact Hne. now apply (HQ r).
    + destruct (decide (length (heap s) = r)) as [<-|Hne].
      * rewrite list_lookup_alter_eq, list_lookup_middle in He by reflexivity.
        injection He as <-.
        apply (decoding_ok_change s _ s' _ _ _ _ HI Hstep eq_refl). discriminate.
      * rewrite list_lookup_alter_ne in He by exact Hne.
        apply lookup_app_Some in He. destruct He as [He | [Hge He]].
        -- now apply (HQ r).
        -- apply list_lookup_singleton_Some in He. lia.
Qed.

(** X19.  One decoder per file.  A decoder is only ever started by the
    block of the file's own kind, with that kind enabled in
    [previewTypes]; only an image has its object URL in [previewUrl]
    meanwhile.  When the decoder reports ready, the block stores what it
    read (width and height; duration; duration, videoWidth and
    videoHeight), no other block runs, the URL is released, the component
    re-renders once, and [generatePreview] returns. *)
Theorem decoder_ready_completes_preview (s : State) (r : ref) (e : Entry)
        (k : MediaKind) (u : url) (ty : string) (d : Decoded) :
  reachable P s ->
  heap s !! r = Some e ->
  e_activation e = AwaitingDecode k u ty ->
  decoding_ok P e k u ty /\
  exists s',
    step P s (EvDecodeReady r d) = Some s' /\
    trace s' = trace s ++ [RevokeObjectURL u; ForceUpdate] /\
    heap s' !! r
    = Some (entry_activation AwaitingPreview (entry_meta (decoded_meta k d) e)).
Proof.
  intros Hreach He Ha.
  pose proof (reachable_decoding_ok s r e k u ty Hreach He Ha) as Hok.
  split; [exact Hok|].
  assert (Hskip : Forall (fun k' => startsWith ty (kind_prefix k') = false)
                         (rest_kinds k)).
  { apply Forall_forall. intros k' Hin%list_elem_of_In.
    apply (one_kind ty k); [apply (dc_kind _ _ _ _ _ Hok)|exact Hin]. }
  assert (Hstep : step P s (EvDecodeReady r d)
                  = Some (generatePreview_resume P r k u ty d s))
    by (cbn [step]; now rewrite He, Ha).
  eexists. split; [exact Hstep|]. split.
  - rewrite (step_trace P s _ _ Hstep). cbn [effects]. rewrite He, Ha.
    now rewrite (proj2 (preview_blocks_skip u ty _ e Hskip)).
  - rewrite heap_generatePreview_resume, list_lookup_alter_eq, He.
    cbn [fmap option_fmap option_map]. f_equal.
    unfold generatePreview_resume_on.
    destruct k; cbn [rest_kinds decoded_meta] in *;
      now rewrite (proj1 (preview_blocks_skip u ty _ _ Hskip)).
Qed.

End Decoders.

(** ** The properties on the sample runs *)

Lemma triggerUpload_once_witness :
  exists s1 e1,
    step Sample.props_hook (Sample.after Sample.props_hook Sample.deferred) (EvTrigger 0)
    = Some s1 /\
    heap s1 !! 0%nat = Some e1 /\
    m_status (e_meta e1)
    = (if getUploadParams Sample.props_hook then uploading else done) /\
    trace s1 = trace (Sample.after Sample.props_hook Sample.deferred)
                 ++ (if getUploadParams Sample.props_hook
                     then [GetUploadParams 0] else [])
                 ++ notify Sample.props_hook 0 (m_status (e_meta e1))
                 ++ [ForceUpdate] /\
    forall evs s2,
      run Sample.props_hook s1 evs = Some s2 ->
      step Sample.props_hook s2 (EvTrigger 0) = Some s2 /\
      count (is_start 0) (trace s2)
      = (if getUploadParams Sample.props_hook then 1 else 0)%nat /\
      count (is_send 0) (trace s2)
      = (if existsb (answers 0) evs then 1 else 0)%nat.
Proof.
  apply (triggerUpload_once Sample.props_hook
           (Sample.after Sample.props_hook Sample.deferred) 0
           (Sample.the_entry (Sample.after Sample.props_hook Sample.deferred) 0)).
  - exists Sample.deferred. vm_compute. reflexivity.
  - vm_compute. reflexivity.
  - vm_compute. reflexivity.
  - vm_compute. reflexivity.
Defined.

(** The closure called three times, the provider answering in between:
    one call of [uploadFile], one request. *)
Example triggered_thrice_sends_once :
  let s := Sample.after Sample.props_hook
             (Sample.deferred ++ [EvTrigger 0%nat; EvTrigger 0%nat;
                                  EvParams 0%nat (Sample.to "https://x/up" None);
                                  EvTrigger 0%nat]) in
  count (is_start 0) (trace s) = 1%nat /\
  count (is_send 0) (trace s) = 1%nat /\
  e_xhr (Sample.the_entry s 0) = Some 0%nat.
Proof. vm_compute. repeat split; reflexivity. Qed.


(** A batch for a host that only takes images: the text file and the
    image without a valid date leave nothing behind, the two others get
    the entries 0 and 1. *)
Example batch_of_four :
  let stamp := "2019-01-01T00:00:00.000Z"%string in
  let s := handleFiles Sample.props_images
             [(Sample.txt, stamp); (Sample.png, stamp);
              (Sample.undated, stamp); (Sample.png, stamp)] init in
  s = handleFiles Sample.props_images [(Sample.png, stamp); (Sample.png, stamp)] init /\
  files s = [0; 1]%nat /\ length (heap s) = 2%nat /\ next_id s = 2 /\
  map e_file (heap s) = [Sample.png; Sample.png].
Proof. vm_compute. repeat split; reflexivity. Qed.

Lemma list_within_maxFiles_witness :
  Z.of_nat (length (files Session.s_sent)) <= Z.max 0 (maxFiles Sample.props).
Proof.
  apply (list_within_maxFiles Sample.props Session.s_sent).
  exists Sample.sent. vm_compute. reflexivity.
Defined.

Lemma list_in_acceptance_order_witness :
  StronglySorted lt (files Session.s_two) /\
  Forall (fun r => (r < length (heap Session.s_two))%nat) (files Session.s_two).
Proof.
  apply (list_in_acceptance_order Sample.props Session.s_two).
  exists Session.two. vm_compute. reflexivity.
Defined.

Lemma removed_entry_still_reports_witness :
  exists s1 s2 e2,
    step Sample.props Session.s_sent (EvRemove 0) = Some s1 /\
    step Sample.props s1 (EvReadyState 0 4 200) = Some s2 /\
    ~ In 0%nat (files s2) /\
    heap s2 !! 0%nat = Some e2 /\
    m_status (e_meta e2) = done /\
    trace s2 = trace Session.s_sent
               ++ (if onRemove Sample.props then [OnRemove 0] else [])
               ++ [ForceUpdate] ++ notify Sample.props 0 done ++ [ForceUpdate].
Proof.
  apply (removed_entry_still_reports Sample.props Session.s_sent 0 0 0
           (Sample.the_entry Session.s_sent 0) 0 200).
  - exists Sample.sent. vm_compute. reflexivity.
  - vm_compute. reflexivity.
  - vm_compute. reflexivity.
  - vm_compute. reflexivity.
  - intros j r' e' Hj. lia.
  - vm_compute. reflexivity.
  - lia.
  - lia.
Defined.

Lemma other_entries_untouched_witness :
  heap (Sample.after Sample.props
          (Session.two ++ [EvDecodeReady 0%nat Sample.loaded_image])) !! 1%nat
  = Some (Sample.the_entry Session.s_two 1).
Proof.
  apply (other_entries_untouched Sample.props Session.s_two
           (EvDecodeReady 0%nat Sample.loaded_image)).
  - vm_compute. reflexivity.
  - vm_compute. reflexivity.
  - vm_compute. discriminate.
Defined.

Lemma nothing_starts_before_preview_witness :
  m_status (e_meta (Sample.the_entry Session.s_dropped 0)) = preparing /\
  e_triggered (Sample.the_entry Session.s_dropped 0) = None /\
  e_triggerUpload (Sample.the_entry Session.s_dropped 0) = false /\
  e_awaiting_params (Sample.the_entry Session.s_dropped 0) = 0%nat /\
  e_xhr (Sample.the_entry Session.s_dropped 0) = None /\
  count (is_start 0) (trace Session.s_dropped) = 0%nat /\
  count (is_send 0) (trace Session.s_dropped) = 0%nat.
Proof.
  apply (nothing_starts_before_preview Sample.props Session.s_dropped 0).
  - exists [EvHandleFile Sample.png Session.stamp]. vm_compute. reflexivity.
  - vm_compute. reflexivity.
  - vm_compute. discriminate.
Defined.

Lemma undecodable_file_never_uploads_witness :
  heap (Sample.after Sample.props
          [EvHandleFile Sample.png Session.stamp; EvDecodeError 0%nat;
           EvHandleFile Sample.txt Session.stamp; EvResume 1%nat Sample.no_hook])
    !! 0%nat
  = Some (Sample.the_entry Session.s_dropped 0) /\
  count (is_start 0)
    (trace (Sample.after Sample.props
              [EvHandleFile Sample.png Session.stamp; EvDecodeError 0%nat;
               EvHandleFile Sample.txt Session.stamp;
               EvResume 1%nat Sample.no_hook])) = 0%nat /\
  count (is_send 0)
    (trace (Sample.after Sample.props
              [EvHandleFile Sample.png Session.stamp; EvDecodeError 0%nat;
               EvHandleFile Sample.txt Session.stamp;
               EvResume 1%nat Sample.no_hook])) = 0%nat.
Proof.
  apply (undecodable_file_never_uploads Sample.props Session.s_dropped
           [EvDecodeError 0%nat; EvHandleFile Sample.txt Session.stamp;
            EvResume 1%nat Sample.no_hook]
           _ 0 _ Image 0 "image/png").
  - exists [EvHandleFile Sample.png Session.stamp]. vm_compute. reflexivity.
  - vm_compute. reflexivity.
  - vm_compute. reflexivity.
  - vm_compute. reflexivity.
  - repeat constructor; discriminate.
Defined.

Lemma submit_enabled_when_settled_witness :
  (forall r e, In r (files Session.s_finished) ->
     heap Session.s_finished !! r = Some e ->
     m_status (e_meta e) <> preparing /\ m_status (e_meta e) <> uploading /\
     e_activation e = Returned /\ e_triggered e <> Some false /\
     e_awaiting_params e = 0%nat) /\
  (exists r e, In r (files Session.s_finished) /\
     heap Session.s_finished !! r = Some e /\
     (m_status (e_meta e) = headers_received \/ m_status (e_meta e) = done)) /\
  (exists l, handleSubmit (mkSubmitProps true false) Session.s_finished = Some l /\
     l `sublist_of` files Session.s_finished /\
     forall r, In r l <->
       In r (files Session.s_finished) /\
       (submitAll (mkSubmitProps true false) = true \/
        exists e, heap Session.s_finished !! r = Some e /\
                  m_status (e_meta e) = done)).
Proof.
  apply (submit_enabled_when_settled Sample.props (mkSubmitProps true false)
           Session.s_finished).
  - exists Session.finished. vm_compute. reflexivity.
  - vm_compute. reflexivity.
  - reflexivity.
Defined.

Lemma never_back_to_preparing_witness :
  exists e', heap Session.s_finished !! 0%nat = Some e' /\
             m_status (e_meta e') <> preparing.
Proof.
  apply (never_back_to_preparing Sample.props Session.s_asked
           [EvParams 0%nat (Sample.to "https://x/up" None); EvReadyState 0%nat 4 200]
           Session.s_finished 0 (Sample.the_entry Session.s_asked 0)).
  - vm_compute. reflexivity.
  - repeat constructor.
  - vm_compute. reflexivity.
  - vm_compute. discriminate.
Defined.

Lemma file_never_replaced_witness :
  exists e', heap Session.s_finished !! 0%nat = Some e' /\
             e_file e' = e_file (Sample.the_entry Session.s_dropped 0).
Proof.
  apply (file_never_replaced Sample.props Session.s_dropped
           [EvDecodeReady 0%nat Sample.loaded_image; EvResume 0%nat Sample.no_hook;
            EvParams 0%nat (Sample.to "https://x/up" None);
            EvReadyState 0%nat 4 200]).
  - vm_compute. reflexivity.
  - vm_compute. reflexivity.
Defined.

Lemma without_provider_nothing_is_sent_witness :
  xhrs (Sample.after Session.props_plain Session.plain) = [] /\
  (forall r e, heap (Sample.after Session.props_plain Session.plain) !! r = Some e ->
               untransported e) /\
  (forall eff, In eff (trace (Sample.after Session.props_plain Session.plain)) ->
     match eff with
     | GetUploadParams _ | XhrSend _ _ _ _ _ _ => False
     | _ => True
     end).
Proof.
  apply (without_provider_nothing_is_sent Session.props_plain).
  - reflexivity.
  - exists Session.plain. vm_compute. reflexivity.
Defined.

Lemma upload_starts_once_at_resume_witness :
  trace Session.s_resumed
  = trace Session.s_hooked
    ++ (if onUploadReady Sample.props_hook then [OnUploadReady 0] else [])
    ++ (if started_at_resume Sample.props_hook Session.eager_hook
        then upload_start Sample.props_hook 0 else []) /\
  exists e',
    heap Session.s_resumed !! 0%nat = Some e' /\
    e_activation e' = Returned /\
    e_triggerUpload e'
    = (onUploadReady Sample.props_hook
       || e_triggerUpload (Sample.the_entry Session.s_hooked 0)) /\
    e_triggered e' = Some (started_at_resume Sample.props_hook Session.eager_hook) /\
    m_status (e_meta e')
    = (if started_at_resume Sample.props_hook Session.eager_hook
       then if getUploadParams Sample.props_hook then uploading else done
       else m_status (e_meta (Sample.the_entry Session.s_hooked 0))) /\
    e_awaiting_params e'
    = (if started_at_resume Sample.props_hook Session.eager_hook
          && getUploadParams Sample.props_hook
       then S (e_awaiting_params (Sample.the_entry Session.s_hooked 0))
       else e_awaiting_params (Sample.the_entry Session.s_hooked 0)).
Proof.
  apply (upload_starts_once_at_resume Sample.props_hook Session.s_hooked
           0 (Sample.the_entry Session.s_hooked 0) Session.eager_hook
           Session.s_resumed).
  - vm_compute. reflexivity.
  - vm_compute. reflexivity.
Defined.

Lemma object_urls_accounted_witness :
  count (is_create 0) (trace Session.s_dropped)
  = Nat.b2n (0 <? next_url Session.s_dropped)%nat /\
  (count (is_revoke 0) (trace Session.s_dropped)
   + waiting 0 (heap Session.s_dropped)
   = count (is_create 0) (trace Session.s_dropped))%nat.
Proof.
  apply (object_urls_accounted Sample.props Session.s_dropped 0).
  exists [EvHandleFile Sample.png Session.stamp]. vm_compute. reflexivity.
Defined.

Lemma observer_knows_the_status_witness :
  last_status 0 (trace Session.s_finished)
  = Some (m_status (e_meta (Sample.the_entry Session.s_finished 0))).
Proof.
  apply (observer_knows_the_status Sample.props eq_refl Session.finished).
  - vm_compute. reflexivity.
  - repeat constructor.
  - vm_compute. reflexivity.
Defined.

Lemma unmount_aborts_or_throws_witness :
  componentWillUnmount Session.s_mixed
  = Threw (mkState (next_id Session.s_mixed) (files Session.s_mixed)
                   (heap Session.s_mixed) (xhrs Session.s_mixed)
                   (next_url Session.s_mixed)
                   (trace Session.s_mixed ++ aborts (heap Session.s_mixed) [0%nat])).
Proof.
  apply (unmount_aborts_or_throws Sample.props Session.s_mixed [0%nat] [1%nat]).
  - exists Session.mixed. vm_compute. reflexivity.
  - vm_compute. reflexivity.
  - intros r e [<-|[]] He. vm_compute in He. injection He as <-. reflexivity.
  - exists (Sample.the_entry Session.s_mixed 1).
    split; [vm_compute; reflexivity | vm_compute; discriminate].
Defined.

(** What was aborted there: the request of the image, and no other. *)
Example unmount_aborted_the_first :
  aborts (heap Session.s_mixed) [0%nat] = [XhrAbort 0].
Proof. vm_compute. reflexivity. Qed.

Lemma requests_in_order_witness :
  exists p,
    In (EvParams 0%nat (Some p)) Sample.sent /\
    request_ok Session.s_sent 0 0 "POST" "https://x/up"
               [("X-Requested-With", "XMLHttpRequest")%string]
               [("file"%string, PFile Sample.png)] p.
Proof.
  apply (requests_in_order Sample.props Sample.sent Session.s_sent 0 0 "POST").
  - vm_compute. reflexivity.
  - vm_compute. do 8 right. left. reflexivity.
Defined.

Lemma dragover_cancels_last_leave_only_witness :
  active Session.d_twice = true /\
  timers Session.d_twice = timers mounted ++ seq (next_timer mounted) 1 /\
  forall t, In t (timers Session.d_twice) ->
    exists d'', timeout t Session.d_twice = Some d'' /\ active d'' = false.
Proof.
  apply (dragover_cancels_last_leave_only mounted 1). constructor.
Defined.

Lemma decoder_ready_completes_preview_witness :
  decoding_ok Sample.props (Sample.the_entry Session.s_clip 0) Video 0 "video/mp4" /\
  exists s',
    step Sample.props Session.s_clip (EvDecodeReady 0%nat Session.loaded_clip)
    = Some s' /\
    trace s' = trace Session.s_clip ++ [RevokeObjectURL 0; ForceUpdate] /\
    heap s' !! 0%nat
    = Some (entry_activation AwaitingPreview
              (entry_meta (decoded_meta Video Session.loaded_clip)
                 (Sample.the_entry Session.s_clip 0))).
Proof.
  apply (decoder_ready_completes_preview Sample.props Session.s_clip 0
           (Sample.the_entry Session.s_clip 0) Video 0 "video/mp4"
           Session.loaded_clip).
  - exists [EvHandleFile Session.clip Session.stamp]. vm_compute. reflexivity.
  - vm_compute. reflexivity.
  - vm_compute. reflexivity.
Defined.

Lemma provider_id_replaces_counter_id_witness :
  exists s' e',
    step Sample.props
      (Sample.after Sample.props
         [EvHandleFile Sample.txt Session.stamp; EvHandleFile Sample.txt Session.stamp;
          EvResume 1%nat Sample.no_hook])
      (EvParams 1%nat (Sample.to "https://x/up" (Some Collision.extra))) = Some s' /\
    reachable Sample.props s' /\
    files s'
    = files (Sample.after Sample.props
               [EvHandleFile Sample.txt Session.stamp;
                EvHandleFile Sample.txt Session.stamp;
                EvResume 1%nat Sample.no_hook]) /\
    heap s' !! 1%nat = Some e' /\
    heap s' !! 0%nat
    = Some (Sample.the_entry
              (Sample.after Sample.props
                 [EvHandleFile Sample.txt Session.stamp;
                  EvHandleFile Sample.txt Session.stamp;
                  EvResume 1%nat Sample.no_hook]) 0) /\
    m_id (e_meta e')
    = m_id (e_meta (Sample.the_entry
                      (Sample.after Sample.props
                         [EvHandleFile Sample.txt Session.stamp;
                          EvHandleFile Sample.txt Session.stamp;
                          EvResume 1%nat Sample.no_hook]) 0)).
Proof.
  apply (provider_id_replaces_counter_id Sample.props
           (Sample.after Sample.props
              [EvHandleFile Sample.txt Session.stamp;
               EvHandleFile Sample.txt Session.stamp;
               EvResume 1%nat Sample.no_hook])
           1 0
           (Sample.the_entry
              (Sample.after Sample.props
                 [EvHandleFile Sample.txt Session.stamp;
                  EvHandleFile Sample.txt Session.stamp;
                  EvResume 1%nat Sample.no_hook]) 1)
           _ _ Collision.extra).
  - exists [EvHandleFile Sample.txt Session.stamp;
            EvHandleFile Sample.txt Session.stamp; EvResume 1%nat Sample.no_hook].
    vm_compute. reflexivity.
  - vm_compute. reflexivity.
  - vm_compute. discriminate.
  - vm_compute. reflexivity.
  - discriminate.
  - vm_compute. reflexivity.
  - reflexivity.
  - vm_compute. reflexivity.
Defined.
